(** * CoinFlipHelper: the session state machine of the coinflip helper bot

    A shallow embedding of the helper's handlers as programs over an
    explicit world: the session objects, the process-wide registry
    [activeHelperGames], the armed timers, the [coinflip_sessions] table and
    what was sent to Telegram.  The repository holds two drafts of the
    helper: the one that calls itself "v4" and has the pickup dispatcher
    (module [V4]), and [coinflip_helper.js] (module [Base]).

    Every [await] of the source is a suspension point of the embedded
    program, so the one definition of a handler is run to completion
    ([run]) when handlers are taken one at a time, and up to its next await
    ([advance]) when they interleave.

    Conventions of the model:
    - identities are compared through [String(...)] everywhere in the
      source and are kept as strings; [session_id] is a number, as the
      helper's documentation of [finalizeAndRecordOutcome] says;
    - a row carries an object in [game_state_json];
    - how an awaited call ends ([fates]) and what [Math.random] gives
      ([coins]) are read from two tapes of the world, so that the theorems
      hold for every way the outside can behave;
    - the wording of the messages is abstracted to one constructor per
      template; the texts of the callback answers are kept;
    - the table is a list of rows; one transaction is open at a time. *)

From Stdlib Require Import ZArith String Ascii List Bool Lia.
From stdpp Require Import base option list gmap strings.
Import ListNotations.

Set Implicit Arguments.
Unset Strict Implicit.

(** ** Values *)

(** Identities reach the code as whatever the driver returns and the code
    compares them through [String(...)] only.  An identity is therefore kept
    as its string image, next to JavaScript's two absent values. *)
Inductive jsid : Type :=
| Id (s : string)
| Null
| Undefined.

(** [String(v)] *)
Definition String_ (v : jsid) : string :=
  match v with
  | Id s => s
  | Null => "null"
  | Undefined => "undefined"
  end.

(** Truthiness of an identity, as in [if (session.opponent_id)]. *)
Definition truthy (v : jsid) : bool :=
  match v with
  | Id s => negb (String.eqb s "")
  | Null | Undefined => false
  end.

(** The result of [parseInt]: an integer or [NaN]. *)
Inductive jsnum : Type :=
| Num (z : Z)
| NaN.

(** The payload's [main_bot_game_id]: JSON gives a number or a string. *)
Inductive gid : Type :=
| GNum (z : Z)
| GStr (s : string).

#[global] Instance jsid_eq_dec : EqDecision jsid.
Proof. solve_decision. Defined.
#[global] Instance gid_eq_dec : EqDecision gid.
Proof. solve_decision. Defined.

(** [if (payload.main_bot_game_id)] *)
Definition gid_truthy (g : gid) : bool :=
  match g with
  | GNum z => negb (Z.eqb z 0)
  | GStr s => negb (String.eqb s "")
  end.

(** A [gid] used as a key of the registry ([activeHelperGames.get(mainBotGameId)]):
    a string is never the same key as a number. *)
Definition gid_key (g : gid) : jsnum :=
  match g with
  | GNum z => Num z
  | GStr _ => NaN
  end.

Inductive status : Type :=
| pending_pickup
| in_progress
| completed_p1_win
| completed_p2_win
| completed_bot_win
| completed_cancelled
| completed_timeout
| completed_error
| completed_error_ui.

#[global] Instance status_eq_dec : EqDecision status.
Proof. solve_decision. Defined.

Definition terminal (st : status) : bool :=
  match st with
  | pending_pickup | in_progress => false
  | _ => true
  end.

Definition COINFLIP_CHOICE_HEADS : string := "heads".
Definition COINFLIP_CHOICE_TAILS : string := "tails".
Definition UNIFIED_OFFER_TIMEOUT_MS : Z := 30000.
Definition DIRECT_CHALLENGE_ACCEPT_TIMEOUT_MS : Z := 45000.
Definition ACTIVE_GAME_TURN_TIMEOUT_MS : Z := 45000.
Definition COIN_FLIP_ANIMATION_INTERVAL_MS : Z := 250.
Definition COIN_FLIP_ANIMATION_DURATION_MS : Z := 2000.
Definition COIN_FLIP_ANIMATION_STEPS : nat :=
  Z.to_nat (COIN_FLIP_ANIMATION_DURATION_MS / COIN_FLIP_ANIMATION_INTERVAL_MS).
Definition COIN_FLIP_ANIMATION_FRAMES_length : nat := 8.

(** ** Sessions *)

(** [game_state_json]: the fields the helper reads or writes; an absent
    property is [None] (or [Undefined] for an identity). *)
Record game_state : Type := GameState {
  initiatorName : option string;
  opponentName : option string;
  helperMessageId : option Z;
  callerId : jsid;
  callerName : option string;
  winner : jsid;
  gs_status : option string;
  gs_error : option string
}.

Definition empty_game_state : game_state :=
  GameState None None None Undefined None Undefined None None.

(** A row of [coinflip_sessions].  The column [game_state_json] holds an
    object: a row whose game state is [NULL] is outside the model, and so
    is what the helper does when it picks such a row up. *)
Record row : Type := Row {
  r_session_id : Z;
  r_main_bot_game_id : gid;
  r_chat_id : Z;
  r_initiator_id : jsid;
  r_opponent_id : jsid;
  r_bet_amount_lamports : Z;
  r_status : status;
  r_game_state_json : game_state;
  r_helper_bot_id : jsid
}.

Definition timer_handle : Type := nat.
Definition loc : Type := nat.

(** The in-memory session: the object [RETURNING *] gave, with the
    [timeoutId] property the helper adds to it. *)
Record session : Type := Session {
  session_id : Z;
  main_bot_game_id : gid;
  chat_id : Z;
  initiator_id : jsid;
  opponent_id : jsid;
  bet_amount_lamports : Z;
  session_status : status;
  game_state_json : game_state;
  helper_bot_id : jsid;
  timeoutId : option timer_handle
}.

Definition session_of_row (r : row) : session :=
  {| session_id := r_session_id r;
     main_bot_game_id := r_main_bot_game_id r;
     chat_id := r_chat_id r;
     initiator_id := r_initiator_id r;
     opponent_id := r_opponent_id r;
     bet_amount_lamports := r_bet_amount_lamports r;
     session_status := r_status r;
     game_state_json := r_game_state_json r;
     helper_bot_id := r_helper_bot_id r;
     timeoutId := None |}.

(** Property assignments on a session object. *)
Definition set_opponent_id (v : jsid) (s : session) : session :=
  {| session_id := session_id s;
     main_bot_game_id := main_bot_game_id s;
     chat_id := chat_id s;
     initiator_id := initiator_id s;
     opponent_id := v;
     bet_amount_lamports := bet_amount_lamports s;
     session_status := session_status s;
     game_state_json := game_state_json s;
     helper_bot_id := helper_bot_id s;
     timeoutId := timeoutId s |}.

Definition set_timeoutId (h : timer_handle) (s : session) : session :=
  {| session_id := session_id s;
     main_bot_game_id := main_bot_game_id s;
     chat_id := chat_id s;
     initiator_id := initiator_id s;
     opponent_id := opponent_id s;
     bet_amount_lamports := bet_amount_lamports s;
     session_status := session_status s;
     game_state_json := game_state_json s;
     helper_bot_id := helper_bot_id s;
     timeoutId := Some h |}.

Definition set_game_state (f : game_state -> game_state) (s : session) : session :=
  {| session_id := session_id s;
     main_bot_game_id := main_bot_game_id s;
     chat_id := chat_id s;
     initiator_id := initiator_id s;
     opponent_id := opponent_id s;
     bet_amount_lamports := bet_amount_lamports s;
     session_status := session_status s;
     game_state_json := f (game_state_json s);
     helper_bot_id := helper_bot_id s;
     timeoutId := timeoutId s |}.

Definition gs_set_helperMessageId (m : Z) (g : game_state) : game_state :=
  GameState (initiatorName g) (opponentName g) (Some m) (callerId g)
            (callerName g) (winner g) (gs_status g) (gs_error g).
Definition gs_set_opponentName (n : string) (g : game_state) : game_state :=
  GameState (initiatorName g) (Some n) (helperMessageId g) (callerId g)
            (callerName g) (winner g) (gs_status g) (gs_error g).
Definition gs_set_callerId (v : jsid) (g : game_state) : game_state :=
  GameState (initiatorName g) (opponentName g) (helperMessageId g) v
            (callerName g) (winner g) (gs_status g) (gs_error g).
Definition gs_set_callerName (n : string) (g : game_state) : game_state :=
  GameState (initiatorName g) (opponentName g) (helperMessageId g) (callerId g)
            (Some n) (winner g) (gs_status g) (gs_error g).
Definition gs_set_winner (v : jsid) (g : game_state) : game_state :=
  GameState (initiatorName g) (opponentName g) (helperMessageId g) (callerId g)
            (callerName g) v (gs_status g) (gs_error g).
Definition gs_set_status (v : string) (g : game_state) : game_state :=
  GameState (initiatorName g) (opponentName g) (helperMessageId g) (callerId g)
            (callerName g) (winner g) (Some v) (gs_error g).
Definition gs_error_only (msg : string) : game_state :=
  GameState None None None Undefined None Undefined None (Some msg).

(** ** The outside world *)

(** What the presenter is asked to show.  The wording of the messages is
    not modelled; each constructor stands for one template of the source. *)
Inductive ui_text : Type :=
| TxtUnifiedOffer
| TxtDirectChallenge
| TxtPvBPrompt
| TxtPvPPrompt (caller : jsid)
| TxtFlipping (frame : nat) (choice : string)
| TxtResult (landed : string) (playerWins : bool) (winnerId : jsid)
| TxtOfferExpired
| TxtPlayerTimedOutBotWins
| TxtCallerTimedOut
| TxtPlayerTimedOut
| TxtOfferWithdrawn
| TxtDeclined.

Inductive presenter_call : Type :=
| AnswerCallbackQuery (qid : string) (text : option string) (show_alert : bool)
| SendMessage (chat : Z) (t : ui_text)
| EditMessageText (chat : Z) (mid : option Z) (t : ui_text)
| DeleteMessage (chat : Z) (mid : option Z).

(** How an awaited call ends: it resolves, it is rejected with Telegram's
    "message is not modified", or it is rejected with anything else. *)
Inductive fate : Type :=
| Good
| NotModified
| Bad.

Inductive exn : Type :=
| TelegramError (not_modified : bool)
| DatabaseError
| TypeError
| ReferenceError.

Inductive log_line : Type :=
| LogFinalizing (sid : jsnum) (st : status)
| LogCriticalFinalize (sid : jsnum)
| LogSendFailed (chat : Z)
| LogHandleNewError (g : gid).

(** The contexts a timer callback is armed with. *)
Inductive context : Type :=
| offer
| player_turn
| caller_turn.

(** The closure handed to [setTimeout]: the session it names and the
    context it was armed in.  Each draft says below which handler the
    closure calls. *)
Inductive timer_cb : Type :=
| TimeoutCb (sid : Z) (ctx : context).

Record world : Type := World {
  heap : list session;                  (* session objects, by reference *)
  activeHelperGames : gmap Z loc;       (* the registry *)
  timers : gmap timer_handle timer_cb;  (* armed, not yet fired or cleared *)
  next_timer : timer_handle;
  store : list row;                     (* coinflip_sessions *)
  txn : option (list row);              (* table as of BEGIN, while open *)
  persisted : list (Z * status * game_state); (* final updates that ran *)
  outbox : list (presenter_call * fate);
  next_message_id : Z;
  console : list log_line;
  fates : list fate;                    (* how the coming awaits end *)
  coins : list bool;                    (* the coming Math.random() < 0.5 *)
  BOT_ID : string
}.

Definition set_heap v (w : world) : world :=
  World v (activeHelperGames w) (timers w) (next_timer w) (store w) (txn w)
        (persisted w) (outbox w) (next_message_id w) (console w) (fates w)
        (coins w) (BOT_ID w).
Definition set_activeHelperGames v (w : world) : world :=
  World (heap w) v (timers w) (next_timer w) (store w) (txn w) (persisted w)
        (outbox w) (next_message_id w) (console w) (fates w) (coins w)
        (BOT_ID w).
Definition set_timers v (w : world) : world :=
  World (heap w) (activeHelperGames w) v (next_timer w) (store w) (txn w)
        (persisted w) (outbox w) (next_message_id w) (console w) (fates w)
        (coins w) (BOT_ID w).
Definition set_next_timer v (w : world) : world :=
  World (heap w) (activeHelperGames w) (timers w) v (store w) (txn w)
        (persisted w) (outbox w) (next_message_id w) (console w) (fates w)
        (coins w) (BOT_ID w).
Definition set_store v (w : world) : world :=
  World (heap w) (activeHelperGames w) (timers w) (next_timer w) v (txn w)
        (persisted w) (outbox w) (next_message_id w) (console w) (fates w)
        (coins w) (BOT_ID w).
Definition set_txn v (w : world) : world :=
  World (heap w) (activeHelperGames w) (timers w) (next_timer w) (store w) v
        (persisted w) (outbox w) (next_message_id w) (console w) (fates w)
        (coins w) (BOT_ID w).
Definition set_persisted v (w : world) : world :=
  World (heap w) (activeHelperGames w) (timers w) (next_timer w) (store w)
        (txn w) v (outbox w) (next_message_id w) (console w) (fates w)
        (coins w) (BOT_ID w).
Definition set_outbox v (w : world) : world :=
  World (heap w) (activeHelperGames w) (timers w) (next_timer w) (store w)
        (txn w) (persisted w) v (next_message_id w) (console w) (fates w)
        (coins w) (BOT_ID w).
Definition set_next_message_id v (w : world) : world :=
  World (heap w) (activeHelperGames w) (timers w) (next_timer w) (store w)
        (txn w) (persisted w) (outbox w) v (console w) (fates w) (coins w)
        (BOT_ID w).
Definition set_console v (w : world) : world :=
  World (heap w) (activeHelperGames w) (timers w) (next_timer w) (store w)
        (txn w) (persisted w) (outbox w) (next_message_id w) v (fates w)
        (coins w) (BOT_ID w).
Definition set_fates v (w : world) : world :=
  World (heap w) (activeHelperGames w) (timers w) (next_timer w) (store w)
        (txn w) (persisted w) (outbox w) (next_message_id w) (console w) v
        (coins w) (BOT_ID w).
Definition set_coins v (w : world) : world :=
  World (heap w) (activeHelperGames w) (timers w) (next_timer w) (store w)
        (txn w) (persisted w) (outbox w) (next_message_id w) (console w)
        (fates w) v (BOT_ID w).

(** ** SQL *)

(** [WHERE main_bot_game_id = $2 AND status = 'pending_pickup'] *)
Definition claim_matches (g : gid) (r : row) : bool :=
  bool_decide (r_main_bot_game_id r = g) && bool_decide (r_status r = pending_pickup).

(** [SET status = 'in_progress', helper_bot_id = $1] *)
Definition claim_row (bot : string) (r : row) : row :=
  Row (r_session_id r) (r_main_bot_game_id r) (r_chat_id r) (r_initiator_id r)
      (r_opponent_id r) (r_bet_amount_lamports r) in_progress
      (r_game_state_json r) (Id bot).

(** The conditional update of the pickup: the table afterwards and the rows
    of [RETURNING *]. *)
Definition sql_claim (bot : string) (g : gid) (t : list row) : list row * list row :=
  (map (fun r => if claim_matches g r then claim_row bot r else r) t,
   map (claim_row bot) (List.filter (claim_matches g) t)).

(** [UPDATE coinflip_sessions SET status = $1, game_state_json = $2 ... WHERE session_id = $3] *)
Definition sql_finalize (st : status) (gs : game_state) (sid : Z) (t : list row) : list row :=
  map (fun r => if Z.eqb (r_session_id r) sid
                then Row (r_session_id r) (r_main_bot_game_id r) (r_chat_id r)
                         (r_initiator_id r) (r_opponent_id r)
                         (r_bet_amount_lamports r) st gs (r_helper_bot_id r)
                else r) t.

(** [UPDATE coinflip_sessions SET game_state_json = $1 WHERE session_id = $2] *)
Definition sql_game_state (gs : game_state) (sid : Z) (t : list row) : list row :=
  map (fun r => if Z.eqb (r_session_id r) sid
                then Row (r_session_id r) (r_main_bot_game_id r) (r_chat_id r)
                         (r_initiator_id r) (r_opponent_id r)
                         (r_bet_amount_lamports r) (r_status r) gs (r_helper_bot_id r)
                else r) t.

(** ** Effects and programs *)

(** The calls the source awaits. *)
Inductive io : Type -> Type :=
| bot_answerCallbackQuery (qid : string) (text : option string) (show_alert : bool) : io unit
| bot_sendMessage (chat : Z) (t : ui_text) : io Z
| bot_editMessageText (chat : Z) (mid : option Z) (t : ui_text) : io unit
| bot_deleteMessage (chat : Z) (mid : option Z) : io unit
| sleep (ms : Z) : io unit
| pool_connect : io unit
| client_query_BEGIN : io unit
| client_query_claim (g : gid) : io (list row)
| client_query_COMMIT : io unit
| client_query_ROLLBACK : io unit
| pool_query_finalize (st : status) (gs : game_state) (sid : jsnum) : io unit
| pool_query_game_state (gs : game_state) (sid : Z) : io unit.

Inductive eff : Type -> Type :=
| MapGet (k : jsnum) : eff (option loc)           (* activeHelperGames.get *)
| MapSet (k : Z) (l : loc) : eff unit             (* activeHelperGames.set *)
| MapDelete (k : jsnum) : eff unit                (* activeHelperGames.delete *)
| NewObject (s : session) : eff loc
| Deref (l : loc) : eff (option session)
| Assign (l : loc) (f : session -> session) : eff unit
| SetTimeout (cb : timer_cb) (ms : Z) : eff timer_handle
| ClearTimeout (h : timer_handle) : eff unit
| MathRandomBelowHalf : eff bool
| ConsoleLog (ln : log_line) : eff unit
| ClientRelease : eff unit
| Io {X : Type} (r : io X) : eff (X + exn).

Inductive prog (A : Type) : Type :=
| Ret (a : A)
| Throw (e : exn)
| Vis {X : Type} (e : eff X) (k : X -> prog A).

Arguments Ret {A} a.
Arguments Throw {A} e.
Arguments Vis {A X} e k.

Fixpoint bind {A B : Type} (p : prog A) (f : A -> prog B) : prog B :=
  match p with
  | Ret a => f a
  | Throw e => Throw e
  | Vis e k => Vis e (fun x => bind (k x) f)
  end.

(** [try { p } catch (e) { h e }] *)
Fixpoint try_catch {A : Type} (p : prog A) (h : exn -> prog A) : prog A :=
  match p with
  | Ret a => Ret a
  | Throw e => h e
  | Vis e k => Vis e (fun x => try_catch (k x) h)
  end.

(** [try { p } finally { f }] *)
Fixpoint finally {A : Type} (p : prog A) (f : prog unit) : prog A :=
  match p with
  | Ret a => bind f (fun _ => Ret a)
  | Throw e => bind f (fun _ => Throw e)
  | Vis e k => Vis e (fun x => finally (k x) f)
  end.

Definition do_ {X : Type} (e : eff X) : prog X := Vis e Ret.

(** [await call]: the value it resolves to, or the rejection rethrown. *)
Definition await {X : Type} (r : io X) : prog X :=
  Vis (Io r) (fun res => match res with inl x => Ret x | inr e => Throw e end).

(** Reading through a reference. *)
Definition deref (l : loc) : prog session :=
  Vis (Deref l) (fun o => match o with Some s => Ret s | None => Throw TypeError end).

Declare Scope prog_scope.
Delimit Scope prog_scope with prog.
Notation "x <- p ;; q" := (bind p (fun x => q))
  (at level 100, p at next level, right associativity) : prog_scope.
Notation "p ;; q" := (bind p (fun _ => q))
  (at level 100, right associativity) : prog_scope.
Local Open Scope prog_scope.

(** ** Performing one effect *)

Definition pop_fate (w : world) : fate * world :=
  (hd Good (fates w), set_fates (tl (fates w)) w).

Definition map_get (k : jsnum) (w : world) : option loc :=
  match k with
  | Num z => activeHelperGames w !! z
  | NaN => None
  end.

(** A presenter call: noted in the outbox with the way it ended. *)
Definition presenter (c : presenter_call) (w : world) : (unit + exn) * world :=
  let f := hd Good (fates w) in
  let w' := set_outbox (outbox w ++ [(c, f)]) (set_fates (tl (fates w)) w) in
  match f with
  | Good => (inl tt, w')
  | NotModified => (inr (TelegramError true), w')
  | Bad => (inr (TelegramError false), w')
  end.

(** A statement on the database: it runs when the call ends well. *)
Definition statement (upd : world -> world) (w : world) : (unit + exn) * world :=
  let f := hd Good (fates w) in
  let w' := set_fates (tl (fates w)) w in
  match f with
  | Good => (inl tt, upd w')
  | _ => (inr DatabaseError, w')
  end.

Definition rollback (w : world) : world :=
  match txn w with
  | Some t => set_txn None (set_store t w)
  | None => w
  end.

Definition perform_io {X : Type} (r : io X) (w : world) : (X + exn) * world :=
  match r in io X return (X + exn) * world with
  | bot_answerCallbackQuery qid text alert =>
      presenter (AnswerCallbackQuery qid text alert) w
  | bot_sendMessage chat t =>
      let f := hd Good (fates w) in
      let w' := set_outbox (outbox w ++ [(SendMessage chat t, f)])
                  (set_fates (tl (fates w)) w) in
      match f with
      | Good => (inl (next_message_id w),
                 set_next_message_id (next_message_id w + 1)%Z w')
      | NotModified => (inr (TelegramError true), w')
      | Bad => (inr (TelegramError false), w')
      end
  | bot_editMessageText chat mid t => presenter (EditMessageText chat mid t) w
  | bot_deleteMessage chat mid => presenter (DeleteMessage chat mid) w
  | sleep _ => (inl tt, w)
  | pool_connect => statement (fun w => w) w
  | client_query_BEGIN => statement (fun w => set_txn (Some (store w)) w) w
  | client_query_claim g =>
      let f := hd Good (fates w) in
      let w' := set_fates (tl (fates w)) w in
      match f with
      | Good => let '(t, rows) := sql_claim (BOT_ID w) g (store w) in
                (inl rows, set_store t w')
      | _ => (inr DatabaseError, w')
      end
  | client_query_COMMIT =>
      let f := hd Good (fates w) in
      let w' := set_fates (tl (fates w)) w in
      match f with
      | Good => (inl tt, set_txn None w')
      | _ => (inr DatabaseError, rollback w')
      end
  | client_query_ROLLBACK =>
      let f := hd Good (fates w) in
      let w' := rollback (set_fates (tl (fates w)) w) in
      match f with
      | Good => (inl tt, w')
      | _ => (inr DatabaseError, w')
      end
  | pool_query_finalize st gs sid =>
      match sid with
      | Num z =>
          statement (fun w => set_persisted (persisted w ++ [(z, st, gs)])
                                (set_store (sql_finalize st gs z (store w)) w)) w
      | NaN => (inr DatabaseError, set_fates (tl (fates w)) w)
      end
  | pool_query_game_state gs sid =>
      statement (fun w => set_store (sql_game_state gs sid (store w)) w) w
  end.

Definition perform {X : Type} (e : eff X) (w : world) : X * world :=
  match e in eff X return X * world with
  | MapGet k => (map_get k w, w)
  | MapSet k l => (tt, set_activeHelperGames (<[k := l]> (activeHelperGames w)) w)
  | MapDelete k =>
      (tt, match k with
           | Num z => set_activeHelperGames (delete z (activeHelperGames w)) w
           | NaN => w
           end)
  | NewObject s => (length (heap w), set_heap (heap w ++ [s]) w)
  | Deref l => (heap w !! l, w)
  | Assign l f =>
      (tt, match heap w !! l with
           | Some s => set_heap (<[l := f s]> (heap w)) w
           | None => w
           end)
  | SetTimeout cb _ =>
      (next_timer w,
       set_next_timer (S (next_timer w)) (set_timers (<[next_timer w := cb]> (timers w)) w))
  | ClearTimeout h => (tt, set_timers (delete h (timers w)) w)
  | MathRandomBelowHalf => (hd true (coins w), set_coins (tl (coins w)) w)
  | ConsoleLog ln => (tt, set_console (console w ++ [ln]) w)
  | ClientRelease => (tt, w)
  | Io r => perform_io r w
  end.

(** Run to completion: the handler is not interleaved with any other. *)
Fixpoint run {A : Type} (p : prog A) (w : world) : (A + exn) * world :=
  match p with
  | Ret a => (inl a, w)
  | Throw e => (inr e, w)
  | Vis e k => let '(x, w') := perform e w in run (k x) w'
  end.

(** Run up to the next suspension: the awaited call is issued, and what is
    left of the handler waits for it. *)
Fixpoint advance {A : Type} (p : prog A) (w : world) : prog A * world :=
  match p with
  | Ret a => (Ret a, w)
  | Throw e => (Throw e, w)
  | Vis e k =>
      let '(x, w') := perform e w in
      match e with
      | Io _ => (k x, w')
      | _ => advance (k x) w'
      end
  end.

(** ** Callback data *)

(** [s.split(c)]: the first field and the fields after it. *)
Fixpoint split_on (c : ascii) (s : string) : string * list string :=
  match s with
  | EmptyString => (EmptyString, nil)
  | String a s' =>
      let '(f, rest) := split_on c s' in
      if Ascii.eqb a c then (EmptyString, f :: rest) else (String a f, rest)
  end.

Definition split (c : ascii) (s : string) : list string :=
  let '(f, rest) := split_on c s in f :: rest.

(** Leading white space as [parseInt] strips it, on the UTF-8 bytes of the
    data: the ASCII blanks and line ends, U+00A0, U+1680, U+2000 to U+200A,
    U+2028, U+2029, U+202F, U+205F, U+3000 and U+FEFF. *)
Definition ascii_blank (n : nat) : bool :=
  Nat.eqb n 32 || (Nat.leb 9 n && Nat.leb n 13).

Fixpoint skip_white_space (s : string) : string :=
  match s with
  | String a s1 =>
      let n := nat_of_ascii a in
      if ascii_blank n then skip_white_space s1
      else
        match s1 with
        | String b s2 =>
            let m := nat_of_ascii b in
            if Nat.eqb n 194 && Nat.eqb m 160 then skip_white_space s2
            else
              match s2 with
              | String c s3 =>
                  let k := nat_of_ascii c in
                  if (Nat.eqb n 225 && Nat.eqb m 154 && Nat.eqb k 128)
                     || (Nat.eqb n 226 && Nat.eqb m 128
                         && ((Nat.leb 128 k && Nat.leb k 138)
                             || Nat.eqb k 168 || Nat.eqb k 169 || Nat.eqb k 175))
                     || (Nat.eqb n 226 && Nat.eqb m 129 && Nat.eqb k 159)
                     || (Nat.eqb n 227 && Nat.eqb m 128 && Nat.eqb k 128)
                     || (Nat.eqb n 239 && Nat.eqb m 187 && Nat.eqb k 191)
                  then skip_white_space s3
                  else s
              | EmptyString => s
              end
        | EmptyString => s
        end
  | EmptyString => s
  end.

Definition digit_of (a : ascii) : option Z :=
  let n := nat_of_ascii a in
  if Nat.leb 48 n && Nat.leb n 57 then Some (Z.of_nat (n - 48)) else None.

(** The longest prefix of decimal digits, read as a number. *)
Fixpoint digits_prefix (s : string) (acc : option Z) : option Z :=
  match s with
  | String a s' =>
      match digit_of a with
      | Some d => digits_prefix s' (Some (10 * default 0%Z acc + d)%Z)
      | None => acc
      end
  | EmptyString => acc
  end.

(** [parseInt(x, 10)] of a string or of [undefined].  The value is that of
    the digits, exact.  This is JavaScript's result up to a magnitude of
    2^53; beyond it JavaScript rounds to the nearest double, which the
    model does not follow. *)
Definition parseInt (x : option string) : jsnum :=
  match x with
  | None => NaN
  | Some s =>
      match skip_white_space s with
      | String "-" s' =>
          match digits_prefix s' None with
          | Some z => Num (- z)
          | None => NaN
          end
      | String "+" s' =>
          match digits_prefix s' None with
          | Some z => Num z
          | None => NaN
          end
      | s' =>
          match digits_prefix s' None with
          | Some z => Num z
          | None => NaN
          end
      end
  end.

(** [callbackQuery.from], the [userObject] of [getPlayerDisplayReference].
    The helper reads [id] through [String(...)] and through [||], and
    [telegram_id] through [String(...)]: the record holds these images and
    whether [id] is truthy.  A number is given by its decimal text and is
    falsy when it is zero; the empty string is falsy; a property that is
    missing has the image ["undefined"] and is falsy. *)
Record user : Type := User {
  u_id : string;
  u_username : option string;
  u_first_name : option string;
  u_id_truthy : bool;
  u_telegram_id : string
}.

Record callback_query : Type := CallbackQuery {
  cq_id : string;
  cq_data : string;
  cq_from : user
}.

(** [String(x)] for a destructured element that may be missing. *)
Definition String_opt (x : option string) : string :=
  match x with
  | Some s => s
  | None => "undefined"
  end.

Definition nonempty (x : option string) : option string :=
  match x with
  | Some EmptyString | None => None
  | Some s => Some s
  end.

(** [s.slice(-4)] *)
Definition slice_last4 (s : string) : string :=
  substring (String.length s - 4) 4 s.

(** [getPlayerDisplayReference(userObject)]; [None] is a [userObject]
    that is falsy. *)
Definition getPlayerDisplayReference (userObject : option user) : string :=
  match userObject with
  | None => "Mystery Player"
  | Some u =>
      match nonempty (u_username u) with
      | Some n => String "@" n
      | None =>
          match nonempty (u_first_name u) with
          | Some f => f
          | None =>
              String.append "Player "
                (slice_last4 (if u_id_truthy u then u_id u else u_telegram_id u))
          end
      end
  end.

Definition exn_message (e : exn) : string :=
  match e with
  | TelegramError true => "message is not modified"
  | TelegramError false => "telegram request failed"
  | DatabaseError => "database request failed"
  | TypeError => "TypeError"
  | ReferenceError => "ReferenceError"
  end.

(** ** What the two drafts share *)

(** [finalizeAndRecordOutcome], the same text in both files.  The registry
    entry is deleted inside the [try], after the awaited update. *)
Definition finalizeAndRecordOutcome (sessionId : jsnum) (finalStatus : status)
    (finalGameState : game_state) : prog unit :=
  do_ (ConsoleLog (LogFinalizing sessionId finalStatus)) ;;
  try_catch
    (await (pool_query_finalize finalStatus finalGameState sessionId) ;;
     do_ (MapDelete sessionId))
    (fun _ => do_ (ConsoleLog (LogCriticalFinalize sessionId))).

Definition safeSendMessage (chat : Z) (t : ui_text) : prog (option Z) :=
  try_catch
    (m <- await (bot_sendMessage chat t) ;; Ret (Some m))
    (fun _ => do_ (ConsoleLog (LogSendFailed chat)) ;; Ret None).

(** [if (session.timeoutId) clearTimeout(session.timeoutId)] *)
Definition clear_session_timeout (l : loc) : prog unit :=
  s <- deref l ;;
  match timeoutId s with
  | Some h => do_ (ClearTimeout h)
  | None => Ret tt
  end.

(** The animation loop, from step [i], with [n] steps to go. *)
Fixpoint animation_loop (l : loc) (choice : string) (i n : nat) : prog unit :=
  match n with
  | O => Ret tt
  | S n' =>
      s <- deref l ;;
      go_on <- try_catch
        (await (bot_editMessageText (chat_id s) (helperMessageId (game_state_json s))
                  (TxtFlipping (i mod COIN_FLIP_ANIMATION_FRAMES_length) choice)) ;;
         Ret true)
        (fun e => match e with
                  | TelegramError true => Ret true
                  | _ => Ret false       (* break *)
                  end) ;;
      if go_on : bool
      then await (sleep COIN_FLIP_ANIMATION_INTERVAL_MS) ;;
           animation_loop l choice (S i) n'
      else Ret tt
  end.

(** [Math.random() < 0.5 ? COINFLIP_CHOICE_HEADS : COINFLIP_CHOICE_TAILS] *)
Definition landed_side (below_half : bool) : string :=
  if below_half then COINFLIP_CHOICE_HEADS else COINFLIP_CHOICE_TAILS.

(** Who wins and with which status: the [if (isPvP)] of the animation
    function, the same text in both files. *)
Definition outcome (s : session) (playerChoice : string) (isPvP : bool)
    (actualFlipOutcome : string) : jsid * status :=
  let playerWins := String.eqb playerChoice actualFlipOutcome in
  if isPvP then
    let winnerId :=
      if playerWins then callerId (game_state_json s)
      else if String.eqb (String_ (callerId (game_state_json s))) (String_ (initiator_id s))
           then opponent_id s
           else initiator_id s in
    (winnerId,
     if String.eqb (String_ winnerId) (String_ (initiator_id s))
     then completed_p1_win else completed_p2_win)
  else
    (if playerWins then initiator_id s else Id "bot",
     if playerWins then completed_p1_win else completed_bot_win).

(** The animation function of both drafts ([runCoinflipAnimationAndFinalize]
    and [runCoinflipAnimation]); they differ in how the number of steps is
    written down. *)
Definition animate_and_finalize (steps : nat) (l : loc) (playerChoice : option string)
    (isPvP : bool) : prog unit :=
  clear_session_timeout l ;;
  match playerChoice with
  | None => Throw TypeError            (* playerChoice.charAt of undefined *)
  | Some choice =>
      animation_loop l choice 0 steps ;;
      below_half <- do_ MathRandomBelowHalf ;;
      let actualFlipOutcome := landed_side below_half in
      s <- deref l ;;
      let wf := outcome s choice isPvP actualFlipOutcome in
      do_ (Assign l (set_game_state (gs_set_winner (fst wf)))) ;;
      await (bot_editMessageText (chat_id s) (helperMessageId (game_state_json s))
               (TxtResult actualFlipOutcome (String.eqb choice actualFlipOutcome) (fst wf))) ;;
      s' <- deref l ;;
      finalizeAndRecordOutcome (Num (session_id s')) (snd wf) (game_state_json s')
  end.

Definition deny (cq : callback_query) (text : string) : prog unit :=
  await (bot_answerCallbackQuery (cq_id cq) (Some text) true).

Definition no_longer_active (cq : callback_query) : prog unit :=
  await (bot_answerCallbackQuery (cq_id cq) (Some "This game is no longer active.") true).

(** The head of the callback listener:
    [const [action, sessionIdStr, ...params] = data.split(':')]. *)
Definition cq_fields (cq : callback_query) : list string := split ":" (cq_data cq).
Definition cq_action (cq : callback_query) : string := hd EmptyString (cq_fields cq).
Definition cq_sessionId (cq : callback_query) : jsnum := parseInt (nth_error (cq_fields cq) 1).
Definition cq_params (cq : callback_query) : list string := skipn 2 (cq_fields cq).
Definition clickerId (cq : callback_query) : string := u_id (cq_from cq).

(** ** The helper, draft "v4" *)

Module V4.

(** The timer closures read [session.session_id] when they fire; the field
    is never assigned, so its value is taken when the timer is armed. *)
Definition runUnifiedOffer (l : loc) : prog unit :=
  s <- deref l ;;
  sentMessage <- safeSendMessage (chat_id s) TxtUnifiedOffer ;;
  match sentMessage with
  | Some message_id =>
      do_ (Assign l (set_game_state (gs_set_helperMessageId message_id))) ;;
      h <- do_ (SetTimeout (TimeoutCb (session_id s) offer) UNIFIED_OFFER_TIMEOUT_MS) ;;
      do_ (Assign l (set_timeoutId h)) ;;
      do_ (MapSet (session_id s) l) ;;
      s' <- deref l ;;
      await (pool_query_game_state (game_state_json s') (session_id s))
  | None =>
      finalizeAndRecordOutcome (Num (session_id s)) completed_error_ui
        (gs_error_only "Failed to send offer message")
  end.

Definition runDirectChallenge (l : loc) : prog unit :=
  s <- deref l ;;
  sentMessage <- safeSendMessage (chat_id s) TxtDirectChallenge ;;
  match sentMessage with
  | Some message_id =>
      do_ (Assign l (set_game_state (gs_set_helperMessageId message_id))) ;;
      h <- do_ (SetTimeout (TimeoutCb (session_id s) offer) DIRECT_CHALLENGE_ACCEPT_TIMEOUT_MS) ;;
      do_ (Assign l (set_timeoutId h)) ;;
      do_ (MapSet (session_id s) l) ;;
      s' <- deref l ;;
      await (pool_query_game_state (game_state_json s') (session_id s))
  | None =>
      finalizeAndRecordOutcome (Num (session_id s)) completed_error_ui
        (gs_error_only "Failed to send direct challenge message")
  end.

Definition runCoinflipPvB (l : loc) : prog unit :=
  do_ (Assign l (set_game_state (gs_set_status "pvb_awaiting_player_choice"))) ;;
  s <- deref l ;;
  do_ (MapSet (session_id s) l) ;;
  await (bot_editMessageText (chat_id s) (helperMessageId (game_state_json s)) TxtPvBPrompt) ;;
  h <- do_ (SetTimeout (TimeoutCb (session_id s) player_turn) ACTIVE_GAME_TURN_TIMEOUT_MS) ;;
  do_ (Assign l (set_timeoutId h)).

Definition runCoinflipPvP (l : loc) : prog unit :=
  p1IsCaller <- do_ MathRandomBelowHalf ;;
  s <- deref l ;;
  let caller_id := if p1IsCaller : bool then initiator_id s else opponent_id s in
  do_ (Assign l (set_game_state (gs_set_callerId caller_id))) ;;
  await (bot_editMessageText (chat_id s) (helperMessageId (game_state_json s))
           (TxtPvPPrompt caller_id)) ;;
  h <- do_ (SetTimeout (TimeoutCb (session_id s) caller_turn) ACTIVE_GAME_TURN_TIMEOUT_MS) ;;
  do_ (Assign l (set_timeoutId h)).

Definition runCoinflipAnimationAndFinalize : loc -> option string -> bool -> prog unit :=
  animate_and_finalize COIN_FLIP_ANIMATION_STEPS.

Definition timeout_status (s : session) (ctx : context) : status :=
  match ctx with
  | offer => completed_timeout
  | player_turn => completed_bot_win
  | caller_turn =>
      if String.eqb (String_ (callerId (game_state_json s))) (String_ (initiator_id s))
      then completed_p2_win else completed_p1_win
  end.

Definition timeout_text (ctx : context) : ui_text :=
  match ctx with
  | offer => TxtOfferExpired
  | player_turn => TxtPlayerTimedOutBotWins
  | caller_turn => TxtCallerTimedOut
  end.

Definition handleGameTimeout (sessionId : Z) (ctx : context) : prog unit :=
  found <- do_ (MapGet (Num sessionId)) ;;
  match found with
  | None => Ret tt
  | Some l =>
      clear_session_timeout l ;;
      s <- deref l ;;
      let finalStatus := timeout_status s ctx in
      await (bot_editMessageText (chat_id s) (helperMessageId (game_state_json s))
               (timeout_text ctx)) ;;
      s' <- deref l ;;
      finalizeAndRecordOutcome (Num sessionId) finalStatus (game_state_json s')
  end.

(** The [catch] block of [handleNewGameSession]; [client] tells whether
    [pool.connect()] had resolved.  The session is looked up under
    [mainBotGameId]. *)
Definition handleNewGameSession_catch (mainBotGameId : gid) (client : bool)
    (e : exn) : prog unit :=
  (if client then await client_query_ROLLBACK else Ret tt) ;;
  do_ (ConsoleLog (LogHandleNewError mainBotGameId)) ;;
  sessionFromMap <- do_ (MapGet (gid_key mainBotGameId)) ;;
  match sessionFromMap with
  | Some l =>
      s <- deref l ;;
      finalizeAndRecordOutcome (Num (session_id s)) completed_error
        (gs_error_only (exn_message e))
  | None => Ret tt
  end.

Definition handleNewGameSession_try (mainBotGameId : gid) : prog unit :=
  await client_query_BEGIN ;;
  rows <- await (client_query_claim mainBotGameId) ;;
  match rows with
  | nil => await client_query_ROLLBACK        (* rowCount === 0: return *)
  | r :: _ =>
      await client_query_COMMIT ;;
      l <- do_ (NewObject (session_of_row r)) ;;
      do_ (MapSet (r_session_id r) l) ;;
      if truthy (r_opponent_id r) then runDirectChallenge l else runUnifiedOffer l
  end.

Definition handleNewGameSession (mainBotGameId : gid) : prog unit :=
  connected <- Vis (Io pool_connect) Ret ;;
  match connected with
  | inl _ =>
      finally
        (try_catch (handleNewGameSession_try mainBotGameId)
                   (handleNewGameSession_catch mainBotGameId true))
        (do_ ClientRelease)
  | inr e =>
      finally (handleNewGameSession_catch mainBotGameId false e) (Ret tt)
  end.

(** The [switch (action)] of the listener, entered with the session found. *)
Definition dispatch (cq : callback_query) (l : loc) (s : session) : prog unit :=
  let action := cq_action cq in
  let sessionId := cq_sessionId cq in
  let params := cq_params cq in
  if String.eqb action "cf_helper_cancel" then
    if String.eqb (clickerId cq) (String_ (initiator_id s)) then
      await (bot_answerCallbackQuery (cq_id cq) (Some "Offer withdrawn.") false) ;;
      s1 <- deref l ;;
      await (bot_editMessageText (chat_id s1) (helperMessageId (game_state_json s1))
               TxtOfferWithdrawn) ;;
      s2 <- deref l ;;
      finalizeAndRecordOutcome sessionId completed_cancelled (game_state_json s2)
    else deny cq "Only the initiator can cancel."
  else if String.eqb action "cf_helper_accept_bot" then
    if String.eqb (clickerId cq) (String_ (initiator_id s)) then
      await (bot_answerCallbackQuery (cq_id cq) None false) ;;
      runCoinflipPvB l
    else deny cq "Only the initiator can play vs the Bot."
  else if String.eqb action "cf_helper_accept_pvp" then
    if negb (String.eqb (clickerId cq) (String_ (initiator_id s))) then
      do_ (Assign l (set_opponent_id (Id (clickerId cq)))) ;;
      do_ (Assign l (set_game_state
                       (gs_set_opponentName
                          (getPlayerDisplayReference (Some (cq_from cq)))))) ;;
      await (bot_answerCallbackQuery (cq_id cq) None false) ;;
      runCoinflipPvP l
    else deny cq "You can't accept your own challenge."
  else if String.eqb action "cf_helper_accept_direct" then
    if String.eqb (clickerId cq) (String_ (opponent_id s)) then
      await (bot_answerCallbackQuery (cq_id cq) None false) ;;
      runCoinflipPvP l
    else deny cq "This challenge is not for you."
  else if String.eqb action "cf_helper_decline_direct" then
    if String.eqb (clickerId cq) (String_ (opponent_id s)) then
      await (bot_answerCallbackQuery (cq_id cq) None false) ;;
      s1 <- deref l ;;
      await (bot_editMessageText (chat_id s1) (helperMessageId (game_state_json s1))
               TxtDeclined) ;;
      s2 <- deref l ;;
      finalizeAndRecordOutcome sessionId completed_cancelled (game_state_json s2)
    else deny cq "This challenge is not for you."
  else if String.eqb action "cf_helper_pvb_choice" then
    if String.eqb (clickerId cq) (String_ (initiator_id s)) then
      await (bot_answerCallbackQuery (cq_id cq) None false) ;;
      runCoinflipAnimationAndFinalize l (nth_error params 0) false
    else Ret tt
  else if String.eqb action "cf_helper_pvp_choice" then
    if String.eqb (clickerId cq) (String_opt (nth_error params 0)) then
      await (bot_answerCallbackQuery (cq_id cq) None false) ;;
      do_ (Assign l (set_game_state
                       (gs_set_callerName
                          (getPlayerDisplayReference (Some (cq_from cq)))))) ;;
      runCoinflipAnimationAndFinalize l (nth_error params 1) true
    else deny cq "It's not your turn to call."
  else Ret tt.

(** [bot.on('callback_query', ...)] *)
Definition on_callback_query (cq : callback_query) : prog unit :=
  found <- do_ (MapGet (cq_sessionId cq)) ;;
  match found with
  | None => no_longer_active cq
  | Some l =>
      clear_session_timeout l ;;
      s <- deref l ;;
      dispatch cq l s
  end.

End V4.

(** ** The helper, draft of [coinflip_helper.js] *)

Module Base.

Section Helper.

(** [getRawPlayerDisplayReference] is called by the draft and defined
    nowhere in it: the call gives a name or throws. *)
Variable getRawPlayerDisplayReference : user -> string + exn.

Definition raw_name (u : user) : prog string :=
  match getRawPlayerDisplayReference u with
  | inl n => Ret n
  | inr e => Throw e
  end.

Definition runUnifiedOffer (l : loc) : prog unit :=
  s <- deref l ;;
  sentMessage <- safeSendMessage (chat_id s) TxtUnifiedOffer ;;
  match sentMessage with
  | Some message_id =>
      do_ (Assign l (set_game_state (gs_set_helperMessageId message_id))) ;;
      h <- do_ (SetTimeout (TimeoutCb (session_id s) offer) UNIFIED_OFFER_TIMEOUT_MS) ;;
      do_ (Assign l (set_timeoutId h)) ;;
      s' <- deref l ;;
      await (pool_query_game_state (game_state_json s') (session_id s)) ;;
      do_ (MapSet (session_id s) l)
  | None =>
      finalizeAndRecordOutcome (Num (session_id s)) completed_error_ui
        (gs_error_only "Failed to send offer message")
  end.

Definition runDirectChallenge (l : loc) : prog unit :=
  s <- deref l ;;
  sentMessage <- safeSendMessage (chat_id s) TxtDirectChallenge ;;
  match sentMessage with
  | Some message_id =>
      do_ (Assign l (set_game_state (gs_set_helperMessageId message_id))) ;;
      h <- do_ (SetTimeout (TimeoutCb (session_id s) offer) DIRECT_CHALLENGE_ACCEPT_TIMEOUT_MS) ;;
      do_ (Assign l (set_timeoutId h)) ;;
      s' <- deref l ;;
      await (pool_query_game_state (game_state_json s') (session_id s)) ;;
      do_ (MapSet (session_id s) l)
  | None =>
      finalizeAndRecordOutcome (Num (session_id s)) completed_error_ui
        (gs_error_only "Failed to send direct challenge message")
  end.

Definition runCoinflipPvB (l : loc) : prog unit :=
  s <- deref l ;;
  await (bot_editMessageText (chat_id s) (helperMessageId (game_state_json s)) TxtPvBPrompt) ;;
  h <- do_ (SetTimeout (TimeoutCb (session_id s) player_turn) ACTIVE_GAME_TURN_TIMEOUT_MS) ;;
  do_ (Assign l (set_timeoutId h)) ;;
  do_ (MapSet (session_id s) l).

Definition runCoinflipPvP (l : loc) : prog unit :=
  p1IsCaller <- do_ MathRandomBelowHalf ;;
  s <- deref l ;;
  let caller_id := if p1IsCaller : bool then initiator_id s else opponent_id s in
  do_ (Assign l (set_game_state (gs_set_callerId caller_id))) ;;
  await (bot_editMessageText (chat_id s) (helperMessageId (game_state_json s))
           (TxtPvPPrompt caller_id)) ;;
  h <- do_ (SetTimeout (TimeoutCb (session_id s) caller_turn) ACTIVE_GAME_TURN_TIMEOUT_MS) ;;
  do_ (Assign l (set_timeoutId h)) ;;
  do_ (MapSet (session_id s) l).

Definition runCoinflipAnimation : loc -> option string -> bool -> prog unit :=
  animate_and_finalize 8.

Definition handleOfferTimeout (sessionId : Z) : prog unit :=
  found <- do_ (MapGet (Num sessionId)) ;;
  match found with
  | None => Ret tt
  | Some l =>
      s <- deref l ;;
      if bool_decide (session_status s = in_progress) then
        await (bot_editMessageText (chat_id s) (helperMessageId (game_state_json s))
                 TxtOfferExpired) ;;
        s' <- deref l ;;
        finalizeAndRecordOutcome (Num sessionId) completed_timeout (game_state_json s')
      else Ret tt
  end.

(** [turnType === 'caller_turn'] or, in the [else], the player against the bot. *)
Definition timeout_status (s : session) (turnType : context) : status :=
  match turnType with
  | caller_turn =>
      if String.eqb (String_ (callerId (game_state_json s))) (String_ (initiator_id s))
      then completed_p2_win else completed_p1_win
  | _ => completed_bot_win
  end.

Definition handleGameTimeout (sessionId : Z) (turnType : context) : prog unit :=
  found <- do_ (MapGet (Num sessionId)) ;;
  match found with
  | None => Ret tt
  | Some l =>
      s <- deref l ;;
      if bool_decide (session_status s = in_progress) then
        let finalStatus := timeout_status s turnType in
        await (bot_editMessageText (chat_id s) (helperMessageId (game_state_json s))
                 TxtPlayerTimedOut) ;;
        s' <- deref l ;;
        finalizeAndRecordOutcome (Num sessionId) finalStatus (game_state_json s')
      else Ret tt
  end.

Definition dispatch (cq : callback_query) (l : loc) (s : session) : prog unit :=
  let action := cq_action cq in
  let sessionId := cq_sessionId cq in
  let params := cq_params cq in
  if String.eqb action "cf_helper_cancel" then
    if String.eqb (clickerId cq) (String_ (initiator_id s)) then
      await (bot_answerCallbackQuery (cq_id cq) (Some "Offer cancelled.") false) ;;
      s1 <- deref l ;;
      try_catch (await (bot_deleteMessage (chat_id s1) (helperMessageId (game_state_json s1))))
                (fun _ => Ret tt) ;;
      s2 <- deref l ;;
      finalizeAndRecordOutcome sessionId completed_cancelled (game_state_json s2)
    else deny cq "Only the initiator can cancel."
  else if String.eqb action "cf_helper_accept_bot" then
    if String.eqb (clickerId cq) (String_ (initiator_id s)) then
      runCoinflipPvB l
    else deny cq "Only the initiator can play vs the Bot."
  else if String.eqb action "cf_helper_accept_pvp" then
    if negb (String.eqb (clickerId cq) (String_ (initiator_id s))) then
      do_ (Assign l (set_opponent_id (Id (clickerId cq)))) ;;
      n <- raw_name (cq_from cq) ;;
      do_ (Assign l (set_game_state (gs_set_opponentName n))) ;;
      runCoinflipPvP l
    else deny cq "You can't accept your own challenge."
  else if String.eqb action "cf_helper_pvb_choice" then
    if String.eqb (clickerId cq) (String_ (initiator_id s)) then
      runCoinflipAnimation l (nth_error params 0) false
    else Ret tt
  else if String.eqb action "cf_helper_pvp_choice" then
    if String.eqb (clickerId cq) (String_opt (nth_error params 0)) then
      n <- raw_name (cq_from cq) ;;
      do_ (Assign l (set_game_state (gs_set_callerName n))) ;;
      runCoinflipAnimation l (nth_error params 1) true
    else deny cq "It's not your turn to call."
  else Ret tt.

Definition on_callback_query (cq : callback_query) : prog unit :=
  found <- do_ (MapGet (cq_sessionId cq)) ;;
  match found with
  | None => no_longer_active cq
  | Some l =>
      clear_session_timeout l ;;
      s <- deref l ;;
      dispatch cq l s
  end.

End Helper.

End Base.

(** ** Events *)

(** What the event loop delivers: a pickup notification, a callback query,
    or the expiry of a timer. *)
Inductive event : Type :=
| Pickup (g : gid)
| Callback (cq : callback_query)
| TimerFires (h : timer_handle).

Module V4Loop.

(** The handler the event starts, if any, and the world it starts in: the
    notification listener calls [handleNewGameSession] for a truthy id; an
    expiring timer leaves the armed ones, and a cleared one has no effect. *)
Definition start (ev : event) (w : world) : option (prog unit * world) :=
  match ev with
  | Pickup g =>
      if gid_truthy g then Some (V4.handleNewGameSession g, w) else None
  | Callback cq => Some (V4.on_callback_query cq, w)
  | TimerFires h =>
      match timers w !! h with
      | Some (TimeoutCb sid ctx) =>
          Some (V4.handleGameTimeout sid ctx, set_timers (delete h (timers w)) w)
      | None => None
      end
  end.

(** One handler at a time: each runs to completion before the next event. *)
Definition handle (ev : event) (w : world) : world :=
  match start ev w with
  | Some (p, w') => snd (run p w')
  | None => w
  end.

Definition serial (evs : list event) (w : world) : world :=
  fold_left (fun w ev => handle ev w) evs w.

(** Handlers interleaved at their awaits: the world, and the handlers that
    are suspended on a call (or have ended). *)
Record sys : Type := Sys {
  sys_world : world;
  tasks : list (prog unit)
}.

Inductive schedule : Type :=
| Deliver (ev : event)      (* the handler starts and runs to its first await *)
| Resume (i : nat).         (* the call task [i] waits for ends: it runs on *)

Definition sched (c : schedule) (s : sys) : sys :=
  match c with
  | Deliver ev =>
      match start ev (sys_world s) with
      | Some (p, w) =>
          let '(p', w') := advance p w in Sys w' (tasks s ++ [p'])
      | None => s
      end
  | Resume i =>
      match tasks s !! i with
      | Some p =>
          let '(p', w') := advance p (sys_world s) in Sys w' (<[i := p']> (tasks s))
      | None => s
      end
  end.

Definition interleaved (cs : list schedule) (w : world) : sys :=
  fold_left (fun s c => sched c s) cs (Sys w nil).

End V4Loop.

Module BaseLoop.

Section Helper.

Variable getRawPlayerDisplayReference : user -> string + exn.

(** The same for [coinflip_helper.js].  Its notification listener calls
    [handleNewGameSession], which the file does not define: the call throws
    inside the listener's [try] and no handler starts.  The timer of an
    offer calls [handleOfferTimeout]. *)
Definition start (ev : event) (w : world) : option (prog unit * world) :=
  match ev with
  | Pickup _ => None
  | Callback cq => Some (Base.on_callback_query getRawPlayerDisplayReference cq, w)
  | TimerFires h =>
      match timers w !! h with
      | Some (TimeoutCb sid offer) =>
          Some (Base.handleOfferTimeout sid, set_timers (delete h (timers w)) w)
      | Some (TimeoutCb sid ctx) =>
          Some (Base.handleGameTimeout sid ctx, set_timers (delete h (timers w)) w)
      | None => None
      end
  end.

Definition handle (ev : event) (w : world) : world :=
  match start ev w with
  | Some (p, w') => snd (run p w')
  | None => w
  end.

Definition serial (evs : list event) (w : world) : world :=
  fold_left (fun w ev => handle ev w) evs w.

End Helper.

End BaseLoop.

(** The ids the final updates were written for, in order. *)
Definition persisted_ids (w : world) : list Z := map (fun e => fst (fst e)) (persisted w).
Definition persisted_statuses (sid : Z) (w : world) : list status :=
  map (fun e => snd (fst e)) (List.filter (fun e => Z.eqb (fst (fst e)) sid) (persisted w)).

(** ** Vocabulary of the statements *)

(** The session [s] is registered under [sid], through the reference [l]. *)
Definition live (w : world) (sid : Z) (l : loc) (s : session) : Prop :=
  activeHelperGames w !! sid = Some l /\ heap w !! l = Some s.

(** The worlds of a finalize whose update ran, and of one whose update was
    rejected. *)
Definition finalized (sid : Z) (st : status) (gs : game_state) (w : world) : world :=
  set_activeHelperGames (delete sid (activeHelperGames w))
    (set_persisted (persisted w ++ [(sid, st, gs)])
       (set_store (sql_finalize st gs sid (store w))
          (set_fates (tl (fates w))
             (set_console (console w ++ [LogFinalizing (Num sid) st]) w)))).

Definition finalize_failed (sid : Z) (st : status) (w : world) : world :=
  set_console (console w ++ [LogFinalizing (Num sid) st; LogCriticalFinalize (Num sid)])
    (set_fates (tl (fates w)) w).


(** The world once [clearTimeout(session.timeoutId)] has run. *)
Definition cleared (s : session) (w : world) : world :=
  match timeoutId s with
  | Some h => set_timers (delete h (timers w)) w
  | None => w
  end.

(** The sessions, the registry and the durable side agree in both worlds. *)
Definition same_sessions (w w' : world) : Prop :=
  heap w' = heap w /\ activeHelperGames w' = activeHelperGames w /\
  store w' = store w /\ txn w' = txn w /\ persisted w' = persisted w.

(** ... and so do the timers. *)
Definition same_state (w w' : world) : Prop :=
  same_sessions w w' /\ timers w' = timers w /\ next_timer w' = next_timer w.

Definition alice : user := User "100" (Some "alice") None true "undefined".
Definition bob : user := User "200" None (Some "Bob") true "undefined".
Definition carol : user := User "300" None None true "undefined".
Definition click (u : user) (data : string) : callback_query := CallbackQuery "q" data u.

(** The world once a presenter call has been issued, and how the call ends
    for the handler. *)
Definition said (c : presenter_call) (w : world) : world :=
  set_outbox (outbox w ++ [(c, hd Good (fates w))]) (set_fates (tl (fates w)) w).

Definition telegram_result (f : fate) : unit + exn :=
  match f with
  | Good => inl tt
  | NotModified => inr (TelegramError true)
  | Bad => inr (TelegramError false)
  end.

(** The status a timeout is to leave, as the specification words it: the
    bot wins the player's turn; in the caller's turn the player who is not
    the caller wins. *)
Definition forfeit_status (s : session) (ctx : context) (st : status) : Prop :=
  (ctx = player_turn /\ st = completed_bot_win) \/
  (ctx = caller_turn /\
   String_ (callerId (game_state_json s)) = String_ (initiator_id s) /\
   st = completed_p2_win) \/
  (ctx = caller_turn /\
   String_ (callerId (game_state_json s)) <> String_ (initiator_id s) /\
   st = completed_p1_win).

(** An action the listener turns down, with the text it answers: the
    clicker is not the identity the action's guard names.  For the call of
    a player-versus-player game the guard names the third field of the
    callback data. *)
Inductive unauthorized (cq : callback_query) (s : session) : string -> Prop :=
| un_cancel :
    cq_action cq = "cf_helper_cancel" ->
    clickerId cq <> String_ (initiator_id s) ->
    unauthorized cq s "Only the initiator can cancel."
| un_accept_bot :
    cq_action cq = "cf_helper_accept_bot" ->
    clickerId cq <> String_ (initiator_id s) ->
    unauthorized cq s "Only the initiator can play vs the Bot."
| un_accept_pvp :
    cq_action cq = "cf_helper_accept_pvp" ->
    clickerId cq = String_ (initiator_id s) ->
    unauthorized cq s "You can't accept your own challenge."
| un_accept_direct :
    cq_action cq = "cf_helper_accept_direct" ->
    clickerId cq <> String_ (opponent_id s) ->
    unauthorized cq s "This challenge is not for you."
| un_decline_direct :
    cq_action cq = "cf_helper_decline_direct" ->
    clickerId cq <> String_ (opponent_id s) ->
    unauthorized cq s "This challenge is not for you."
| un_pvp_choice :
    cq_action cq = "cf_helper_pvp_choice" ->
    clickerId cq <> String_opt (nth_error (cq_params cq) 0) ->
    unauthorized cq s "It's not your turn to call.".

(** The actions only the draft "v4" knows. *)
Definition direct_action (cq : callback_query) : Prop :=
  cq_action cq = "cf_helper_accept_direct" \/ cq_action cq = "cf_helper_decline_direct".

(** An action name no [case] of the listener's [switch] matches. *)
Definition unknown_action (cq : callback_query) : Prop :=
  cq_action cq <> "cf_helper_cancel" /\
  cq_action cq <> "cf_helper_accept_bot" /\
  cq_action cq <> "cf_helper_accept_pvp" /\
  cq_action cq <> "cf_helper_accept_direct" /\
  cq_action cq <> "cf_helper_decline_direct" /\
  cq_action cq <> "cf_helper_pvb_choice" /\
  cq_action cq <> "cf_helper_pvp_choice".

(** The answer to a click on a game that is not registered. *)
Definition no_longer_active_answer (cq : callback_query) : presenter_call :=
  AnswerCallbackQuery (cq_id cq) (Some "This game is no longer active.") true.

Definition denial_answer (cq : callback_query) (text : string) : presenter_call :=
  AnswerCallbackQuery (cq_id cq) (Some text) true.

(** A click on the heads-or-tails buttons of a game against the bot by
    somebody else than the initiator. *)
Definition pvb_choice_by_other (cq : callback_query) (s : session) : Prop :=
  cq_action cq = "cf_helper_pvb_choice" /\ clickerId cq <> String_ (initiator_id s).

(** Callback data that names no registered session, or no known action. *)
Definition unmatched (cq : callback_query) (w : world) : Prop :=
  cq_sessionId cq = NaN \/ map_get (cq_sessionId cq) w = None \/ unknown_action cq.

(** The same for the listener of [coinflip_helper.js], whose [switch] has
    no [case] for the two direct-challenge actions either. *)
Definition Base_unknown_action (cq : callback_query) : Prop :=
  unknown_action cq \/ direct_action cq.

Definition Base_unmatched (cq : callback_query) (w : world) : Prop :=
  cq_sessionId cq = NaN \/ map_get (cq_sessionId cq) w = None \/ Base_unknown_action cq.

(** The world after the animation loop: each frame is one edit, and an
    edit rejected with anything but "message is not modified" ends it. *)
Fixpoint loop_world (s : session) (choice : string) (i n : nat) (w : world) : world :=
  match n with
  | O => w
  | S n' =>
      let w1 := said (EditMessageText (chat_id s) (helperMessageId (game_state_json s))
                        (TxtFlipping (i mod COIN_FLIP_ANIMATION_FRAMES_length) choice)) w in
      match hd Good (fates w) with
      | Bad => w1
      | _ => loop_world s choice (S i) n' w1
      end
  end.

(** The player of a player-versus-player game who is not the caller. *)
Definition other_player (s : session) : jsid :=
  if String.eqb (String_ (callerId (game_state_json s))) (String_ (initiator_id s))
  then opponent_id s else initiator_id s.

(** The winner and the status a resolved game is to leave, as the
    specification words it. *)
Definition resolves (s : session) (choice landed : string) (isPvP : bool)
    (winnerId : jsid) (st : status) : Prop :=
  if isPvP then
    (choice = landed -> winnerId = callerId (game_state_json s)) /\
    (choice <> landed -> winnerId = other_player s) /\
    (String_ winnerId = String_ (initiator_id s) -> st = completed_p1_win) /\
    (String_ winnerId <> String_ (initiator_id s) -> st = completed_p2_win)
  else
    (choice = landed -> winnerId = initiator_id s /\ st = completed_p1_win) /\
    (choice <> landed -> winnerId = Id "bot" /\ st = completed_bot_win).

(** Every awaited call still to come goes through. *)
Definition all_good (fs : list fate) : Prop := Forall (fun f => f = Good) fs.

(** ** Properties of every effect of a program *)

(** [P] holds of every effect the program can reach, whatever the effects
    before it returned. *)
Fixpoint always {A : Type} (P : forall X : Type, eff X -> Prop) (p : prog A) : Prop :=
  match p with
  | Ret _ | Throw _ => True
  | Vis e k => P _ e /\ forall x, always P (k x)
  end.

(** The effect keeps the world inside [I]. *)
Definition preserves (I : world -> Prop) (X : Type) (e : eff X) : Prop :=
  forall w, I w -> I (snd (perform e w)).

(** The effect is no assignment that changes [opponent_id]. *)
Definition keeps_opponent (X : Type) (e : eff X) : Prop :=
  match e with
  | Assign _ f => forall s, opponent_id (f s) = opponent_id s
  | _ => True
  end.

(** The object at [l] has opponent [v]. *)
Definition opponent_is (l : loc) (v : jsid) (w : world) : Prop :=
  exists s, heap w !! l = Some s /\ opponent_id s = v.

(** The guard of [cf_helper_accept_pvp] lets the click through. *)
Definition accepts_pvp (cq : callback_query) (s : session) : bool :=
  String.eqb (cq_action cq) "cf_helper_accept_pvp" &&
  negb (String.eqb (clickerId cq) (String_ (initiator_id s))).

(** ** Triples *)

(** Run from a world in [P], the program ends, with its result, in [Q]. *)
Definition hoare {A : Type} (P : world -> Prop) (p : prog A)
    (Q : A + exn -> world -> Prop) : Prop :=
  forall w, P w -> Q (fst (run p w)) (snd (run p w)).

(** ** The pickup that claims nothing *)

(** Everything but the console and the tape of fates is as in [w0]; a
    transaction may be open on the table of [w0]. *)
Definition untouched (w0 w : world) : Prop :=
  heap w = heap w0 /\ activeHelperGames w = activeHelperGames w0 /\
  timers w = timers w0 /\ next_timer w = next_timer w0 /\
  persisted w = persisted w0 /\ outbox w = outbox w0 /\ store w = store w0 /\
  (txn w = None \/ txn w = Some (store w0)).

(** No row is pending under the external game id [g]. *)
Definition nothing_pending (g : gid) (t : list row) : Prop :=
  Forall (fun r => claim_matches g r = false) t.

(** Alice's offer as the main bot stored it, before any pickup. *)
Definition fresh_gs : game_state :=
  GameState (Some "alice") None None Undefined None Undefined None None.

Definition fresh_row : row :=
  Row 7 (GStr "G42") 555 (Id "100") Null 1000000000 pending_pickup fresh_gs Null.

Definition pickup_world (fs : list fate) : world :=
  World [] ∅ ∅ 0 [fresh_row] None [] [] 9000 [] fs [] "helper".

(** The same with an external game id that is a number, 99, and a second
    game, session 99, already in play. *)
Definition fresh_row_99 : row :=
  Row 7 (GNum 99) 555 (Id "100") Null 1000000000 pending_pickup fresh_gs Null.

Definition other_session : session :=
  Session 99 (GStr "G1") 444 (Id "800") (Id "900") 5 in_progress
          (GameState (Some "dan") (Some "eve") (Some 8000%Z) (Id "800") None Undefined None None)
          (Id "helper") (Some 0).

Definition other_row : row :=
  Row 99 (GStr "G1") 444 (Id "800") (Id "900") 5 in_progress
      (GameState (Some "dan") (Some "eve") (Some 8000%Z) (Id "800") None Undefined None None)
      (Id "helper").

Definition pickup_world_99 (fs : list fate) : world :=
  World [other_session] {[ 99%Z := 0 ]} {[ 0 := TimeoutCb 99 caller_turn ]} 1
        [other_row; fresh_row_99] None [] [] 9000 [] fs [] "helper".

(** ** The invariant of the serial loop *)

(** No row of a session whose final update was written is pending. *)
Definition clean (ids : list Z) (t : list row) : Prop :=
  Forall (fun r => r_session_id r ∈ ids -> r_status r <> pending_pickup) t.

Record Inv (w : world) : Prop := MkInv {
  (* a session whose final update was written is out of the registry *)
  inv_gone : forall sid, sid ∈ persisted_ids w -> activeHelperGames w !! sid = None;
  (* no session has two final updates *)
  inv_once : NoDup (persisted_ids w);
  inv_store : clean (persisted_ids w) (store w);
  inv_txn : forall t, txn w = Some t -> clean (persisted_ids w) t;
  (* the registry maps an id to an object with that id *)
  inv_reg : forall k l, activeHelperGames w !! k = Some l ->
            exists s, heap w !! l = Some s /\ session_id s = k;
  inv_terminal : Forall (fun e => terminal (snd (fst e)) = true) (persisted w)
}.

(** The registry maps an id to an object with that id. *)
Definition registry_ok (w : world) : Prop :=
  forall k l, activeHelperGames w !! k = Some l ->
  exists s, heap w !! l = Some s /\ session_id s = k.

(** No session has more than one final update in the log, every status in
    the log is terminal, and a session in the log is out of the registry. *)
Definition finalized_at_most_once (w : world) : Prop :=
  (forall sid, length (persisted_statuses sid w) <= 1) /\
  NoDup (persisted_ids w) /\
  Forall (fun e => terminal (snd (fst e)) = true) (persisted w) /\
  (forall sid, sid ∈ persisted_ids w -> activeHelperGames w !! sid = None).

(** Between two handlers: the invariant, and no transaction open. *)
Definition idle (w : world) : Prop := Inv w /\ txn w = None.

(** While a handler works on the registered session [sid] at [l]. *)
Definition serving (sid : Z) (l : loc) (w : world) : Prop :=
  idle w /\ activeHelperGames w !! sid = Some l.

(** The effects that keep [serving sid l]: everything but a deletion from
    the registry, an entry for another session, an assignment to
    [session_id], the claim and its [BEGIN], and the final update. *)
Definition quiet (sid : Z) (l : loc) (X : Type) (e : eff X) : Prop :=
  match e with
  | MapSet k l' => k = sid /\ l' = l
  | MapDelete _ => False
  | Assign _ f => forall s, session_id (f s) = session_id s
  | Io r =>
      match r with
      | client_query_BEGIN | client_query_claim _ | pool_query_finalize _ _ _ => False
      | _ => True
      end
  | _ => True
  end.

(** ** Worlds the helper reaches, and schedules of the races *)

(** Alice's offer picked up from the table: session 7 is registered and
    waits under timer 0.  [fs] says how the awaits after the pickup end. *)
Definition offered (fs : list fate) : world :=
  V4Loop.handle (Pickup (GStr "G42")) (pickup_world (repeat Good 6 ++ fs)).

(** Alice has then chosen to play the bot: the game waits for her choice
    under timer 1. *)
Definition playing (fs : list fate) : world :=
  V4Loop.handle (Callback (click alice "cf_helper_accept_bot:7"))
    (offered ([Good; Good] ++ fs)).

(** Alice has instead withdrawn her offer: session 7 is finalized and out
    of the registry. *)
Definition withdrawn : world :=
  V4Loop.handle (Callback (click alice "cf_helper_cancel:7")) (offered []).

(** The session objects of these worlds. *)
Definition offered_gs : game_state :=
  GameState (Some "alice") None (Some 9000%Z) Undefined None Undefined None None.

Definition offered_session : session :=
  Session 7 (GStr "G42") 555 (Id "100") Null 1000000000 in_progress offered_gs
          (Id "helper") (Some 0).

Definition playing_gs : game_state :=
  gs_set_status "pvb_awaiting_player_choice" offered_gs.

Definition playing_session : session :=
  Session 7 (GStr "G42") 555 (Id "100") Null 1000000000 in_progress playing_gs
          (Id "helper") (Some 1).

(** The timer fires and its handler is suspended on the edit of the
    message; Alice's click arrives and is suspended on its answer; the
    timeout handler runs to its end; the click runs to its end. *)
Definition race_timeout_and_click : list V4Loop.schedule :=
  [V4Loop.Deliver (TimerFires 1);
   V4Loop.Deliver (Callback (click alice "cf_helper_pvb_choice:7:heads"));
   V4Loop.Resume 0; V4Loop.Resume 0] ++ repeat (V4Loop.Resume 1) 19.

(** The timer of the offer fires and its handler is suspended on the edit
    of the message; Alice's click on "Challenge Bot" arrives, finds the
    session and is suspended on its answer; the timeout handler runs to its
    end, which finalizes session 7 and removes it from the registry. *)
Definition expiry_overtakes_accept : list V4Loop.schedule :=
  [V4Loop.Deliver (TimerFires 0);
   V4Loop.Deliver (Callback (click alice "cf_helper_accept_bot:7"));
   V4Loop.Resume 0; V4Loop.Resume 0].

(** ... and then the click runs to its end. *)
Definition accept_after_expiry : list V4Loop.schedule :=
  expiry_overtakes_accept ++ repeat (V4Loop.Resume 1) 3.

(** Alice clicks "heads" and, before the animation is over, "tails". *)
Definition race_two_clicks : list V4Loop.schedule :=
  [V4Loop.Deliver (Callback (click alice "cf_helper_pvb_choice:7:heads"));
   V4Loop.Deliver (Callback (click alice "cf_helper_pvb_choice:7:tails"))]
  ++ repeat (V4Loop.Resume 0) 19 ++ repeat (V4Loop.Resume 1) 19.

(** ** After the claim *)

(** No transaction is open and no row is pending under [g]. *)
Definition claimed (g : gid) (w : world) : Prop :=
  txn w = None /\ nothing_pending g (store w).

(** The effects that cannot make a row pending again: no [BEGIN], and no
    final update to [pending_pickup]. *)
Definition settled (X : Type) (e : eff X) : Prop :=
  match e with
  | Io r =>
      match r with
      | client_query_BEGIN => False
      | pool_query_finalize st _ _ => st <> pending_pickup
      | _ => True
      end
  | _ => True
  end.

(** What [handleNewGameSession] does with the row it claimed. *)
Definition set_up (r : row) : prog unit :=
  l <- do_ (NewObject (session_of_row r)) ;;
  do_ (MapSet (r_session_id r) l) ;;
  if truthy (r_opponent_id r) then V4.runDirectChallenge l else V4.runUnifiedOffer l.

(** The handler left the sessions, the registry, the timers, the table and
    the outbox as they were. *)
Definition noop (w w' : world) : Prop :=
  same_state w w' /\ outbox w' = outbox w /\
  length (heap w') = length (heap w) /\
  Forall2 (fun r r' => r_status r' = r_status r) (store w) (store w').

(** ** Text utilities and configuration *)

From Stdlib Require DecimalString DecimalPos.

(** The double quote, U+0022. *)
Definition dquote : ascii := "034"%char.

(** [s.replace(/c/g, r)] for a pattern of one character [c]. *)
Fixpoint replace_all (c : ascii) (r : string) (s : string) : string :=
  match s with
  | EmptyString => EmptyString
  | String a s' =>
      if Ascii.eqb a c then String.append r (replace_all c r s')
      else String a (replace_all c r s')
  end.

(** [escapeHTML(text)], the same text in both files.  [None] is [null] or
    [undefined]; any other value is given by its [String(...)] image.  The
    five characters are ASCII, so that replacing them in the UTF-8 bytes is
    replacing them in the text. *)
Definition escapeHTML (text : option string) : string :=
  match text with
  | None => EmptyString
  | Some s =>
      replace_all "'" "&#039;"
        (replace_all dquote "&quot;"
           (replace_all ">" "&gt;"
              (replace_all "<" "&lt;"
                 (replace_all "&" "&amp;" s))))
  end.

(** The characters [escapeHTML] replaces. *)
Definition markup (a : ascii) : bool :=
  Ascii.eqb a "&" || Ascii.eqb a "<" || Ascii.eqb a ">" || Ascii.eqb a dquote
  || Ascii.eqb a "'".

Fixpoint occurs (P : ascii -> bool) (s : string) : bool :=
  match s with
  | EmptyString => false
  | String a s' => P a || occurs P s'
  end.

(** [String(n)] of an integer: its decimal digits, after a minus sign below
    zero.  This is JavaScript's text for the integers a number holds
    exactly, up to a magnitude of 2^53; the model does not follow the
    rounding beyond it nor the exponent form from 10^21 on. *)
Definition Number_toString (n : Z) : string :=
  DecimalString.NilZero.string_of_int (Z.to_int n).

(** The [callback_data] of the buttons of each keyboard, in the order of
    the source; the same text in both files. *)
Definition runUnifiedOffer_keyboard (s : session) : list string :=
  [String.append "cf_helper_accept_bot:" (Number_toString (session_id s));
   String.append "cf_helper_accept_pvp:" (Number_toString (session_id s));
   String.append "cf_helper_cancel:" (Number_toString (session_id s))].

Definition runDirectChallenge_keyboard (s : session) : list string :=
  [String.append "cf_helper_accept_direct:" (Number_toString (session_id s));
   String.append "cf_helper_decline_direct:" (Number_toString (session_id s));
   String.append "cf_helper_cancel:" (Number_toString (session_id s))].

Definition runCoinflipPvB_keyboard (s : session) : list string :=
  [String.append "cf_helper_pvb_choice:"
     (String.append (Number_toString (session_id s))
        (String.append ":" COINFLIP_CHOICE_HEADS));
   String.append "cf_helper_pvb_choice:"
     (String.append (Number_toString (session_id s))
        (String.append ":" COINFLIP_CHOICE_TAILS))].

(** [caller_id] is [caller.id] of [runCoinflipPvP]. *)
Definition runCoinflipPvP_keyboard (s : session) (caller_id : jsid) : list string :=
  [String.append "cf_helper_pvp_choice:"
     (String.append (Number_toString (session_id s))
        (String.append ":"
           (String.append (String_ caller_id)
              (String.append ":" COINFLIP_CHOICE_HEADS))));
   String.append "cf_helper_pvp_choice:"
     (String.append (Number_toString (session_id s))
        (String.append ":"
           (String.append (String_ caller_id)
              (String.append ":" COINFLIP_CHOICE_TAILS))))].

(** The guard of [cf_helper_pvp_choice]: [clickerId === String(callerId)],
    with [callerId = params[0]]. *)
Definition pvp_choice_guard (cq : callback_query) : bool :=
  String.eqb (clickerId cq) (String_opt (nth_error (cq_params cq) 0)).

(** Truthiness of a string that may be [undefined]. *)
Definition truthy_opt (x : option string) : bool :=
  match x with
  | Some s => negb (String.eqb s "")
  | None => false
  end.

(** [parseInt(process.env.X, 10) || d] *)
Definition env_int_or (x : option string) (d : Z) : Z :=
  match parseInt x with
  | Num z => if Z.eqb z 0 then d else z
  | NaN => d
  end.

(** How the top of the module ends: [BOT_TOKEN.split(':')[0]] is evaluated
    first, then the test of the two settings. *)
Inductive startup : Type :=
| Crashes (e : exn)            (* the module throws *)
| Exits                        (* the critical message, [process.exit(1)] *)
| Configured (BOT_ID : string).

Definition configuration (BOT_TOKEN DATABASE_URL : option string) : startup :=
  match BOT_TOKEN with
  | None => Crashes TypeError        (* [split] of [undefined] *)
  | Some token =>
      let BOT_ID := hd EmptyString (split ":" token) in
      if negb (truthy_opt BOT_TOKEN) || negb (truthy_opt DATABASE_URL)
      then Exits
      else Configured BOT_ID
  end.

(** A character is a decimal digit. *)
Definition is_digit (a : ascii) : bool :=
  match digit_of a with Some _ => true | None => false end.

(** The text does not go on with a digit. *)
Definition no_digit_ahead (s : string) : Prop :=
  match s with
  | String a _ => is_digit a = false
  | EmptyString => True
  end.

(** The text is made of ASCII blanks. *)
Fixpoint blanks (s : string) : bool :=
  match s with
  | String a s' => ascii_blank (nat_of_ascii a) && blanks s'
  | EmptyString => true
  end.

(** Every [&] of the text begins one of the five entities, and no other
    character of the markup occurs in it. *)
Fixpoint well_escaped (s : string) : bool :=
  match s with
  | EmptyString => true
  | String a s' =>
      (if Ascii.eqb a "&"
       then String.prefix "amp;" s' || String.prefix "lt;" s' || String.prefix "gt;" s'
            || String.prefix "quot;" s' || String.prefix "#039;" s'
       else negb (markup a))
      && well_escaped s'
  end.

(** ** Vocabulary of the further properties *)

(** What identifies a session and its stake: the columns of the row but
    the opponent and the game state. *)
Definition same_identity (s s' : session) : Prop :=
  session_id s' = session_id s /\ main_bot_game_id s' = main_bot_game_id s /\
  chat_id s' = chat_id s /\ initiator_id s' = initiator_id s /\
  bet_amount_lamports s' = bet_amount_lamports s /\
  session_status s' = session_status s /\ helper_bot_id s' = helper_bot_id s.

(** The effect is no assignment to one of these properties. *)
Definition keeps_identity (X : Type) (e : eff X) : Prop :=
  match e with
  | Assign _ f => forall s, same_identity s (f s)
  | _ => True
  end.

(** Every session object of [w] is still there in [w'], with its identity. *)
Definition identities_kept (w w' : world) : Prop :=
  forall l s, heap w !! l = Some s ->
  exists s', heap w' !! l = Some s' /\ same_identity s s'.

(** The columns of a row the helper has no statement for. *)
Definition row_key (r : row) : Z * gid * Z * jsid * jsid * Z :=
  (r_session_id r, r_main_bot_game_id r, r_chat_id r, r_initiator_id r,
   r_opponent_id r, r_bet_amount_lamports r).

(** The table, and the table an open transaction would roll back to, hold
    the rows [ks], in this order. *)
Definition rows_kept (ks : list (Z * gid * Z * jsid * jsid * Z)) (w : world) : Prop :=
  map row_key (store w) = ks /\ forall t, txn w = Some t -> map row_key t = ks.

(** The worlds of the steps of a handler that go through: a message is
    sent, a property of a session object is assigned, a timer is armed, a
    session is registered, the game state of a row is written. *)
Definition sent (chat : Z) (t : ui_text) (w : world) : world :=
  set_next_message_id (next_message_id w + 1)%Z
    (set_outbox (outbox w ++ [(SendMessage chat t, Good)])
       (set_fates (tl (fates w)) w)).

Definition assigned (l : loc) (s : session) (w : world) : world :=
  set_heap (<[l := s]> (heap w)) w.

Definition armed (cb : timer_cb) (w : world) : world :=
  set_next_timer (S (next_timer w)) (set_timers (<[next_timer w := cb]> (timers w)) w).

Definition registered (k : Z) (l : loc) (w : world) : world :=
  set_activeHelperGames (<[k := l]> (activeHelperGames w)) w.

Definition game_state_written (gs : game_state) (sid : Z) (w : world) : world :=
  set_store (sql_game_state gs sid (store w)) (set_fates (tl (fates w)) w).

(** The world of a message that could not be sent. *)
Definition send_failed (chat : Z) (t : ui_text) (w : world) : world :=
  set_console (console w ++ [LogSendFailed chat]) (said (SendMessage chat t) w).

(** The world once a session object has been created. *)
Definition allocated (s : session) (w : world) : world :=
  set_heap (heap w ++ [s]) w.

(** The world when the claim of a pickup is committed: the rows are
    marked and four calls are over. *)
Definition claim_committed (g : gid) (w : world) : world :=
  set_fates (skipn 4 (fates w)) (set_store (fst (sql_claim (BOT_ID w) g (store w))) w).

(** The world when a call is over that changed nothing. *)
Definition call_over (w : world) : world := set_fates (tl (fates w)) w.

(** [w] is [w0] but for the console and the tape of fates ... *)
Definition rolled_back (w0 w : world) : Prop :=
  store w = store w0 /\ txn w = None /\
  heap w = heap w0 /\ activeHelperGames w = activeHelperGames w0 /\
  timers w = timers w0 /\ persisted w = persisted w0 /\ outbox w = outbox w0.

(** ... or for these and the table, with a transaction open on the table
    of [w0]. *)
Definition in_transaction (w0 w : world) : Prop :=
  txn w = Some (store w0) /\
  heap w = heap w0 /\ activeHelperGames w = activeHelperGames w0 /\
  timers w = timers w0 /\ persisted w = persisted w0 /\ outbox w = outbox w0.

(** The effect is no final update to a status that is not terminal. *)
Definition writes_terminal (X : Type) (e : eff X) : Prop :=
  match e with
  | Io r =>
      match r with
      | pool_query_finalize st _ _ => terminal st = true
      | _ => True
      end
  | _ => True
  end.

(** Every status in the log of final updates is terminal. *)
Definition all_terminal (w : world) : Prop :=
  Forall (fun e => terminal (snd (fst e)) = true) (persisted w).

(** The world once the coin has been read. *)
Definition coin_read (w : world) : world := set_coins (tl (coins w)) w.
(** * Running programs *)

Lemma run_bind {A B : Type} (p : prog A) (f : A -> prog B) (w : world) :
  run (bind p f) w =
  match run p w with
  | (inl a, w') => run (f a) w'
  | (inr e, w') => (inr e, w')
  end.
Proof.
  revert w; induction p as [a | e | X e k IH]; intros w; simpl; try reflexivity.
  destruct (perform e w) as [x w']. apply IH.
Qed.

Lemma run_try_catch {A : Type} (p : prog A) (h : exn -> prog A) (w : world) :
  run (try_catch p h) w =
  match run p w with
  | (inl a, w') => (inl a, w')
  | (inr e, w') => run (h e) w'
  end.
Proof.
  revert w; induction p as [a | e | X e k IH]; intros w; simpl; try reflexivity.
  destruct (perform e w) as [x w']. apply IH.
Qed.

Lemma run_finally {A : Type} (p : prog A) (f : prog unit) (w : world) :
  run (finally p f) w =
  match run p w with
  | (r, w') =>
      match run f w' with
      | (inl _, w'') => (r, w'')
      | (inr e, w'') => (inr e, w'')
      end
  end.
Proof.
  revert w; induction p as [a | e | X e k IH]; intros w; simpl.
  - rewrite run_bind. destruct (run f w) as [[[]|e] w']; reflexivity.
  - rewrite run_bind. destruct (run f w) as [[[]|e'] w']; reflexivity.
  - destruct (perform e w) as [x w']. apply IH.
Qed.

(** Running on after a suspension is running to completion. *)
Lemma run_advance {A : Type} (p : prog A) (w : world) :
  run (fst (advance p w)) (snd (advance p w)) = run p w.
Proof.
  revert w; induction p as [a | e | X e k IH]; intros w; simpl; try reflexivity.
  destruct (perform e w) as [x w']. destruct e; try apply IH; reflexivity.
Qed.

Lemma run_finalize (sid : Z) (st : status) (gs : game_state) (w : world) :
  run (finalizeAndRecordOutcome (Num sid) st gs) w =
  (inl tt, match hd Good (fates w) with
           | Good => finalized sid st gs w
           | _ => finalize_failed sid st w
           end).
Proof.
  destruct w as [hp reg tm nt sto tx per ob nm con fts cns bid].
  unfold finalizeAndRecordOutcome, finalized, finalize_failed.
  destruct fts as [|[ | | ] fts]; simpl; rewrite <- ?app_assoc; reflexivity.
Qed.

(** * The outcome finalizer *)

(** C5, as the code has it: when the durable update of the terminal status
    is rejected, the failure is logged as critical, nothing is written, and
    the session stays in the registry; the entry is deleted only after an
    update that ran. *)
Theorem C5_failed_persist_keeps_session (w : world) (sid : Z) (st : status)
    (gs : game_state) :
  hd Good (fates w) <> Good ->
  let w' := snd (run (finalizeAndRecordOutcome (Num sid) st gs) w) in
  activeHelperGames w' = activeHelperGames w /\
  heap w' = heap w /\ store w' = store w /\ persisted w' = persisted w /\
  console w' = console w ++ [LogFinalizing (Num sid) st; LogCriticalFinalize (Num sid)].
Proof.
  intros Hf w'. subst w'. rewrite run_finalize. simpl.
  destruct (hd Good (fates w)); [congruence | |]; repeat split; reflexivity.
Qed.

Lemma C5_failed_persist_keeps_session_witness :
  let w := offered [Bad] in
  let w' := snd (run (finalizeAndRecordOutcome (Num 7) completed_cancelled offered_gs) w) in
  hd Good (fates w) <> Good /\
  activeHelperGames w !! 7%Z = Some 0 /\
  activeHelperGames w' = activeHelperGames w /\
  heap w' = heap w /\ store w' = store w /\ persisted w' = persisted w /\
  console w' = console w ++ [LogFinalizing (Num 7) completed_cancelled;
                             LogCriticalFinalize (Num 7)].
Proof.
  assert (Hf : hd Good (fates (offered [Bad])) <> Good) by (vm_compute; discriminate).
  split; [exact Hf | split; [reflexivity|]].
  apply (@C5_failed_persist_keeps_session (offered [Bad]) 7 completed_cancelled
           offered_gs Hf).
Defined.

(** C5 as stated fails: Alice withdraws her offer, the answer and the edit
    go through and the final update is rejected.  Finalize logs the failure
    and returns with session 7 still registered (and with no timer left). *)
Lemma C5_counterexample :
  let w := offered [Good; Good; Bad] in
  let w' := V4Loop.handle (Callback (click alice "cf_helper_cancel:7")) w in
  activeHelperGames w !! 7%Z = Some 0 /\
  console w' = [LogFinalizing (Num 7) completed_cancelled; LogCriticalFinalize (Num 7)] /\
  persisted w' = [] /\
  activeHelperGames w' !! 7%Z = Some 0 /\
  timers w' = ∅.
Proof. vm_compute. repeat split; reflexivity. Qed.

(** * Small steps of the handlers *)

Lemma run_deref (l : loc) (s : session) (w : world) :
  heap w !! l = Some s -> run (deref l) w = (inl s, w).
Proof. intros H. unfold deref. simpl. rewrite H. reflexivity. Qed.

Lemma run_clear (l : loc) (s : session) (w : world) :
  heap w !! l = Some s -> run (clear_session_timeout l) w = (inl tt, cleared s w).
Proof.
  intros H. unfold clear_session_timeout, cleared.
  rewrite run_bind, (run_deref H). destruct (timeoutId s); reflexivity.
Qed.

Lemma run_presenter (c : presenter_call) (w : world) :
  presenter c w = (telegram_result (hd Good (fates w)), said c w).
Proof. unfold presenter, said. destruct (hd Good (fates w)); reflexivity. Qed.

Lemma run_answer (qid : string) (text : option string) (alert : bool) (w : world) :
  run (await (bot_answerCallbackQuery qid text alert)) w =
  (telegram_result (hd Good (fates w)), said (AnswerCallbackQuery qid text alert) w).
Proof.
  unfold await. simpl. rewrite run_presenter.
  destruct (hd Good (fates w)); reflexivity.
Qed.

Lemma run_edit (chat : Z) (mid : option Z) (t : ui_text) (w : world) :
  run (await (bot_editMessageText chat mid t)) w =
  (telegram_result (hd Good (fates w)), said (EditMessageText chat mid t) w).
Proof.
  unfold await. simpl. rewrite run_presenter.
  destruct (hd Good (fates w)); reflexivity.
Qed.

Lemma heap_cleared s w : heap (cleared s w) = heap w.
Proof. unfold cleared. destruct (timeoutId s); reflexivity. Qed.
Lemma registry_cleared s w : activeHelperGames (cleared s w) = activeHelperGames w.
Proof. unfold cleared. destruct (timeoutId s); reflexivity. Qed.
Lemma fates_cleared s w : fates (cleared s w) = fates w.
Proof. unfold cleared. destruct (timeoutId s); reflexivity. Qed.
Lemma persisted_cleared s w : persisted (cleared s w) = persisted w.
Proof. unfold cleared. destruct (timeoutId s); reflexivity. Qed.
Lemma store_cleared s w : store (cleared s w) = store w.
Proof. unfold cleared. destruct (timeoutId s); reflexivity. Qed.
Lemma txn_cleared s w : txn (cleared s w) = txn w.
Proof. unfold cleared. destruct (timeoutId s); reflexivity. Qed.
Lemma outbox_cleared s w : outbox (cleared s w) = outbox w.
Proof. unfold cleared. destruct (timeoutId s); reflexivity. Qed.
Lemma console_cleared s w : console (cleared s w) = console w.
Proof. unfold cleared. destruct (timeoutId s); reflexivity. Qed.
Lemma coins_cleared s w : coins (cleared s w) = coins w.
Proof. unfold cleared. destruct (timeoutId s); reflexivity. Qed.

Create Rewrite HintDb world.
#[global] Hint Rewrite heap_cleared registry_cleared fates_cleared persisted_cleared
  store_cleared txn_cleared outbox_cleared console_cleared coins_cleared : world.

(** * Timeouts *)

Lemma run_V4_handleGameTimeout (w : world) (sid : Z) (l : loc) (s : session)
    (ctx : context) :
  live w sid l s ->
  run (V4.handleGameTimeout sid ctx) w =
  let w1 := said (EditMessageText (chat_id s) (helperMessageId (game_state_json s))
                    (V4.timeout_text ctx)) (cleared s w) in
  match hd Good (fates w) with
  | Good => run (finalizeAndRecordOutcome (Num sid) (V4.timeout_status s ctx)
                   (game_state_json s)) w1
  | f => (telegram_result f, w1)
  end.
Proof.
  intros [Hr Hh]. unfold V4.handleGameTimeout.
  cbn [run bind do_ perform map_get]. rewrite Hr.
  rewrite run_bind, (run_clear Hh).
  assert (Hh1 : heap (cleared s w) !! l = Some s) by (rewrite heap_cleared; exact Hh).
  rewrite run_bind, (run_deref Hh1).
  rewrite run_bind, run_edit, fates_cleared.
  destruct (hd Good (fates w)); try reflexivity.
  rewrite run_bind, (run_deref (s := s)); [reflexivity|].
  unfold said; simpl. exact Hh1.
Qed.

Lemma run_Base_handleGameTimeout (w : world) (sid : Z) (l : loc) (s : session)
    (turnType : context) :
  live w sid l s ->
  session_status s = in_progress ->
  run (Base.handleGameTimeout sid turnType) w =
  let w1 := said (EditMessageText (chat_id s) (helperMessageId (game_state_json s))
                    TxtPlayerTimedOut) w in
  match hd Good (fates w) with
  | Good => run (finalizeAndRecordOutcome (Num sid) (Base.timeout_status s turnType)
                   (game_state_json s)) w1
  | f => (telegram_result f, w1)
  end.
Proof.
  intros [Hr Hh] Hst. unfold Base.handleGameTimeout.
  cbn [run bind do_ perform map_get]. rewrite Hr.
  rewrite run_bind, (run_deref Hh).
  rewrite bool_decide_eq_true_2 by exact Hst.
  rewrite run_bind, run_edit.
  destruct (hd Good (fates w)); try reflexivity.
  rewrite run_bind, (run_deref (s := s)); [reflexivity|].
  unfold said; simpl. exact Hh.
Qed.

Lemma forfeit_status_V4 (s : session) (ctx : context) (st : status) :
  forfeit_status s ctx st -> V4.timeout_status s ctx = st.
Proof.
  intros [[-> ->] | [[-> [He ->]] | [-> [He ->]]]]; simpl.
  - reflexivity.
  - apply String.eqb_eq in He. rewrite He. reflexivity.
  - apply String.eqb_neq in He. rewrite He. reflexivity.
Qed.

Lemma forfeit_status_Base (s : session) (ctx : context) (st : status) :
  forfeit_status s ctx st -> Base.timeout_status s ctx = st.
Proof.
  intros [[-> ->] | [[-> [He ->]] | [-> [He ->]]]]; simpl.
  - reflexivity.
  - apply String.eqb_eq in He. rewrite He. reflexivity.
  - apply String.eqb_neq in He. rewrite He. reflexivity.
Qed.

(** What one presenter call followed by finalize leaves in the log. *)
Lemma persisted_after_edit_finalize (c : presenter_call) (w0 w : world) (sid : Z)
    (st : status) (gs : game_state) :
  persisted w0 = persisted w -> fates w0 = fates w ->
  let w' := snd (match hd Good (fates w) with
                 | Good => run (finalizeAndRecordOutcome (Num sid) st gs) (said c w0)
                 | f => (telegram_result f, said c w0)
                 end) in
  (persisted w' = persisted w \/ persisted w' = persisted w ++ [(sid, st, gs)]) /\
  (hd Good (fates w) = Good -> hd Good (tl (fates w)) = Good ->
   persisted w' = persisted w ++ [(sid, st, gs)]).
Proof.
  intros Hp Hf w'. subst w'.
  destruct (hd Good (fates w)) eqn:E1.
  - rewrite run_finalize.
    replace (hd Good (fates (said c w0))) with (hd Good (tl (fates w)))
      by (unfold said; simpl; rewrite Hf; reflexivity).
    destruct (hd Good (tl (fates w))) eqn:E2; unfold finalized, finalize_failed, said;
      simpl; rewrite Hp; split; auto; intros; congruence.
  - unfold said; simpl. rewrite Hp. split; auto. intros; congruence.
  - unfold said; simpl. rewrite Hp. split; auto. intros; congruence.
Qed.

(** C3: a timeout in the player's turn against the bot persists the bot's
    win, and a timeout in the caller's turn persists the win of the player
    who is not the caller ([completed_p2_win] when the caller is the
    initiator, [completed_p1_win] otherwise).  Nothing else is ever written
    by the timeout handler, and the status is written whenever the
    presenter's edit and the update both go through.  Both drafts. *)
Theorem C3_timeout_loses_by_default (w : world) (sid : Z) (l : loc) (s : session)
    (ctx : context) (st : status) :
  live w sid l s ->
  forfeit_status s ctx st ->
  let entry := (sid, st, game_state_json s) in
  let v4 := snd (run (V4.handleGameTimeout sid ctx) w) in
  (persisted v4 = persisted w \/ persisted v4 = persisted w ++ [entry]) /\
  (hd Good (fates w) = Good -> hd Good (tl (fates w)) = Good ->
   persisted v4 = persisted w ++ [entry]) /\
  (session_status s = in_progress ->
   let old := snd (run (Base.handleGameTimeout sid ctx) w) in
   (persisted old = persisted w \/ persisted old = persisted w ++ [entry]) /\
   (hd Good (fates w) = Good -> hd Good (tl (fates w)) = Good ->
    persisted old = persisted w ++ [entry])).
Proof.
  intros Hl Hst entry v4. subst entry v4.
  rewrite (run_V4_handleGameTimeout ctx Hl), (forfeit_status_V4 Hst).
  split; [|split].
  - apply persisted_after_edit_finalize; autorewrite with world; reflexivity.
  - apply persisted_after_edit_finalize; autorewrite with world; reflexivity.
  - intros Hin old. subst old.
    rewrite (run_Base_handleGameTimeout ctx Hl Hin), (forfeit_status_Base Hst).
    apply persisted_after_edit_finalize; reflexivity.
Qed.

Lemma C3_timeout_loses_by_default_witness :
  let w := playing [] in
  live w 7 0 playing_session /\
  forfeit_status playing_session player_turn completed_bot_win /\
  persisted (snd (run (V4.handleGameTimeout 7 player_turn) w))
  = [(7%Z, completed_bot_win, playing_gs)] /\
  persisted (snd (run (Base.handleGameTimeout 7 player_turn) w))
  = [(7%Z, completed_bot_win, playing_gs)].
Proof.
  assert (Hl : live (playing []) 7 0 playing_session) by (split; reflexivity).
  assert (Hf : forfeit_status playing_session player_turn completed_bot_win)
    by (left; split; reflexivity).
  destruct (@C3_timeout_loses_by_default (playing []) 7 0 playing_session
              player_turn completed_bot_win Hl Hf) as (_ & H2 & H3).
  split; [exact Hl | split; [exact Hf | split]].
  - apply H2; reflexivity.
  - apply (H3 eq_refl); reflexivity.
Defined.

(** * The callback listener *)

Section Listener.

Variable raw : user -> string + exn.

Lemma run_V4_callback_absent (cq : callback_query) (w : world) :
  map_get (cq_sessionId cq) w = None ->
  run (V4.on_callback_query cq) w =
  (telegram_result (hd Good (fates w)), said (no_longer_active_answer cq) w).
Proof.
  intros H. unfold V4.on_callback_query.
  cbn [run bind do_ perform]. rewrite H. apply run_answer.
Qed.

Lemma run_Base_callback_absent (cq : callback_query) (w : world) :
  map_get (cq_sessionId cq) w = None ->
  run (Base.on_callback_query raw cq) w =
  (telegram_result (hd Good (fates w)), said (no_longer_active_answer cq) w).
Proof.
  intros H. unfold Base.on_callback_query.
  cbn [run bind do_ perform]. rewrite H. apply run_answer.
Qed.

Lemma run_V4_callback_live (cq : callback_query) (w : world) (l : loc) (s : session) :
  map_get (cq_sessionId cq) w = Some l -> heap w !! l = Some s ->
  run (V4.on_callback_query cq) w = run (V4.dispatch cq l s) (cleared s w).
Proof.
  intros H Hh. unfold V4.on_callback_query.
  cbn [run bind do_ perform]. rewrite H.
  rewrite run_bind, (run_clear Hh), run_bind, (run_deref (s := s)); [reflexivity|].
  rewrite heap_cleared. exact Hh.
Qed.

Lemma run_Base_callback_live (cq : callback_query) (w : world) (l : loc) (s : session) :
  map_get (cq_sessionId cq) w = Some l -> heap w !! l = Some s ->
  run (Base.on_callback_query raw cq) w = run (Base.dispatch raw cq l s) (cleared s w).
Proof.
  intros H Hh. unfold Base.on_callback_query.
  cbn [run bind do_ perform]. rewrite H.
  rewrite run_bind, (run_clear Hh), run_bind, (run_deref (s := s)); [reflexivity|].
  rewrite heap_cleared. exact Hh.
Qed.

Lemma run_deny (cq : callback_query) (text : string) (w : world) :
  run (deny cq text) w =
  (telegram_result (hd Good (fates w)), said (denial_answer cq text) w).
Proof. apply run_answer. Qed.

Lemma V4_dispatch_unauthorized (cq : callback_query) (l : loc) (s : session)
    (text : string) :
  unauthorized cq s text -> V4.dispatch cq l s = deny cq text.
Proof.
  intros H. unfold V4.dispatch.
  destruct H as [Ha Hc | Ha Hc | Ha Hc | Ha Hc | Ha Hc | Ha Hc]; rewrite Ha;
    cbn [String.eqb Ascii.eqb Bool.eqb];
    try (apply String.eqb_neq in Hc; rewrite Hc; reflexivity).
  rewrite Hc, String.eqb_refl. reflexivity.
Qed.

Lemma Base_dispatch_unauthorized (cq : callback_query) (l : loc) (s : session)
    (text : string) :
  unauthorized cq s text -> ~ direct_action cq -> Base.dispatch raw cq l s = deny cq text.
Proof.
  intros H Hd. unfold Base.dispatch.
  destruct H as [Ha Hc | Ha Hc | Ha Hc | Ha Hc | Ha Hc | Ha Hc];
    try (exfalso; apply Hd; unfold direct_action; tauto); rewrite Ha;
    cbn [String.eqb Ascii.eqb Bool.eqb];
    try (apply String.eqb_neq in Hc; rewrite Hc; reflexivity).
  rewrite Hc, String.eqb_refl. reflexivity.
Qed.

Lemma V4_dispatch_unknown (cq : callback_query) (l : loc) (s : session) :
  unknown_action cq -> V4.dispatch cq l s = Ret tt.
Proof.
  intros (H1 & H2 & H3 & H4 & H5 & H6 & H7). unfold V4.dispatch.
  apply String.eqb_neq in H1, H2, H3, H4, H5, H6, H7.
  rewrite H1, H2, H3, H4, H5, H6, H7. reflexivity.
Qed.

Lemma Base_dispatch_unknown (cq : callback_query) (l : loc) (s : session) :
  unknown_action cq \/ direct_action cq -> Base.dispatch raw cq l s = Ret tt.
Proof.
  unfold Base.dispatch.
  intros [(H1 & H2 & H3 & H4 & H5 & H6 & H7) | [H | H]].
  - apply String.eqb_neq in H1, H2, H3, H6, H7.
    rewrite H1, H2, H3, H6, H7. reflexivity.
  - rewrite H. reflexivity.
  - rewrite H. reflexivity.
Qed.

End Listener.

Lemma same_sessions_refl (w : world) : same_sessions w w.
Proof. repeat split. Qed.

Lemma same_sessions_said_cleared (c : presenter_call) (s : session) (w : world) :
  same_sessions w (said c (cleared s w)).
Proof.
  unfold same_sessions, said; simpl. autorewrite with world. repeat split.
Qed.

Lemma same_sessions_cleared (s : session) (w : world) : same_sessions w (cleared s w).
Proof. unfold same_sessions. autorewrite with world. repeat split. Qed.

Lemma same_state_said (c : presenter_call) (w : world) : same_state w (said c w).
Proof. repeat split. Qed.

Lemma cleared_timer_gone (s : session) (w : world) (h : timer_handle) :
  timeoutId s = Some h -> timers (cleared s w) !! h = None.
Proof. intros H. unfold cleared. rewrite H. simpl. apply lookup_delete_eq. Qed.

(** A callback for an id that is not in the registry is answered "This
    game is no longer active." and changes nothing else (no session, no
    registry entry, no timer, no row, no final update), and a timer
    callback for that id changes nothing at all.  Both drafts. *)
Lemma absent_session_is_inert (raw : user -> string + exn) (w : world) (sid : Z) :
  activeHelperGames w !! sid = None ->
  (forall cq, cq_sessionId cq = Num sid ->
     let v4 := snd (run (V4.on_callback_query cq) w) in
     let old := snd (run (Base.on_callback_query raw cq) w) in
     same_state w v4 /\ same_state w old /\
     outbox v4 = outbox w ++ [(no_longer_active_answer cq, hd Good (fates w))] /\
     outbox old = outbox w ++ [(no_longer_active_answer cq, hd Good (fates w))]) /\
  (forall ctx, run (V4.handleGameTimeout sid ctx) w = (inl tt, w)) /\
  (forall ctx, run (Base.handleGameTimeout sid ctx) w = (inl tt, w)) /\
  run (Base.handleOfferTimeout sid) w = (inl tt, w).
Proof.
  intros Hr. split; [|split; [|split]].
  - intros cq Hk v4 old. subst v4 old.
    assert (Hm : map_get (cq_sessionId cq) w = None) by (rewrite Hk; exact Hr).
    rewrite (run_V4_callback_absent Hm), (run_Base_callback_absent raw Hm).
    simpl. repeat split.
  - intros ctx. unfold V4.handleGameTimeout. cbn [run bind do_ perform map_get].
    rewrite Hr. reflexivity.
  - intros ctx. unfold Base.handleGameTimeout. cbn [run bind do_ perform map_get].
    rewrite Hr. reflexivity.
  - unfold Base.handleOfferTimeout. cbn [run bind do_ perform map_get].
    rewrite Hr. reflexivity.
Qed.

Lemma next_timer_cleared (s : session) (w : world) :
  next_timer (cleared s w) = next_timer w.
Proof. unfold cleared. destruct (timeoutId s); reflexivity. Qed.

Lemma cleared_timer_kept (s : session) (w : world) (h : timer_handle) :
  timeoutId s <> Some h -> timers (cleared s w) !! h = timers w !! h.
Proof.
  intros H. unfold cleared. destruct (timeoutId s) as [h'|]; [|reflexivity].
  simpl. apply lookup_delete_ne. congruence.
Qed.

(** C10, as the code has it: a callback whose data names no registered
    session (its second field is missing or not a number, so that it
    parses to [NaN], or is the number of no registered session) or names
    no action the listener knows changes no session object, no registry
    entry and no row and writes no final update.  When no session is found
    the clicker is answered "This game is no longer active." and the timers
    are left alone too.  When a session is found, its pending timer has
    been cleared before the action name is looked at: for an unknown
    action the listener ends there, with that timer gone, no timer armed
    and nothing answered.  The listener of [coinflip_helper.js] does not
    know the two direct-challenge actions either. *)
Theorem C10_unmatched_callback_is_inert (raw : user -> string + exn) (w : world)
    (cq : callback_query) :
  let inert := fun w' : world =>
    same_sessions w w' /\
    (map_get (cq_sessionId cq) w = None ->
     same_state w w' /\
     outbox w' = outbox w ++ [(no_longer_active_answer cq, hd Good (fates w))]) /\
    (forall l s, map_get (cq_sessionId cq) w = Some l -> heap w !! l = Some s ->
       w' = cleared s w /\
       outbox w' = outbox w /\
       next_timer w' = next_timer w /\
       (forall h, timeoutId s = Some h -> timers w' !! h = None) /\
       (forall h, timeoutId s <> Some h -> timers w' !! h = timers w !! h)) in
  (unmatched cq w -> inert (snd (run (V4.on_callback_query cq) w))) /\
  (Base_unmatched cq w -> inert (snd (run (Base.on_callback_query raw cq) w))) /\
  (cq_sessionId cq = NaN -> map_get (cq_sessionId cq) w = None).
Proof.
  intros inert.
  assert (Hnan : cq_sessionId cq = NaN -> map_get (cq_sessionId cq) w = None)
    by (intros ->; reflexivity).
  assert (Hcleared : forall l s, map_get (cq_sessionId cq) w = Some l ->
            heap w !! l = Some s -> inert (cleared s w)).
  { intros l s Hl Hs. subst inert. cbv beta.
    split; [apply same_sessions_cleared | split].
    - intros Hn. congruence.
    - intros l' s' Hl' Hs'. assert (l' = l) by congruence. subst l'.
      assert (s' = s) by congruence. subst s'.
      split_and!; [reflexivity | apply outbox_cleared | apply next_timer_cleared | |].
      + intros h Hh. apply (cleared_timer_gone w Hh).
      + intros h Hh. apply (cleared_timer_kept w Hh). }
  assert (Hsame : forall l, map_get (cq_sessionId cq) w = Some l -> heap w !! l = None ->
            inert w).
  { intros l Hl Hh. subst inert. cbv beta.
    split; [apply same_sessions_refl | split].
    - intros Hn. congruence.
    - intros l' s' Hl' Hs'. assert (l' = l) by congruence. subst l'. congruence. }
  assert (Habsent : forall w', map_get (cq_sessionId cq) w = None ->
            w' = said (no_longer_active_answer cq) w -> inert w').
  { intros w' Hm ->. subst inert. cbv beta.
    split; [apply same_state_said | split].
    - intros _. split; [apply same_state_said | reflexivity].
    - intros l s Hl. congruence. }
  split; [|split; [|exact Hnan]].
  - intros Hu. destruct (map_get (cq_sessionId cq) w) as [l|] eqn:Hm.
    + destruct Hu as [Hu | [Hu | Hu]]; [specialize (Hnan Hu); congruence | congruence |].
      destruct (heap w !! l) as [s|] eqn:Hh.
      * rewrite (run_V4_callback_live Hm Hh), (V4_dispatch_unknown l s Hu).
        apply (Hcleared l s eq_refl Hh).
      * assert (Hv4 : snd (run (V4.on_callback_query cq) w) = w).
        { unfold V4.on_callback_query, clear_session_timeout, deref.
          cbn [run bind do_ perform]. rewrite Hm. cbn [run bind do_ perform]. rewrite Hh.
          reflexivity. }
        rewrite Hv4. apply (Hsame l eq_refl Hh).
    + rewrite (run_V4_callback_absent Hm). apply Habsent; reflexivity.
  - intros Hu. destruct (map_get (cq_sessionId cq) w) as [l|] eqn:Hm.
    + destruct Hu as [Hu | [Hu | Hu]]; [specialize (Hnan Hu); congruence | congruence |].
      destruct (heap w !! l) as [s|] eqn:Hh.
      * rewrite (run_Base_callback_live raw Hm Hh), (Base_dispatch_unknown raw l s Hu).
        apply (Hcleared l s eq_refl Hh).
      * assert (Hold : snd (run (Base.on_callback_query raw cq) w) = w).
        { unfold Base.on_callback_query, clear_session_timeout, deref.
          cbn [run bind do_ perform]. rewrite Hm. cbn [run bind do_ perform]. rewrite Hh.
          reflexivity. }
        rewrite Hold. apply (Hsame l eq_refl Hh).
    + rewrite (run_Base_callback_absent raw Hm). apply Habsent; reflexivity.
Qed.

Lemma C10_unmatched_callback_is_inert_witness :
  let raw := fun _ : user => @inr string exn ReferenceError in
  let w := offered [] in
  let nobody := click bob "cf_helper_cancel:seven" in
  let unknown := click alice "cf_helper_rematch:7" in
  let direct := click alice "cf_helper_accept_direct:7" in
  (unmatched nobody w /\
   same_state w (snd (run (V4.on_callback_query nobody) w)) /\
   same_state w (snd (run (Base.on_callback_query raw nobody) w)) /\
   outbox (snd (run (V4.on_callback_query nobody) w))
   = outbox w ++ [(no_longer_active_answer nobody, Good)] /\
   outbox (snd (run (Base.on_callback_query raw nobody) w))
   = outbox w ++ [(no_longer_active_answer nobody, Good)]) /\
  (unmatched unknown w /\
   snd (run (V4.on_callback_query unknown) w) = cleared offered_session w /\
   timers (snd (run (V4.on_callback_query unknown) w)) !! 0 = None) /\
  (Base_unmatched direct w /\
   snd (run (Base.on_callback_query raw direct) w) = cleared offered_session w /\
   timers (snd (run (Base.on_callback_query raw direct) w)) !! 0 = None).
Proof.
  cbv zeta.
  assert (Hu : unmatched (click bob "cf_helper_cancel:seven") (offered []))
    by (left; reflexivity).
  assert (Hk : unmatched (click alice "cf_helper_rematch:7") (offered []))
    by (right; right; repeat split; discriminate).
  assert (Hd : Base_unmatched (click alice "cf_helper_accept_direct:7") (offered []))
    by (right; right; right; left; reflexivity).
  split; [|split].
  - destruct (@C10_unmatched_callback_is_inert (fun _ => inr ReferenceError)
                (offered []) (click bob "cf_helper_cancel:seven")) as (H1 & H2 & _).
    destruct (H1 Hu) as (_ & A & _). destruct (A eq_refl) as [A1 A2].
    destruct (H2 (or_introl eq_refl)) as (_ & B & _). destruct (B eq_refl) as [B1 B2].
    split; [exact Hu | split; [exact A1 | split; [exact B1 | split; [exact A2 | exact B2]]]].
  - destruct (@C10_unmatched_callback_is_inert (fun _ => inr ReferenceError)
                (offered []) (click alice "cf_helper_rematch:7")) as (H1 & _).
    destruct (H1 Hk) as (_ & _ & A).
    destruct (A 0 offered_session eq_refl eq_refl) as (A1 & _ & _ & A4 & _).
    split; [exact Hk | split; [exact A1 | exact (A4 0 eq_refl)]].
  - destruct (@C10_unmatched_callback_is_inert (fun _ => inr ReferenceError)
                (offered []) (click alice "cf_helper_accept_direct:7")) as (_ & H2 & _).
    destruct (H2 Hd) as (_ & _ & B).
    destruct (B 0 offered_session eq_refl eq_refl) as (B1 & _ & _ & B4 & _).
    split; [exact Hd | split; [exact B1 | exact (B4 0 eq_refl)]].
Defined.

(** C10 as stated fails for an unknown action on a registered session:
    Alice's offer waits under timer 0, the only timer; a click whose data
    names session 7 and an action the listener does not know is not
    answered and leaves no timer armed, while the session stays registered
    and still holds the handle of the timer that is gone.  In
    [coinflip_helper.js] the buttons of a direct challenge do the same. *)
Lemma C10_counterexample :
  let raw := fun _ : user => @inr string exn ReferenceError in
  let w := offered [] in
  let cq := click alice "cf_helper_rematch:7" in
  let w' := V4Loop.handle (Callback cq) w in
  let old := BaseLoop.handle raw (Callback (click alice "cf_helper_accept_direct:7")) w in
  unknown_action cq /\
  map_get (cq_sessionId cq) w = Some 0 /\
  timers w = {[ 0 := TimeoutCb 7 offer ]} /\
  timeoutId <$> heap w !! 0 = Some (Some 0) /\
  (timers w' = ∅ /\ outbox w' = outbox w /\
   activeHelperGames w' !! 7%Z = Some 0 /\ timeoutId <$> heap w' !! 0 = Some (Some 0)) /\
  (timers old = ∅ /\ outbox old = outbox w /\ activeHelperGames old !! 7%Z = Some 0).
Proof.
  cbv zeta. split; [repeat split; discriminate|].
  vm_compute. repeat split; reflexivity.
Qed.

Lemma classic_direct (cq : callback_query) : direct_action cq \/ ~ direct_action cq.
Proof.
  unfold direct_action.
  destruct (string_dec (cq_action cq) "cf_helper_accept_direct");
    destruct (string_dec (cq_action cq) "cf_helper_decline_direct"); tauto.
Qed.

(** C2, as the code has it: an action whose guard does not name the
    clicker is answered with the denial of that action; no session, no
    registry entry and no row changes and no final update is written.  The
    session's timer, cleared when the listener found the session, is not
    armed again: it is gone when the listener returns.  The guard of a
    player-versus-player call names the third field of the callback data.
    Both drafts ([coinflip_helper.js] does not know the two direct-challenge
    actions). *)
Theorem C2_unauthorized_action_denied (raw : user -> string + exn) (w : world)
    (cq : callback_query) (l : loc) (s : session) :
  map_get (cq_sessionId cq) w = Some l ->
  heap w !! l = Some s ->
  (exists text, unauthorized cq s text) \/ pvb_choice_by_other cq s ->
  let v4 := snd (run (V4.on_callback_query cq) w) in
  let old := snd (run (Base.on_callback_query raw cq) w) in
  (same_sessions w v4 /\ timers v4 = timers (cleared s w) /\
   next_timer v4 = next_timer w /\
   (forall h, timeoutId s = Some h -> timers v4 !! h = None) /\
   (forall text, unauthorized cq s text ->
      outbox v4 = outbox w ++ [(denial_answer cq text, hd Good (fates w))])) /\
  (same_sessions w old /\ timers old = timers (cleared s w) /\
   next_timer old = next_timer w /\
   (forall h, timeoutId s = Some h -> timers old !! h = None) /\
   (forall text, unauthorized cq s text -> ~ direct_action cq ->
      outbox old = outbox w ++ [(denial_answer cq text, hd Good (fates w))])).
Proof.
  intros Hm Hh Hu v4 old. subst v4 old.
  rewrite (run_V4_callback_live Hm Hh), (run_Base_callback_live raw Hm Hh).
  assert (Hnt : next_timer (cleared s w) = next_timer w)
    by (unfold cleared; destruct (timeoutId s); reflexivity).
  assert (V4any : same_sessions w (snd (run (V4.dispatch cq l s) (cleared s w))) /\
                  timers (snd (run (V4.dispatch cq l s) (cleared s w))) = timers (cleared s w) /\
                  next_timer (snd (run (V4.dispatch cq l s) (cleared s w))) = next_timer w).
  { destruct Hu as [[text Hu] | [Ha Hc]].
    - rewrite (V4_dispatch_unauthorized l Hu), run_deny.
      split; [apply same_sessions_said_cleared | split; [reflexivity | exact Hnt]].
    - unfold V4.dispatch. rewrite Ha. cbn [String.eqb Ascii.eqb Bool.eqb].
      apply String.eqb_neq in Hc. rewrite Hc.
      split; [apply same_sessions_cleared | split; [reflexivity | exact Hnt]]. }
  assert (Oldany : same_sessions w (snd (run (Base.dispatch raw cq l s) (cleared s w))) /\
                   timers (snd (run (Base.dispatch raw cq l s) (cleared s w)))
                   = timers (cleared s w) /\
                   next_timer (snd (run (Base.dispatch raw cq l s) (cleared s w)))
                   = next_timer w).
  { destruct Hu as [[text Hu] | [Ha Hc]].
    - destruct (classic_direct cq) as [Hd | Hd].
      + rewrite (Base_dispatch_unknown raw l s (or_intror Hd)).
        split; [apply same_sessions_cleared | split; [reflexivity | exact Hnt]].
      + rewrite (Base_dispatch_unauthorized raw l Hu Hd), run_deny.
        split; [apply same_sessions_said_cleared | split; [reflexivity | exact Hnt]].
    - unfold Base.dispatch. rewrite Ha. cbn [String.eqb Ascii.eqb Bool.eqb].
      apply String.eqb_neq in Hc. rewrite Hc.
      split; [apply same_sessions_cleared | split; [reflexivity | exact Hnt]]. }
  destruct V4any as (V1 & V2 & V3). destruct Oldany as (O1 & O2 & O3).
  split; split_and!; try assumption.
  - intros h Hs. rewrite V2. apply (cleared_timer_gone w Hs).
  - intros text Hu'. rewrite (V4_dispatch_unauthorized l Hu'), run_deny.
    unfold said; simpl. autorewrite with world. reflexivity.
  - intros h Hs. rewrite O2. apply (cleared_timer_gone w Hs).
  - intros text Hu' Hd. rewrite (Base_dispatch_unauthorized raw l Hu' Hd), run_deny.
    unfold said; simpl. autorewrite with world. reflexivity.
Qed.

Lemma C2_unauthorized_action_denied_witness :
  let raw := fun _ : user => @inr string exn ReferenceError in
  let w := offered [] in
  let cq := click bob "cf_helper_cancel:7" in
  let v4 := snd (run (V4.on_callback_query cq) w) in
  let old := snd (run (Base.on_callback_query raw cq) w) in
  unauthorized cq offered_session "Only the initiator can cancel." /\
  (same_sessions w v4 /\ timers v4 !! 0 = None /\
   outbox v4 = outbox w ++ [(denial_answer cq "Only the initiator can cancel.", Good)]) /\
  (same_sessions w old /\ timers old !! 0 = None /\
   outbox old = outbox w ++ [(denial_answer cq "Only the initiator can cancel.", Good)]).
Proof.
  assert (Hu : unauthorized (click bob "cf_helper_cancel:7") offered_session
                 "Only the initiator can cancel.")
    by (apply un_cancel; [reflexivity | discriminate]).
  destruct (@C2_unauthorized_action_denied (fun _ => inr ReferenceError)
              (offered []) (click bob "cf_helper_cancel:7") 0 offered_session
              eq_refl eq_refl (or_introl (ex_intro _ _ Hu)))
    as [(V1 & _ & _ & V4 & V5) (O1 & _ & _ & O4 & O5)].
  split; [exact Hu | split; split].
  - exact V1.
  - split; [apply (V4 0 eq_refl) | apply (V5 _ Hu)].
  - exact O1.
  - split; [apply (O4 0 eq_refl) | apply (O5 _ Hu)].
    unfold direct_action. intros [H | H]; discriminate H.
Defined.

(** C2 as stated fails: Bob clicks "Cancel" on Alice's offer.  He is turned
    down, and the offer's timer, armed before the click, is not armed when
    the listener returns: no timer is. *)
Lemma C2_counterexample :
  let w := offered [] in
  let cq := click bob "cf_helper_cancel:7" in
  let w' := V4Loop.handle (Callback cq) w in
  clickerId cq <> "100"%string /\
  initiator_id <$> heap w !! 0 = Some (Id "100") /\
  timers w !! 0 = Some (TimeoutCb 7 offer) /\
  last (outbox w') = Some (denial_answer cq "Only the initiator can cancel.", Good) /\
  activeHelperGames w' !! 7%Z = Some 0 /\
  timers w' = ∅.
Proof. vm_compute. repeat split; try reflexivity. discriminate. Qed.

(** * Resolution *)

Lemma loop_world_frame (s : session) (choice : string) (n i : nat) (w : world) :
  let w' := loop_world s choice i n w in
  heap w' = heap w /\ activeHelperGames w' = activeHelperGames w /\
  timers w' = timers w /\ next_timer w' = next_timer w /\
  store w' = store w /\ txn w' = txn w /\ persisted w' = persisted w /\
  coins w' = coins w /\ console w' = console w.
Proof.
  revert i w; induction n as [|n IH]; intros i w; simpl.
  - repeat split.
  - destruct (hd Good (fates w)); try apply IH; repeat split.
    all: match goal with
         | |- ?f (loop_world _ _ _ _ ?w1) = _ =>
             destruct (IH (S i) w1) as (H1 & H2 & H3 & H4 & H5 & H6 & H7 & H8 & H9)
         end; simpl in *; assumption.
Qed.

Lemma run_animation_loop (l : loc) (s : session) (choice : string) (n i : nat)
    (w : world) :
  heap w !! l = Some s ->
  run (animation_loop l choice i n) w = (inl tt, loop_world s choice i n w).
Proof.
  revert i w; induction n as [|n IH]; intros i w Hh; cbn [animation_loop loop_world].
  - reflexivity.
  - rewrite run_bind, (run_deref Hh), run_bind, run_try_catch, run_bind, run_edit.
    destruct (hd Good (fates w)); simpl.
    + apply IH. exact Hh.
    + apply IH. exact Hh.
    + reflexivity.
Qed.

Lemma run_animate (steps : nat) (l : loc) (s : session) (choice : string)
    (isPvP : bool) (w : world) :
  heap w !! l = Some s ->
  run (animate_and_finalize steps l (Some choice) isPvP) w =
  let w2 := loop_world s choice 0 steps (cleared s w) in
  let landed := landed_side (hd true (coins w)) in
  let wf := outcome s choice isPvP landed in
  let s' := set_game_state (gs_set_winner (fst wf)) s in
  let w4 := set_heap (<[l := s']> (heap w)) (set_coins (tl (coins w)) w2) in
  let w5 := said (EditMessageText (chat_id s) (helperMessageId (game_state_json s))
                    (TxtResult landed (String.eqb choice landed) (fst wf))) w4 in
  match hd Good (fates w2) with
  | Good => run (finalizeAndRecordOutcome (Num (session_id s)) (snd wf)
                   (game_state_json s')) w5
  | f => (telegram_result f, w5)
  end.
Proof.
  intros Hh. unfold animate_and_finalize.
  rewrite run_bind, (run_clear Hh).
  assert (Hh1 : heap (cleared s w) !! l = Some s) by (rewrite heap_cleared; exact Hh).
  rewrite run_bind, (run_animation_loop choice steps 0 Hh1).
  destruct (loop_world_frame s choice steps 0 (cleared s w))
    as (F1 & F2 & F3 & F4 & F5 & F6 & F7 & F8 & F9).
  set (w2 := loop_world s choice 0 steps (cleared s w)) in *.
  rewrite heap_cleared in F1. rewrite coins_cleared in F8.
  cbn [run bind do_ perform]. rewrite F8.
  rewrite run_bind, (run_deref (s := s)) by (simpl; rewrite F1; exact Hh).
  cbn [run bind do_ perform]. simpl heap. rewrite F1, Hh.
  rewrite run_bind, run_edit. simpl fates.
  destruct (hd Good (fates w2)); try reflexivity.
  rewrite run_bind, (run_deref (s := set_game_state (gs_set_winner
     (fst (outcome s choice isPvP (landed_side (hd true (coins w)))))) s)).
  - reflexivity.
  - unfold said; simpl. apply list_lookup_insert_eq. apply (lookup_lt_Some _ _ _ Hh).
Qed.




Lemma outcome_resolves (s : session) (choice landed : string) (isPvP : bool) :
  resolves s choice landed isPvP (fst (outcome s choice isPvP landed))
           (snd (outcome s choice isPvP landed)).
Proof.
  unfold resolves, outcome, other_player. destruct isPvP; cbn [fst snd].
  - destruct (String.eqb_spec choice landed) as [E | E]; split_and!; intros;
      try reflexivity; try congruence;
      match goal with
      | |- context [String.eqb ?a ?b] => destruct (String.eqb_spec a b)
      end; congruence.
  - destruct (String.eqb_spec choice landed) as [E | E]; split; intros; try congruence;
      split; reflexivity.
Qed.







(** * Effect-wise invariants *)

Lemma always_mono {A : Type} (P Q : forall X : Type, eff X -> Prop) (p : prog A) :
  (forall X (e : eff X), P X e -> Q X e) -> always P p -> always Q p.
Proof.
  intros HPQ. induction p as [a | e | X e k IH]; simpl; auto.
  intros [He Hk]. split; [apply HPQ, He | intros x; apply IH, Hk].
Qed.

Lemma always_bind {A B : Type} (P : forall X : Type, eff X -> Prop) (p : prog A)
    (f : A -> prog B) :
  always P p -> (forall a, always P (f a)) -> always P (bind p f).
Proof.
  intros Hp Hf. induction p as [a | e | X e k IH]; simpl in *; auto.
  destruct Hp as [He Hk]. split; [exact He | intros x; apply IH, Hk].
Qed.

Lemma always_try_catch {A : Type} (P : forall X : Type, eff X -> Prop) (p : prog A)
    (h : exn -> prog A) :
  always P p -> (forall e, always P (h e)) -> always P (try_catch p h).
Proof.
  intros Hp Hh. induction p as [a | e | X e k IH]; simpl in *; auto.
  destruct Hp as [He Hk]. split; [exact He | intros x; apply IH, Hk].
Qed.

Lemma always_finally {A : Type} (P : forall X : Type, eff X -> Prop) (p : prog A)
    (f : prog unit) :
  always P p -> always P f -> always P (finally p f).
Proof.
  intros Hp Hf. induction p as [a | e | X e k IH]; simpl in *.
  - apply always_bind; [exact Hf | intros; exact I].
  - apply always_bind; [exact Hf | intros; exact I].
  - destruct Hp as [He Hk]. split; [exact He | intros x; apply IH, Hk].
Qed.

Lemma always_run {A : Type} (I : world -> Prop) (p : prog A) (w : world) :
  always (preserves I) p -> I w -> I (snd (run p w)).
Proof.
  revert w. induction p as [a | e | X e k IH]; intros w Hp Hw; simpl in *; auto.
  destruct Hp as [He Hk]. specialize (He w Hw).
  destruct (perform e w) as [x w']. apply IH; [apply Hk | exact He].
Qed.

Lemma always_advance {A : Type} (I : world -> Prop) (p : prog A) (w : world) :
  always (preserves I) p -> I w ->
  always (preserves I) (fst (advance p w)) /\ I (snd (advance p w)).
Proof.
  revert w. induction p as [a | e | X e k IH]; intros w Hp Hw; simpl in *; auto.
  destruct Hp as [He Hk]. specialize (He w Hw).
  destruct (perform e w) as [x w'].
  destruct e; try (apply IH; [apply Hk | exact He]).
  simpl. split; [apply Hk | exact He].
Qed.

Lemma always_deref (P : forall X : Type, eff X -> Prop) (l : loc) :
  P _ (Deref l) -> always P (deref l).
Proof. intros H. split; [exact H | intros [s|]; exact I]. Qed.

Lemma always_do (P : forall X : Type, eff X -> Prop) (X : Type) (e : eff X) :
  P _ e -> always P (do_ e).
Proof. intros H. split; [exact H | intros; exact I]. Qed.

Lemma always_await (P : forall X : Type, eff X -> Prop) (X : Type) (r : io X) :
  P _ (Io r) -> always P (await r).
Proof. intros H. split; [exact H | intros [x|e]; exact I]. Qed.

Lemma always_animation_loop (P : forall X : Type, eff X -> Prop) (l : loc)
    (choice : string) (n i : nat) :
  P _ (Deref l) ->
  (forall chat mid t, P _ (Io (bot_editMessageText chat mid t))) ->
  (forall ms, P _ (Io (sleep ms))) ->
  always P (animation_loop l choice i n).
Proof.
  intros Hd He Hs. revert i. induction n as [|n IH]; intros i; cbn [animation_loop].
  - exact I.
  - apply always_bind; [apply always_deref, Hd | intros s].
    apply always_bind.
    + apply always_try_catch.
      * apply always_bind; [apply always_await, He | intros; exact I].
      * intros [[|] | | |]; exact I.
    + intros [|]; [|exact I].
      apply always_bind; [apply always_await, Hs | intros _; apply IH].
Qed.

(** One step of a proof that a property holds of every effect. *)
Ltac always_step :=
  lazymatch goal with
  | |- always _ (bind _ _) => apply always_bind; [| intros ?]
  | |- always _ (try_catch _ _) => apply always_try_catch; [| intros ?]
  | |- always _ (finally _ _) => apply always_finally
  | |- always _ (animation_loop _ _ _ _) => apply always_animation_loop; intros
  | |- always _ (deref _) => apply always_deref
  | |- always _ (do_ _) => apply always_do
  | |- always _ (await _) => apply always_await
  | |- always _ (Ret _) => exact I
  | |- always _ (Throw _) => exact I
  | |- always _ (Vis _ _) => split; [| intros ?]
  | |- always _ (match ?x with _ => _ end) => destruct x
  | |- always _ (let _ := _ in _) => cbv zeta
  end.

Ltac unfold_programs :=
  unfold finalizeAndRecordOutcome, safeSendMessage, clear_session_timeout,
    animate_and_finalize, deny, no_longer_active,
    V4.runUnifiedOffer, V4.runDirectChallenge, V4.runCoinflipPvB, V4.runCoinflipPvP,
    V4.runCoinflipAnimationAndFinalize, V4.handleGameTimeout,
    V4.handleNewGameSession, V4.handleNewGameSession_try, V4.handleNewGameSession_catch,
    V4.dispatch, V4.on_callback_query,
    Base.raw_name, Base.runUnifiedOffer, Base.runDirectChallenge,
    Base.runCoinflipPvB, Base.runCoinflipPvP, Base.runCoinflipAnimation,
    Base.handleOfferTimeout, Base.handleGameTimeout, Base.dispatch,
    Base.on_callback_query.

(** Every effect of the program is in the class, the leaves being closed
    by [leaf]. *)
Ltac always_all leaf :=
  repeat first [always_step | progress unfold_programs]; try (leaf; fail).

(** * The opponent *)

Lemma keeps_opponent_preserves (l : loc) (v : jsid) (X : Type) (e : eff X) :
  keeps_opponent e -> preserves (opponent_is l v) e.
Proof.
  intros He w (s & Hs & Hv). unfold opponent_is.
  destruct e; simpl in *; try (exists s; split; assumption).
  - destruct k; exists s; split; assumption.
  - exists s. split; [|exact Hv]. apply lookup_app_l_Some. exact Hs.
  - destruct (heap w !! l0) as [s0|] eqn:E; simpl; [|exists s; split; assumption].
    destruct (decide (l0 = l)) as [-> | Hne].
    + exists (f s0). rewrite E in Hs. inversion Hs; subst s0. split.
      * apply list_lookup_insert_eq. apply (lookup_lt_Some _ _ _ E).
      * rewrite He. exact Hv.
    + exists s. split; [|exact Hv]. rewrite list_lookup_insert_ne by exact Hne. exact Hs.
  - destruct r; simpl; unfold presenter, statement, rollback;
      repeat match goal with
             | |- context [match ?x with _ => _ end] => destruct x eqn:?; simpl
             end; exists s; split; assumption.
Qed.

Ltac opponent_leaf := simpl; intros; auto; reflexivity.

Lemma V4_dispatch_keeps_opponent (cq : callback_query) (l : loc) (s : session) :
  accepts_pvp cq s = false -> always keeps_opponent (V4.dispatch cq l s).
Proof.
  unfold accepts_pvp, V4.dispatch. intros H.
  destruct (String.eqb (cq_action cq) "cf_helper_cancel"); [always_all opponent_leaf|].
  destruct (String.eqb (cq_action cq) "cf_helper_accept_bot"); [always_all opponent_leaf|].
  destruct (String.eqb (cq_action cq) "cf_helper_accept_pvp").
  { simpl in H. rewrite H. always_all opponent_leaf. }
  always_all opponent_leaf.
Qed.

Lemma Base_dispatch_keeps_opponent (raw : user -> string + exn) (cq : callback_query)
    (l : loc) (s : session) :
  accepts_pvp cq s = false -> always keeps_opponent (Base.dispatch raw cq l s).
Proof.
  unfold accepts_pvp, Base.dispatch. intros H.
  destruct (String.eqb (cq_action cq) "cf_helper_cancel"); [always_all opponent_leaf|].
  destruct (String.eqb (cq_action cq) "cf_helper_accept_bot"); [always_all opponent_leaf|].
  destruct (String.eqb (cq_action cq) "cf_helper_accept_pvp").
  { simpl in H. rewrite H. always_all opponent_leaf. }
  always_all opponent_leaf.
Qed.

Lemma V4_runCoinflipPvP_keeps_opponent (l : loc) : always keeps_opponent (V4.runCoinflipPvP l).
Proof. always_all opponent_leaf. Qed.

Lemma Base_runCoinflipPvP_keeps_opponent (l : loc) :
  always keeps_opponent (Base.runCoinflipPvP l).
Proof. always_all opponent_leaf. Qed.

Lemma V4_handleGameTimeout_keeps_opponent (sid : Z) (ctx : context) :
  always keeps_opponent (V4.handleGameTimeout sid ctx).
Proof. always_all opponent_leaf. Qed.

Lemma Base_handleGameTimeout_keeps_opponent (sid : Z) (ctx : context) :
  always keeps_opponent (Base.handleGameTimeout sid ctx).
Proof. always_all opponent_leaf. Qed.

Lemma Base_handleOfferTimeout_keeps_opponent (sid : Z) :
  always keeps_opponent (Base.handleOfferTimeout sid).
Proof. always_all opponent_leaf. Qed.

Lemma V4_handleNewGameSession_keeps_opponent (g : gid) :
  always keeps_opponent (V4.handleNewGameSession g).
Proof. always_all opponent_leaf. Qed.

Lemma keeps_opponent_run {A : Type} (p : prog A) (l : loc) (v : jsid) (w : world) :
  always keeps_opponent p -> opponent_is l v w -> opponent_is l v (snd (run p w)).
Proof.
  intros Hp. apply always_run. revert Hp. apply always_mono.
  intros X e. apply keeps_opponent_preserves.
Qed.

Lemma accepts_pvp_true (cq : callback_query) (s : session) :
  accepts_pvp cq s = true ->
  cq_action cq = "cf_helper_accept_pvp"%string /\
  String.eqb (clickerId cq) (String_ (initiator_id s)) = false.
Proof.
  unfold accepts_pvp. intros H. apply andb_true_iff in H as [H1 H2].
  apply String.eqb_eq in H1. apply negb_true_iff in H2. auto.
Qed.

Lemma opponent_is_assigned (l : loc) (s : session) (v : jsid) (w : world) :
  heap w !! l = Some s ->
  opponent_is l v (snd (perform (Assign l (set_opponent_id v)) w)).
Proof.
  intros Hh. simpl. rewrite Hh. exists (set_opponent_id v s). split; [|reflexivity].
  apply list_lookup_insert_eq. apply (lookup_lt_Some _ _ _ Hh).
Qed.

(** C9, as the code has it: [opponent_id] is assigned by the
    [cf_helper_accept_pvp] action of a clicker other than the initiator, and
    every such action on a registered session sets it to the clicker,
    whether or not it was set before; no other action, no timeout and no
    pickup changes it.  Both drafts. *)
Theorem C9_opponent_set_by_every_pvp_accept (raw : user -> string + exn) (w : world)
    (cq : callback_query) (l : loc) (s : session) :
  map_get (cq_sessionId cq) w = Some l ->
  heap w !! l = Some s ->
  let after_click := if accepts_pvp cq s then Id (clickerId cq) else opponent_id s in
  opponent_is l after_click (snd (run (V4.on_callback_query cq) w)) /\
  opponent_is l after_click (snd (run (Base.on_callback_query raw cq) w)) /\
  (forall sid ctx,
     opponent_is l (opponent_id s) (snd (run (V4.handleGameTimeout sid ctx) w)) /\
     opponent_is l (opponent_id s) (snd (run (Base.handleGameTimeout sid ctx) w)) /\
     opponent_is l (opponent_id s) (snd (run (Base.handleOfferTimeout sid) w))) /\
  (forall g, opponent_is l (opponent_id s) (snd (run (V4.handleNewGameSession g) w))).
Proof.
  intros Hm Hh after_click.
  assert (H0 : opponent_is l (opponent_id s) w) by (exists s; auto).
  assert (Hc : opponent_is l (opponent_id s) (cleared s w)).
  { exists s. rewrite heap_cleared. auto. }
  assert (Hhc : heap (cleared s w) !! l = Some s) by (rewrite heap_cleared; exact Hh).
  split_and!.
  - rewrite (run_V4_callback_live Hm Hh). subst after_click.
    destruct (accepts_pvp cq s) eqn:Ha.
    + destruct (accepts_pvp_true Ha) as [Hact Hcl].
      unfold V4.dispatch. rewrite Hact. cbn [String.eqb Ascii.eqb Bool.eqb].
      rewrite Hcl. cbn [negb].
      match goal with
      | |- opponent_is _ _ (snd (run (bind (do_ ?e) ?f) ?w0)) =>
          change (run (bind (do_ e) f) w0)
            with (run (f (fst (perform e w0))) (snd (perform e w0)))
      end.
      apply keeps_opponent_run; [|apply (opponent_is_assigned (Id (clickerId cq)) Hhc)].
      always_all opponent_leaf.
    + apply keeps_opponent_run; [apply V4_dispatch_keeps_opponent, Ha | exact Hc].
  - rewrite (run_Base_callback_live raw Hm Hh). subst after_click.
    destruct (accepts_pvp cq s) eqn:Ha.
    + destruct (accepts_pvp_true Ha) as [Hact Hcl].
      unfold Base.dispatch. rewrite Hact. cbn [String.eqb Ascii.eqb Bool.eqb].
      rewrite Hcl. cbn [negb].
      match goal with
      | |- opponent_is _ _ (snd (run (bind (do_ ?e) ?f) ?w0)) =>
          change (run (bind (do_ e) f) w0)
            with (run (f (fst (perform e w0))) (snd (perform e w0)))
      end.
      apply keeps_opponent_run; [|apply (opponent_is_assigned (Id (clickerId cq)) Hhc)].
      always_all opponent_leaf.
    + apply keeps_opponent_run; [apply Base_dispatch_keeps_opponent, Ha | exact Hc].
  - intros sid ctx. split_and!; apply keeps_opponent_run; try exact H0.
    + apply V4_handleGameTimeout_keeps_opponent.
    + apply Base_handleGameTimeout_keeps_opponent.
    + apply Base_handleOfferTimeout_keeps_opponent.
  - intros g. apply keeps_opponent_run; [apply V4_handleNewGameSession_keeps_opponent | exact H0].
Qed.

Lemma C9_opponent_set_by_every_pvp_accept_witness :
  let raw := fun _ : user => @inr string exn ReferenceError in
  let w := offered [] in
  let cq := click bob "cf_helper_accept_pvp:7" in
  accepts_pvp cq offered_session = true /\
  opponent_is 0 (Id "200") (snd (run (V4.on_callback_query cq) w)) /\
  opponent_is 0 (Id "200") (snd (run (Base.on_callback_query raw cq) w)) /\
  opponent_is 0 Null (snd (run (V4.handleGameTimeout 7 offer) w)) /\
  opponent_is 0 Null (snd (run (V4.handleNewGameSession (GStr "G42")) w)).
Proof.
  destruct (@C9_opponent_set_by_every_pvp_accept (fun _ => inr ReferenceError)
              (offered []) (click bob "cf_helper_accept_pvp:7") 0 offered_session
              eq_refl eq_refl) as (H1 & H2 & H3 & H4).
  split; [reflexivity | split; [exact H1 | split; [exact H2 | split]]].
  - exact (proj1 (H3 7%Z offer)).
  - exact (H4 (GStr "G42")).
Defined.

(** C9 as stated fails: Bob accepts Alice's offer and becomes the
    opponent; Carol then accepts it too and replaces him. *)
Lemma C9_counterexample :
  let w0 := offered [] in
  let w1 := V4Loop.handle (Callback (click bob "cf_helper_accept_pvp:7")) w0 in
  let w2 := V4Loop.handle (Callback (click carol "cf_helper_accept_pvp:7")) w1 in
  opponent_id <$> heap w0 !! 0 = Some Null /\
  opponent_id <$> heap w1 !! 0 = Some (Id "200") /\
  opponent_id <$> heap w2 !! 0 = Some (Id "300") /\
  activeHelperGames w2 !! 7%Z = Some 0.
Proof. vm_compute. repeat split; reflexivity. Qed.

(** * Triples *)

Lemma hoare_conseq {A : Type} (P P' : world -> Prop) (p : prog A)
    (Q Q' : A + exn -> world -> Prop) :
  hoare P' p Q' -> (forall w, P w -> P' w) -> (forall r w, Q' r w -> Q r w) ->
  hoare P p Q.
Proof. intros H HP HQ w Hw. apply HQ, H, HP, Hw. Qed.

Lemma hoare_ret {A : Type} (P : world -> Prop) (a : A) (Q : A + exn -> world -> Prop) :
  (forall w, P w -> Q (inl a) w) -> hoare P (Ret a) Q.
Proof. intros H w Hw. apply H, Hw. Qed.

Lemma hoare_throw {A : Type} (P : world -> Prop) (e : exn) (Q : A + exn -> world -> Prop) :
  (forall w, P w -> Q (inr e) w) -> hoare P (Throw e) Q.
Proof. intros H w Hw. apply H, Hw. Qed.

Lemma hoare_vis {A X : Type} (P : world -> Prop) (e : eff X) (k : X -> prog A)
    (R : X -> world -> Prop) (Q : A + exn -> world -> Prop) :
  (forall w, P w -> R (fst (perform e w)) (snd (perform e w))) ->
  (forall x, hoare (R x) (k x) Q) ->
  hoare P (Vis e k) Q.
Proof.
  intros He Hk w Hw. simpl. specialize (He w Hw).
  destruct (perform e w) as [x w']. apply Hk, He.
Qed.

Lemma hoare_bind {A B : Type} (P : world -> Prop) (p : prog A) (f : A -> prog B)
    (R : A + exn -> world -> Prop) (Q : B + exn -> world -> Prop) :
  hoare P p R ->
  (forall a, hoare (R (inl a)) (f a) Q) ->
  (forall e w, R (inr e) w -> Q (inr e) w) ->
  hoare P (bind p f) Q.
Proof.
  intros Hp Hf He w Hw. rewrite run_bind. specialize (Hp w Hw).
  destruct (run p w) as [[a | e] w']; simpl in *.
  - apply Hf, Hp.
  - apply He, Hp.
Qed.

Lemma hoare_try_catch {A : Type} (P : world -> Prop) (p : prog A) (h : exn -> prog A)
    (R : A + exn -> world -> Prop) (Q : A + exn -> world -> Prop) :
  hoare P p R ->
  (forall a w, R (inl a) w -> Q (inl a) w) ->
  (forall e, hoare (R (inr e)) (h e) Q) ->
  hoare P (try_catch p h) Q.
Proof.
  intros Hp Ha Hh w Hw. rewrite run_try_catch. specialize (Hp w Hw).
  destruct (run p w) as [[a | e] w']; simpl in *.
  - apply Ha, Hp.
  - apply Hh, Hp.
Qed.

Lemma hoare_finally {A : Type} (P : world -> Prop) (p : prog A) (f : prog unit)
    (R : A + exn -> world -> Prop) (Q : A + exn -> world -> Prop) :
  hoare P p R ->
  (forall r, hoare (R r) f
               (fun r' w => Q (match r' with inl _ => r | inr e => inr e end) w)) ->
  hoare P (finally p f) Q.
Proof.
  intros Hp Hf w Hw. rewrite run_finally. specialize (Hp w Hw).
  destruct (run p w) as [r w']; simpl in *.
  specialize (Hf r w' Hp).
  destruct (run f w') as [[[] | e] w'']; simpl in *; exact Hf.
Qed.

Lemma hoare_always {A : Type} (I : world -> Prop) (p : prog A) :
  always (preserves I) p -> hoare I p (fun _ w => I w).
Proof. intros Hp w Hw. apply always_run; assumption. Qed.

(** A step that keeps an invariant, whatever it returns. *)
Lemma hoare_step {A X : Type} (I : world -> Prop) (e : eff X) (k : X -> prog A)
    (Q : A + exn -> world -> Prop) :
  preserves I e -> (forall x, hoare I (k x) Q) -> hoare I (Vis e k) Q.
Proof.
  intros He Hk. apply hoare_vis with (R := fun _ w => I w); [|exact Hk].
  intros w Hw. apply He, Hw.
Qed.

(** * Pickup *)

Arguments sql_claim : simpl never.

Lemma run_await {X : Type} (r : io X) (w : world) : run (await r) w = perform_io r w.
Proof.
  unfold await. simpl. destruct (perform_io r w) as [[x | e] w']; reflexivity.
Qed.

Lemma hoare_await {X : Type} (P : world -> Prop) (r : io X)
    (Q : X + exn -> world -> Prop) :
  (forall w, P w -> Q (fst (perform_io r w)) (snd (perform_io r w))) ->
  hoare P (await r) Q.
Proof. intros H w Hw. rewrite run_await. apply H, Hw. Qed.

Lemma sql_claim_none (bot : string) (g : gid) (t : list row) :
  nothing_pending g t -> sql_claim bot g t = (t, []).
Proof.
  unfold sql_claim. induction 1 as [|r t Hr Ht IH]; simpl; [reflexivity|].
  rewrite Hr. injection IH as H1 H2. f_equal; [f_equal|]; assumption.
Qed.

Section NoClaim.

Variable w0 : world.
Variable g : gid.
Hypothesis no_row : nothing_pending g (store w0).
Hypothesis no_key : map_get (gid_key g) w0 = None.

Let U (w : world) : Prop := untouched w0 w.
Let U0 (w : world) : Prop := untouched w0 w /\ txn w = None.

Lemma noclaim_catch (client : bool) (e : exn) :
  hoare (fun w => if client then U w else U0 w)
        (V4.handleNewGameSession_catch g client e) (fun _ => U0).
Proof.
  unfold V4.handleNewGameSession_catch.
  apply hoare_bind with (R := fun r w => match r with inl _ => U0 w | inr _ => U0 w end).
  - destruct client.
    + apply hoare_await. intros w (H1 & H2 & H3 & H4 & H5 & H6 & H7 & H8).
      simpl. unfold rollback. simpl.
      destruct H8 as [H8 | H8]; rewrite H8;
        destruct (hd Good (fates w)); simpl; repeat split; auto.
    + apply hoare_ret. auto.
  - intros _. apply hoare_step.
    { intros w [(H1 & H2 & H3 & H4 & H5 & H6 & H7 & H8) H9]. simpl. repeat split; auto. }
    intros _. apply hoare_vis with (R := fun x w => x = None /\ U0 w).
    { intros w [(H1 & H2 & H3 & H4 & H5 & H6 & H7 & H8) H9]. simpl.
      split; [|repeat split; auto].
      unfold map_get in *. destruct (gid_key g); [rewrite H2; exact no_key | reflexivity]. }
    intros x. destruct x as [l|].
    + intros w [Hx _]. discriminate.
    + apply hoare_ret. intros w [_ H]. exact H.
  - intros e' w H. exact H.
Qed.

Lemma noclaim_try :
  hoare U0 (V4.handleNewGameSession_try g)
        (fun r w => match r with inl _ => U0 w | inr _ => U w end).
Proof.
  unfold V4.handleNewGameSession_try.
  apply hoare_bind with (R := fun r w => U w).
  - apply hoare_await. intros w [(H1 & H2 & H3 & H4 & H5 & H6 & H7 & H8) H9].
    simpl. unfold statement. destruct (hd Good (fates w)); simpl; repeat split; auto.
    right. rewrite H7. reflexivity.
  - intros _.
    apply hoare_bind with (R := fun r w => U w /\ match r with
                                                  | inl rows => rows = []
                                                  | inr _ => True
                                                  end).
    + apply hoare_await. intros w (H1 & H2 & H3 & H4 & H5 & H6 & H7 & H8).
      pose proof (sql_claim_none (BOT_ID w) no_row) as Hc. rewrite <- H7 in Hc.
      cbv [perform_io]. rewrite Hc.
      destruct (hd Good (fates w)); simpl; repeat split; auto.
    + intros rows. destruct rows as [|r rows].
      * apply hoare_await. intros w [(H1 & H2 & H3 & H4 & H5 & H6 & H7 & H8) _].
        simpl. unfold rollback. simpl.
        destruct H8 as [H8 | H8]; rewrite H8;
          destruct (hd Good (fates w)); simpl; repeat split; auto.
      * intros w [_ Hx]. discriminate.
    + intros e w [H _]. exact H.
  - intros e w H. exact H.
Qed.

Lemma noclaim_handler :
  hoare U0 (V4.handleNewGameSession g) (fun _ => U0).
Proof.
  unfold V4.handleNewGameSession.
  apply hoare_bind with (R := fun r w => U0 w).
  - apply hoare_vis with (R := fun _ w => U0 w).
    + intros w [(H1 & H2 & H3 & H4 & H5 & H6 & H7 & H8) H9].
      simpl. unfold statement. destruct (hd Good (fates w)); simpl; repeat split; auto.
    + intros x. apply hoare_ret. auto.
  - intros [[] | e].
    + apply hoare_finally with (R := fun _ w => U0 w).
      * apply hoare_try_catch
          with (R := fun r w => match r with inl _ => U0 w | inr _ => U w end).
        -- apply noclaim_try.
        -- intros a w H. exact H.
        -- intros e. apply noclaim_catch with (client := true).
      * intros r. apply hoare_step; [intros w H; exact H|].
        intros x. apply hoare_ret. auto.
    + apply hoare_finally with (R := fun _ w => U0 w).
      * apply noclaim_catch with (client := false).
      * intros r. apply hoare_ret. auto.
  - intros e w H. exact H.
Qed.

End NoClaim.

Lemma all_good_firstn4 (fs : list fate) :
  all_good (firstn 4 fs) ->
  fs = [] \/ fs = [Good] \/ fs = [Good; Good] \/ fs = [Good; Good; Good] \/
  exists rest, fs = Good :: Good :: Good :: Good :: rest.
Proof.
  intros H.
  destruct fs as [|f1 [|f2 [|f3 [|f4 rest]]]]; simpl in H;
    repeat match goal with
           | H : all_good (_ :: _) |- _ => inversion H; clear H; subst
           | H : Forall _ (_ :: _) |- _ => inversion H; clear H; subst
           end; eauto 10.
Qed.

Lemma noclaim_good (w : world) (g : gid) :
  txn w = None ->
  nothing_pending g (store w) ->
  all_good (firstn 4 (fates w)) ->
  run (V4.handleNewGameSession g) w = (inl tt, set_fates (skipn 4 (fates w)) w).
Proof.
  intros Ht Hn Hg.
  destruct w as [hp reg tm nt sto tx per ob nm con fts cns bid]. simpl in *. subst tx.
  destruct (all_good_firstn4 Hg) as [-> | [-> | [-> | [-> | [rest ->]]]]];
    unfold V4.handleNewGameSession, V4.handleNewGameSession_try;
    cbn; rewrite (sql_claim_none bid Hn); cbn; reflexivity.
Qed.

Lemma sql_claim_leaves_nothing_pending (bot : string) (g : gid) (t : list row) :
  nothing_pending g (fst (sql_claim bot g t)).
Proof.
  unfold nothing_pending, sql_claim. simpl. apply Forall_forall.
  intros r Hr. apply list_elem_of_In, in_map_iff in Hr as (r0 & <- & _).
  destruct (claim_matches g r0) eqn:E; [|exact E].
  unfold claim_matches, claim_row. cbn [r_status r_main_bot_game_id].
  apply andb_false_iff. right. apply bool_decide_eq_false_2. discriminate.
Qed.

(** C8 on the code: the offer of row 7 is claimed and sent, and the update
    that stores the message id is rejected.  The [catch] looks the session
    up under the external game id: with the id ["G42"] it finds none, so
    session 7 is not reported (no final update, the row stays in progress,
    the session stays registered); with the id 99 it finds the session of
    another game, and reports that one as [completed_error]. *)
Theorem C8_setup_failure_reported_under_wrong_key :
  let fs := [Good; Good; Good; Good; Good; Bad] in
  let w := snd (run (V4.handleNewGameSession (GStr "G42")) (pickup_world fs)) in
  let w99 := snd (run (V4.handleNewGameSession (GNum 99)) (pickup_world_99 fs)) in
  (activeHelperGames w !! 7%Z = Some 0 /\
   persisted w = [] /\
   map r_status (store w) = [in_progress] /\
   console w = [LogHandleNewError (GStr "G42")]) /\
  (activeHelperGames w99 !! 7%Z = Some 1 /\
   activeHelperGames w99 !! 99%Z = None /\
   map (fun e => fst e) (persisted w99) = [(99%Z, completed_error)] /\
   map (fun r => (r_session_id r, r_status r)) (store w99)
   = [(99%Z, completed_error); (7%Z, in_progress)]).
Proof. vm_compute. repeat split; reflexivity. Qed.

(** * Finalize at most once, one handler at a time *)

Lemma clean_game_state (ids : list Z) (gs : game_state) (sid : Z) (t : list row) :
  clean ids t -> clean ids (sql_game_state gs sid t).
Proof.
  unfold clean, sql_game_state. intros H. apply Forall_forall.
  intros r Hr. apply list_elem_of_In, in_map_iff in Hr as (r0 & <- & Hr0).
  apply list_elem_of_In in Hr0. rewrite Forall_forall in H. specialize (H r0 Hr0).
  destruct (Z.eqb (r_session_id r0) sid); simpl; exact H.
Qed.

Lemma clean_claim (ids : list Z) (bot : string) (g : gid) (t : list row) :
  clean ids t -> clean ids (fst (sql_claim bot g t)).
Proof.
  unfold clean, sql_claim. simpl. intros H. apply Forall_forall.
  intros r Hr. apply list_elem_of_In, in_map_iff in Hr as (r0 & <- & Hr0).
  apply list_elem_of_In in Hr0. rewrite Forall_forall in H. specialize (H r0 Hr0).
  destruct (claim_matches g r0); simpl; [discriminate | exact H].
Qed.

Lemma claimed_not_persisted (ids : list Z) (bot : string) (g : gid) (t : list row) :
  clean ids t -> Forall (fun r => r_session_id r ∉ ids) (snd (sql_claim bot g t)).
Proof.
  unfold clean, sql_claim. simpl. intros H. apply Forall_forall.
  intros r Hr. apply list_elem_of_In, in_map_iff in Hr as (r0 & <- & Hr0).
  apply filter_In in Hr0 as [Hr0 Hm]. apply list_elem_of_In in Hr0.
  rewrite Forall_forall in H. specialize (H r0 Hr0). simpl.
  intros Hin. apply (H Hin).
  unfold claim_matches in Hm. apply andb_true_iff in Hm as [_ Hm].
  apply bool_decide_eq_true in Hm. exact Hm.
Qed.

Lemma clean_finalize (ids : list Z) (st : status) (gs : game_state) (sid : Z)
    (t : list row) :
  st <> pending_pickup -> clean ids t -> clean (ids ++ [sid]) (sql_finalize st gs sid t).
Proof.
  unfold clean, sql_finalize. intros Hst H. apply Forall_forall.
  intros r Hr. apply list_elem_of_In, in_map_iff in Hr as (r0 & <- & Hr0).
  apply list_elem_of_In in Hr0. rewrite Forall_forall in H. specialize (H r0 Hr0).
  destruct (Z.eqb_spec (r_session_id r0) sid) as [E | E]; simpl.
  - intros _. exact Hst.
  - intros Hin. apply elem_of_app in Hin as [Hin | Hin]; [exact (H Hin)|].
    apply list_elem_of_singleton in Hin. contradiction.
Qed.

(** The invariant looks at the log, the registry, the transaction, the
    statuses in the table and the ids of the objects only. *)
Lemma serving_ext (sid : Z) (l : loc) (w w' : world) :
  persisted w' = persisted w ->
  activeHelperGames w' = activeHelperGames w ->
  txn w' = txn w ->
  (clean (persisted_ids w) (store w) -> clean (persisted_ids w) (store w')) ->
  (forall l0 s, heap w !! l0 = Some s ->
     exists s', heap w' !! l0 = Some s' /\ session_id s' = session_id s) ->
  serving sid l w -> serving sid l w'.
Proof.
  intros Hp Hr Ht Hs Hh [[[I1 I2 I3 I4 I5 I6] Hn] Hl].
  assert (Hids : persisted_ids w' = persisted_ids w)
    by (unfold persisted_ids; rewrite Hp; reflexivity).
  split; [split; [constructor|]|].
  - intros k Hk. rewrite Hr. apply I1. rewrite <- Hids. exact Hk.
  - rewrite Hids. exact I2.
  - rewrite Hids. apply Hs, I3.
  - intros t Ht'. rewrite Ht, Hn in Ht'. discriminate.
  - intros k l0 Hk. rewrite Hr in Hk. destruct (I5 k l0 Hk) as (s & Hs1 & Hs2).
    destruct (Hh l0 s Hs1) as (s' & Hs1' & Hs2'). exists s'. split; [exact Hs1' | congruence].
  - rewrite Hp. exact I6.
  - rewrite Ht. exact Hn.
  - rewrite Hr. exact Hl.
Qed.

Lemma quiet_preserves (sid : Z) (l : loc) (X : Type) (e : eff X) :
  quiet sid l e -> preserves (serving sid l) e.
Proof.
  intros Hq w Hw.
  assert (Hn : txn w = None) by (destruct Hw as [[_ Hn] _]; exact Hn).
  assert (Hl : activeHelperGames w !! sid = Some l) by (destruct Hw as [_ Hl]; exact Hl).
  destruct e; simpl in Hq |- *.
  - exact Hw.
  - destruct Hq as [-> ->]. apply (serving_ext (w := w)); simpl; auto.
    + apply insert_id, Hl.
    + eauto.
  - contradiction.
  - apply (serving_ext (w := w)); simpl; auto.
    intros l0 s0 H0. exists s0. split; [apply lookup_app_l_Some, H0 | reflexivity].
  - exact Hw.
  - destruct (heap w !! l0) as [s0|] eqn:E; [|exact Hw].
    apply (serving_ext (w := w)); simpl; auto.
    intros l1 s1 H1. change (heap w !! l1 = Some s1) in H1.
    destruct (decide (l0 = l1)) as [Heq | Hne].
    + subst l1. exists (f s0).
      assert (Hs : Some s0 = Some s1) by (rewrite <- E; exact H1).
      inversion Hs; subst s1.
      split; [apply list_lookup_insert_eq, (lookup_lt_Some _ _ _ E) | apply Hq].
    + exists s1. rewrite list_lookup_insert_ne by exact Hne. auto.
  - apply (serving_ext (w := w)); simpl; eauto.
  - apply (serving_ext (w := w)); simpl; eauto.
  - apply (serving_ext (w := w)); simpl; eauto.
  - apply (serving_ext (w := w)); simpl; eauto.
  - exact Hw.
  - destruct r; try contradiction; simpl; unfold presenter, statement, rollback;
      simpl; rewrite ?Hn;
      repeat match goal with
             | |- context [match hd Good (fates w) with _ => _ end] =>
                 destruct (hd Good (fates w)); simpl; rewrite ?Hn
             end;
      try exact Hw;
      apply (serving_ext (w := w)); simpl; eauto using clean_game_state.
Qed.

Lemma quiet_run {A : Type} (sid : Z) (l : loc) (p : prog A) :
  always (quiet sid l) p -> hoare (serving sid l) p (fun _ => serving sid l).
Proof.
  intros Hp. apply hoare_always. revert Hp. apply always_mono.
  intros X e. apply quiet_preserves.
Qed.

Lemma terminal_not_pending (st : status) : terminal st = true -> st <> pending_pickup.
Proof. intros H ->. discriminate. Qed.

Lemma serving_idle (sid : Z) (l : loc) (w : world) : serving sid l w -> idle w.
Proof. intros [H _]. exact H. Qed.

Lemma persisted_ids_app (w : world) (sid : Z) (st : status) (gs : game_state) :
  map (fun e : Z * status * game_state => fst (fst e)) (persisted w ++ [(sid, st, gs)])
  = persisted_ids w ++ [sid].
Proof. unfold persisted_ids. rewrite map_app. reflexivity. Qed.

Lemma finalize_serving (sid : Z) (l : loc) (st : status) (gs : game_state) :
  terminal st = true ->
  hoare (serving sid l) (finalizeAndRecordOutcome (Num sid) st gs) (fun _ => idle).
Proof.
  intros Hst w Hw. rewrite run_finalize. cbn [fst snd].
  destruct (hd Good (fates w)).
  - destruct Hw as [[[I1 I2 I3 I4 I5 I6] Hn] Hl].
    assert (Hfresh : sid ∉ persisted_ids w).
    { intros Hin. rewrite (I1 sid Hin) in Hl. discriminate. }
    unfold finalized. split; [constructor|]; unfold persisted_ids; simpl;
      rewrite ?persisted_ids_app.
    + intros k Hk. apply elem_of_app in Hk as [Hk | Hk].
      * apply lookup_delete_None. right. apply I1, Hk.
      * apply list_elem_of_singleton in Hk. subst k. apply lookup_delete_eq.
    + apply NoDup_app. split; [exact I2 | split; [|apply NoDup_singleton]].
      intros k Hk Hk'. apply list_elem_of_singleton in Hk'. subst k. contradiction.
    + apply clean_finalize; [apply terminal_not_pending, Hst | exact I3].
    + intros t Ht. rewrite Hn in Ht. discriminate.
    + intros k l0 Hk. apply lookup_delete_Some in Hk as [_ Hk]. apply (I5 k l0 Hk).
    + apply Forall_app. split; [exact I6 | repeat constructor; exact Hst].
    + exact Hn.
  - apply (@serving_idle sid l). apply (serving_ext (w := w)); simpl; eauto.
  - apply (@serving_idle sid l). apply (serving_ext (w := w)); simpl; eauto.
Qed.

Lemma hoare_deref_serving {A : Type} (sid : Z) (l : loc) (k : session -> prog A)
    (Q : A + exn -> world -> Prop) :
  (forall s, session_id s = sid -> hoare (serving sid l) (k s) Q) ->
  hoare (serving sid l) (bind (deref l) k) Q.
Proof.
  intros H w Hw. destruct Hw as [[Hi Hn] Hl].
  destruct (inv_reg Hi Hl) as (s & Hs & Hid).
  rewrite run_bind, (run_deref Hs). apply (H s Hid). split; [split|]; assumption.
Qed.

Lemma hoare_quiet_bind {A B : Type} (sid : Z) (l : loc) (p : prog A) (f : A -> prog B) :
  always (quiet sid l) p ->
  (forall a, hoare (serving sid l) (f a) (fun _ => idle)) ->
  hoare (serving sid l) (bind p f) (fun _ => idle).
Proof.
  intros Hp Hf. apply hoare_bind with (R := fun _ => serving sid l).
  - apply quiet_run, Hp.
  - exact Hf.
  - intros e w. apply serving_idle.
Qed.

Lemma hoare_quiet_tail {A : Type} (sid : Z) (l : loc) (p : prog A) :
  always (quiet sid l) p -> hoare (serving sid l) p (fun _ => idle).
Proof.
  intros Hp. eapply hoare_conseq; [apply (quiet_run Hp) | auto |].
  intros r w. apply serving_idle.
Qed.

Lemma terminal_timeout_status (s : session) (ctx : context) :
  terminal (V4.timeout_status s ctx) = true.
Proof.
  destruct ctx; simpl; try reflexivity.
  destruct (String.eqb _ _); reflexivity.
Qed.

Lemma terminal_outcome (s : session) (choice : string) (isPvP : bool) (landed : string) :
  terminal (snd (outcome s choice isPvP landed)) = true.
Proof.
  unfold outcome. destruct isPvP; simpl.
  - destruct (String.eqb (String_ _) _); reflexivity.
  - destruct (String.eqb choice landed); reflexivity.
Qed.

Ltac quiet_leaf := simpl; intros; auto; try (split; reflexivity).

(** One step of a proof that a handler serving a session ends idle. *)
Ltac serve :=
  lazymatch goal with
  | |- hoare (serving _ _) (bind (deref _) _) _ =>
      apply hoare_deref_serving;
      let s := fresh "s" in let Hs := fresh "Hs" in
      intros s Hs; rewrite ?Hs
  | |- hoare (serving _ _) (finalizeAndRecordOutcome (Num _) _ _) _ =>
      apply finalize_serving;
      first [reflexivity | apply terminal_timeout_status | apply terminal_outcome]
  | |- hoare (serving _ _) (bind _ _) _ =>
      apply hoare_quiet_bind; [always_all quiet_leaf | intros ?]
  | |- hoare (serving _ _) (Ret _) _ =>
      apply hoare_ret; intros ?; apply serving_idle
  | |- hoare (serving _ _) (Throw _) _ =>
      apply hoare_throw; intros ?; apply serving_idle
  | |- hoare (serving _ _) (do_ _) _ =>
      apply hoare_quiet_tail; always_all quiet_leaf
  | |- hoare (serving _ _) (await _) _ =>
      apply hoare_quiet_tail; always_all quiet_leaf
  | |- hoare _ (match ?x with _ => _ end) _ => destruct x
  | |- hoare _ (let _ := _ in _) _ => cbv zeta
  end.

Ltac unfold_handlers :=
  unfold animate_and_finalize, deny, no_longer_active,
    V4.runUnifiedOffer, V4.runDirectChallenge, V4.runCoinflipPvB, V4.runCoinflipPvP,
    V4.runCoinflipAnimationAndFinalize.

Ltac serve_all := repeat first [serve | progress unfold_handlers].

Lemma V4_runUnifiedOffer_serving (sid : Z) (l : loc) :
  hoare (serving sid l) (V4.runUnifiedOffer l) (fun _ => idle).
Proof. serve_all. Qed.

Lemma V4_runDirectChallenge_serving (sid : Z) (l : loc) :
  hoare (serving sid l) (V4.runDirectChallenge l) (fun _ => idle).
Proof. serve_all. Qed.

Lemma animate_serving (steps : nat) (sid : Z) (l : loc) (choice : option string)
    (isPvP : bool) :
  hoare (serving sid l) (animate_and_finalize steps l choice isPvP) (fun _ => idle).
Proof. serve_all. Qed.

Lemma idle_ext (w w' : world) :
  persisted w' = persisted w ->
  activeHelperGames w' = activeHelperGames w ->
  txn w' = txn w ->
  (clean (persisted_ids w) (store w) -> clean (persisted_ids w) (store w')) ->
  (forall l0 s, heap w !! l0 = Some s ->
     exists s', heap w' !! l0 = Some s' /\ session_id s' = session_id s) ->
  idle w -> idle w'.
Proof.
  intros Hp Hr Ht Hs Hh [[I1 I2 I3 I4 I5 I6] Hn].
  assert (Hids : persisted_ids w' = persisted_ids w)
    by (unfold persisted_ids; rewrite Hp; reflexivity).
  split; [constructor|].
  - intros k Hk. rewrite Hr. apply I1. rewrite <- Hids. exact Hk.
  - rewrite Hids. exact I2.
  - rewrite Hids. apply Hs, I3.
  - intros t Ht'. rewrite Ht, Hn in Ht'. discriminate.
  - intros k l0 Hk. rewrite Hr in Hk. destruct (I5 k l0 Hk) as (s & Hs1 & Hs2).
    destruct (Hh l0 s Hs1) as (s' & Hs1' & Hs2'). exists s'. split; [exact Hs1' | congruence].
  - rewrite Hp. exact I6.
  - rewrite Ht. exact Hn.
Qed.

Lemma idle_said (c : presenter_call) (w : world) : idle w -> idle (said c w).
Proof. apply idle_ext; simpl; eauto. Qed.

Lemma V4_dispatch_serving (sid : Z) (l : loc) (cq : callback_query) (s : session) :
  cq_sessionId cq = Num sid ->
  hoare (serving sid l) (V4.dispatch cq l s) (fun _ => idle).
Proof.
  intros Hk. unfold V4.dispatch. cbv zeta. rewrite Hk. serve_all.
Qed.

Lemma map_get_Some (k : jsnum) (w : world) (l : loc) :
  map_get k w = Some l -> exists sid, k = Num sid /\ activeHelperGames w !! sid = Some l.
Proof. destruct k as [z|]; simpl; [eauto | discriminate]. Qed.

Lemma V4_on_callback_query_idle (cq : callback_query) :
  hoare idle (V4.on_callback_query cq) (fun _ => idle).
Proof.
  intros w Hw. unfold V4.on_callback_query. cbn [run bind do_ perform].
  destruct (map_get (cq_sessionId cq) w) as [l|] eqn:E.
  - destruct (map_get_Some E) as (sid & Hk & Hl).
    assert (H : hoare (serving sid l)
                  (clear_session_timeout l ;; s <- deref l ;; V4.dispatch cq l s)
                  (fun _ => idle)).
    { serve. serve. apply V4_dispatch_serving, Hk. }
    apply H. split; assumption.
  - unfold no_longer_active. rewrite run_answer. apply idle_said, Hw.
Qed.

Lemma V4_handleGameTimeout_idle (sid : Z) (ctx : context) :
  hoare idle (V4.handleGameTimeout sid ctx) (fun _ => idle).
Proof.
  intros w Hw. unfold V4.handleGameTimeout. cbn [run bind do_ perform map_get].
  destruct (activeHelperGames w !! sid) as [l|] eqn:E.
  - assert (H : hoare (serving sid l)
                  (clear_session_timeout l ;;
                   s <- deref l ;;
                   await (bot_editMessageText (chat_id s) (helperMessageId (game_state_json s))
                            (V4.timeout_text ctx)) ;;
                   s' <- deref l ;;
                   finalizeAndRecordOutcome (Num sid) (V4.timeout_status s ctx)
                     (game_state_json s'))
                  (fun _ => idle)).
    { serve_all. }
    apply H. split; assumption.
  - exact Hw.
Qed.

Lemma Inv_ext (w w' : world) :
  persisted w' = persisted w ->
  activeHelperGames w' = activeHelperGames w ->
  heap w' = heap w ->
  clean (persisted_ids w) (store w') ->
  (forall t, txn w' = Some t -> clean (persisted_ids w) t) ->
  Inv w -> Inv w'.
Proof.
  intros Hp Hr Hh Hs Ht [I1 I2 I3 I4 I5 I6].
  assert (Hids : persisted_ids w' = persisted_ids w)
    by (unfold persisted_ids; rewrite Hp; reflexivity).
  constructor; rewrite ?Hids, ?Hr, ?Hh, ?Hp; auto.
Qed.

Lemma connect_idle (w : world) : idle w -> idle (snd (perform_io pool_connect w)).
Proof.
  intros Hw. simpl. unfold statement.
  destruct (hd Good (fates w)); simpl; revert Hw; apply idle_ext; simpl; eauto.
Qed.

Lemma begin_inv (w : world) : idle w -> Inv (snd (perform_io client_query_BEGIN w)).
Proof.
  intros [Hi Hn]. simpl. unfold statement.
  destruct (hd Good (fates w)); simpl; apply (Inv_ext (w := w)); simpl; auto;
    try apply (inv_store Hi); try apply (inv_txn Hi).
  intros t Ht. inversion Ht; subst t. apply (inv_store Hi).
Qed.

Lemma claim_inv (g : gid) (w : world) :
  Inv w ->
  Inv (snd (perform_io (client_query_claim g) w)) /\
  match fst (perform_io (client_query_claim g) w) with
  | inl rows =>
      Forall (fun r => r_session_id r ∉
                       persisted_ids (snd (perform_io (client_query_claim g) w))) rows
  | inr _ => True
  end.
Proof.
  intros Hi. cbv [perform_io].
  pose proof (clean_claim (BOT_ID w) g (inv_store Hi)) as Hc.
  pose proof (claimed_not_persisted (BOT_ID w) g (inv_store Hi)) as Hf.
  destruct (sql_claim (BOT_ID w) g (store w)) as [t rows]. simpl in Hc, Hf.
  destruct (hd Good (fates w)); simpl; split; auto;
    apply (Inv_ext (w := w)); simpl; auto;
    try apply (inv_store Hi); try apply (inv_txn Hi).
Qed.

Lemma rollback_idle (w : world) :
  Inv w ->
  idle (snd (perform_io client_query_ROLLBACK w)) /\
  persisted_ids (snd (perform_io client_query_ROLLBACK w)) = persisted_ids w.
Proof.
  intros Hi. simpl. unfold rollback. simpl.
  destruct (txn w) as [t|] eqn:Et; destruct (hd Good (fates w)); simpl;
    (split; [split|]); try reflexivity; try assumption;
    apply (Inv_ext (w := w)); simpl; try reflexivity;
    first [apply (inv_txn Hi Et) | apply (inv_store Hi) | intros; congruence].
Qed.

Lemma commit_idle (w : world) :
  Inv w ->
  idle (snd (perform_io client_query_COMMIT w)) /\
  persisted_ids (snd (perform_io client_query_COMMIT w)) = persisted_ids w.
Proof.
  intros Hi. simpl. unfold rollback. simpl.
  destruct (txn w) as [t|] eqn:Et; destruct (hd Good (fates w)); simpl;
    (split; [split|]); try reflexivity; try assumption;
    apply (Inv_ext (w := w)); simpl; try reflexivity;
    first [apply (inv_txn Hi Et) | apply (inv_store Hi) | intros; congruence].
Qed.

Lemma register_new_serving (r : row) (w : world) :
  idle w -> r_session_id r ∉ persisted_ids w ->
  let l := length (heap w) in
  serving (r_session_id r) l
    (set_activeHelperGames (<[r_session_id r := l]> (activeHelperGames w))
       (set_heap (heap w ++ [session_of_row r]) w)).
Proof.
  intros [[I1 I2 I3 I4 I5 I6] Hn] Hfresh l. split; [split; [constructor|]|]; simpl; auto.
  - intros k Hk. rewrite lookup_insert_ne; [apply I1, Hk|].
    intros <-. contradiction.
  - intros k l0 Hk. apply lookup_insert_Some in Hk as [[<- <-] | [Hne Hk]].
    + exists (session_of_row r). split; [|reflexivity].
      subst l. rewrite lookup_app_r by reflexivity.
      rewrite Nat.sub_diag. reflexivity.
    + destruct (I5 k l0 Hk) as (s & Hs1 & Hs2). exists s.
      split; [apply lookup_app_l_Some, Hs1 | exact Hs2].
  - apply lookup_insert_eq.
Qed.

Lemma V4_catch_idle (g : gid) (client : bool) (e : exn) :
  hoare (fun w => if client then Inv w else idle w)
        (V4.handleNewGameSession_catch g client e) (fun _ => idle).
Proof.
  unfold V4.handleNewGameSession_catch.
  apply hoare_bind with (R := fun _ => idle).
  - destruct client.
    + apply hoare_await. intros w Hw. apply (rollback_idle Hw).
    + apply hoare_ret. auto.
  - intros _. apply hoare_step.
    { intros w. apply idle_ext; simpl; eauto. }
    intros _ w Hw. cbn [run bind do_ perform].
    destruct (map_get (gid_key g) w) as [l|] eqn:E.
    + destruct (map_get_Some E) as (z & Hz & Hl).
      assert (H : hoare (serving z l)
                    (s <- deref l ;;
                     finalizeAndRecordOutcome (Num (session_id s)) completed_error
                       (gs_error_only (exn_message e)))
                    (fun _ => idle)) by serve_all.
      apply H. split; assumption.
    + exact Hw.
  - intros e' w H. exact H.
Qed.

Lemma V4_try_idle (g : gid) :
  hoare idle (V4.handleNewGameSession_try g)
        (fun r w => match r with inl _ => idle w | inr _ => Inv w end).
Proof.
  unfold V4.handleNewGameSession_try.
  apply hoare_bind with (R := fun _ => Inv).
  - apply hoare_await. intros w Hw. apply (begin_inv Hw).
  - intros _.
    apply hoare_bind
      with (R := fun r w => Inv w /\ match r with
                                     | inl rows =>
                                         Forall (fun r => r_session_id r ∉ persisted_ids w) rows
                                     | inr _ => True
                                     end).
    + apply hoare_await. intros w Hw. apply (claim_inv g Hw).
    + intros [|r rows].
      * apply hoare_await. intros w [Hw _].
        destruct (rollback_idle Hw) as [H _].
        destruct (fst (perform_io client_query_ROLLBACK w)); [exact H | apply H].
      * apply hoare_bind
          with (R := fun x w => match x with
                                | inl _ => idle w /\ r_session_id r ∉ persisted_ids w
                                | inr _ => Inv w
                                end).
        -- apply hoare_await. intros w [Hw Hf].
           destruct (commit_idle Hw) as [H Hids].
           destruct (fst (perform_io client_query_COMMIT w)).
           ++ split; [exact H|]. rewrite Hids. inversion Hf; assumption.
           ++ apply H.
        -- intros _ w [Hw Hf]. cbn [run bind do_ perform].
           pose proof (register_new_serving Hw Hf) as Hs. cbv zeta in Hs.
           destruct (truthy (r_opponent_id r)).
           ++ pose proof (V4_runDirectChallenge_serving Hs) as H.
              match goal with |- match ?x with _ => _ end => destruct x end;
                [exact H | exact (proj1 H)].
           ++ pose proof (V4_runUnifiedOffer_serving Hs) as H.
              match goal with |- match ?x with _ => _ end => destruct x end;
                [exact H | exact (proj1 H)].
        -- intros e w H. exact H.
    + intros e w [H _]. exact H.
  - intros e w H. exact H.
Qed.

Lemma V4_handleNewGameSession_idle (g : gid) :
  hoare idle (V4.handleNewGameSession g) (fun _ => idle).
Proof.
  unfold V4.handleNewGameSession.
  apply hoare_bind with (R := fun _ => idle).
  - apply hoare_vis with (R := fun _ => idle).
    + intros w Hw. apply (connect_idle Hw).
    + intros x. apply hoare_ret. auto.
  - intros [[] | e].
    + apply hoare_finally with (R := fun _ => idle).
      * apply hoare_try_catch
          with (R := fun r w => match r with inl _ => idle w | inr _ => Inv w end).
        -- apply V4_try_idle.
        -- intros a w H. exact H.
        -- intros e. apply V4_catch_idle with (client := true).
      * intros r. apply hoare_step; [intros w H; exact H|].
        intros x. apply hoare_ret. auto.
    + apply hoare_finally with (R := fun _ => idle).
      * apply V4_catch_idle with (client := false).
      * intros r. apply hoare_ret. auto.
  - intros e w H. exact H.
Qed.

Lemma V4_handle_idle (ev : event) (w : world) : idle w -> idle (V4Loop.handle ev w).
Proof.
  intros Hw. unfold V4Loop.handle, V4Loop.start. destruct ev as [g | cq | h].
  - destruct (gid_truthy g); [|exact Hw].
    apply (V4_handleNewGameSession_idle g Hw).
  - apply (V4_on_callback_query_idle cq Hw).
  - destruct (timers w !! h) as [[sid ctx]|]; [|exact Hw].
    apply V4_handleGameTimeout_idle. revert Hw. apply idle_ext; simpl; eauto.
Qed.

Lemma V4_serial_idle (evs : list event) (w : world) :
  idle w -> idle (V4Loop.serial evs w).
Proof.
  revert w. induction evs as [|ev evs IH]; intros w Hw; simpl; [exact Hw|].
  apply IH, V4_handle_idle, Hw.
Qed.

Lemma idle_initially (w : world) :
  registry_ok w -> persisted w = [] -> txn w = None -> idle w.
Proof.
  intros Hr Hp Ht. split; [constructor|exact Ht]; unfold persisted_ids; rewrite ?Hp; simpl.
  - intros sid H. apply elem_of_nil in H. contradiction.
  - constructor.
  - apply Forall_forall. intros r _ H. apply elem_of_nil in H. contradiction.
  - intros t H. rewrite Ht in H. discriminate.
  - exact Hr.
  - constructor.
Qed.

Lemma registry_ok_empty (w : world) : activeHelperGames w = ∅ -> registry_ok w.
Proof. intros Hr k l H. rewrite Hr, lookup_empty in H. discriminate. Qed.

Lemma terminal_Base_timeout_status (s : session) (ctx : context) :
  terminal (Base.timeout_status s ctx) = true.
Proof.
  destruct ctx; simpl; try reflexivity.
  destruct (String.eqb _ _); reflexivity.
Qed.

Section BaseSerial.

Variable raw : user -> string + exn.

Lemma Base_dispatch_serving (sid : Z) (l : loc) (cq : callback_query) (s : session) :
  cq_sessionId cq = Num sid ->
  hoare (serving sid l) (Base.dispatch raw cq l s) (fun _ => idle).
Proof.
  intros Hk. unfold Base.dispatch. cbv zeta. rewrite Hk.
  repeat first [serve
               | progress unfold animate_and_finalize, deny, Base.raw_name,
                   Base.runCoinflipPvB, Base.runCoinflipPvP, Base.runCoinflipAnimation].
Qed.

Lemma Base_on_callback_query_idle (cq : callback_query) :
  hoare idle (Base.on_callback_query raw cq) (fun _ => idle).
Proof.
  intros w Hw. unfold Base.on_callback_query. cbn [run bind do_ perform].
  destruct (map_get (cq_sessionId cq) w) as [l|] eqn:E.
  - destruct (map_get_Some E) as (sid & Hk & Hl).
    assert (H : hoare (serving sid l)
                  (clear_session_timeout l ;; s <- deref l ;; Base.dispatch raw cq l s)
                  (fun _ => idle)).
    { serve. serve. apply Base_dispatch_serving, Hk. }
    apply H. split; assumption.
  - unfold no_longer_active. rewrite run_answer. apply idle_said, Hw.
Qed.

Lemma Base_handleGameTimeout_idle (sid : Z) (ctx : context) :
  hoare idle (Base.handleGameTimeout sid ctx) (fun _ => idle).
Proof.
  intros w Hw. unfold Base.handleGameTimeout. cbn [run bind do_ perform map_get].
  destruct (activeHelperGames w !! sid) as [l|] eqn:E; [|exact Hw].
  assert (H : hoare (serving sid l)
                (s <- deref l ;;
                 if bool_decide (session_status s = in_progress) then
                   await (bot_editMessageText (chat_id s)
                            (helperMessageId (game_state_json s)) TxtPlayerTimedOut) ;;
                   s' <- deref l ;;
                   finalizeAndRecordOutcome (Num sid) (Base.timeout_status s ctx)
                     (game_state_json s')
                 else Ret tt)
                (fun _ => idle)).
  { serve. destruct (bool_decide (session_status s = in_progress)).
    - serve. serve. apply finalize_serving, terminal_Base_timeout_status.
    - serve. }
  apply H. split; assumption.
Qed.

Lemma Base_handleOfferTimeout_idle (sid : Z) :
  hoare idle (Base.handleOfferTimeout sid) (fun _ => idle).
Proof.
  intros w Hw. unfold Base.handleOfferTimeout. cbn [run bind do_ perform map_get].
  destruct (activeHelperGames w !! sid) as [l|] eqn:E; [|exact Hw].
  assert (H : hoare (serving sid l)
                (s <- deref l ;;
                 if bool_decide (session_status s = in_progress) then
                   await (bot_editMessageText (chat_id s)
                            (helperMessageId (game_state_json s)) TxtOfferExpired) ;;
                   s' <- deref l ;;
                   finalizeAndRecordOutcome (Num sid) completed_timeout (game_state_json s')
                 else Ret tt)
                (fun _ => idle)).
  { serve. destruct (bool_decide (session_status s = in_progress)); serve_all. }
  apply H. split; assumption.
Qed.

Lemma Base_handle_idle (ev : event) (w : world) :
  idle w -> idle (BaseLoop.handle raw ev w).
Proof.
  intros Hw. unfold BaseLoop.handle, BaseLoop.start. destruct ev as [g | cq | h].
  - exact Hw.
  - apply (Base_on_callback_query_idle cq Hw).
  - destruct (timers w !! h) as [[sid ctx]|]; [|exact Hw].
    assert (Hw' : idle (set_timers (delete h (timers w)) w))
      by (revert Hw; apply idle_ext; simpl; eauto).
    destruct ctx.
    + apply (Base_handleOfferTimeout_idle sid Hw').
    + apply (Base_handleGameTimeout_idle sid player_turn Hw').
    + apply (Base_handleGameTimeout_idle sid caller_turn Hw').
Qed.

Lemma Base_serial_idle (evs : list event) (w : world) :
  idle w -> idle (BaseLoop.serial raw evs w).
Proof.
  revert w. induction evs as [|ev evs IH]; intros w Hw; simpl; [exact Hw|].
  apply IH, Base_handle_idle, Hw.
Qed.

End BaseSerial.

Lemma statuses_at_most_one (sid : Z) (per : list (Z * status * game_state)) :
  NoDup (map (fun e => fst (fst e)) per) ->
  length (List.filter (fun e => Z.eqb (fst (fst e)) sid) per) <= 1.
Proof.
  induction per as [|e per IH]; intros Hnd; simpl; [lia|].
  apply NoDup_cons in Hnd as [Hnotin Hnd]. specialize (IH Hnd).
  destruct (Z.eqb_spec (fst (fst e)) sid) as [E | E]; [|exact IH].
  simpl. assert (Hz : List.filter (fun e0 => Z.eqb (fst (fst e0)) sid) per = []).
  { clear IH Hnd. induction per as [|e' per IH']; simpl; [reflexivity|].
    destruct (Z.eqb_spec (fst (fst e')) sid) as [E' | E'].
    - exfalso. apply Hnotin. simpl. rewrite E, <- E'. apply elem_of_cons. left. reflexivity.
    - apply IH'. intros Hin. apply Hnotin. simpl. apply elem_of_cons. right. exact Hin. }
  rewrite Hz. simpl. lia.
Qed.

(** C1, as the code has it: when the handlers run one at a time (each
    pickup, click or timeout runs to its end before the next event is
    taken), at most one terminal status is ever written per session, and a
    session whose status was written is out of the registry.  Both drafts,
    from any world in which nothing was written yet.  Finalize writes
    without a condition and the registry is looked at on entry only, so
    nothing of this holds for handlers that interleave at their awaits. *)
Theorem C1_serial_finalize_at_most_once (raw : user -> string + exn) (w0 : world)
    (evs : list event) :
  registry_ok w0 ->
  persisted w0 = [] ->
  txn w0 = None ->
  finalized_at_most_once (V4Loop.serial evs w0) /\
  finalized_at_most_once (BaseLoop.serial raw evs w0).
Proof.
  intros Hr Hp Ht.
  assert (H : forall w, idle w -> finalized_at_most_once w).
  { intros w [[I1 I2 I3 I4 I5 I6] _]. unfold finalized_at_most_once. split_and!; auto.
    intros sid. unfold persisted_statuses. rewrite length_map.
    apply statuses_at_most_one, I2. }
  split; apply H.
  - apply V4_serial_idle, idle_initially; assumption.
  - apply Base_serial_idle, idle_initially; assumption.
Qed.

Lemma C1_serial_finalize_at_most_once_witness :
  let raw := fun _ : user => @inr string exn ReferenceError in
  let evs := [Pickup (GStr "G42"); Callback (click alice "cf_helper_cancel:7");
              Callback (click alice "cf_helper_cancel:7")] in
  persisted_statuses 7 (V4Loop.serial evs (pickup_world [])) = [completed_cancelled] /\
  finalized_at_most_once (V4Loop.serial evs (pickup_world [])) /\
  finalized_at_most_once (BaseLoop.serial raw evs (pickup_world [])).
Proof.
  split; [reflexivity|].
  apply (@C1_serial_finalize_at_most_once (fun _ => inr ReferenceError) (pickup_world [])
           [Pickup (GStr "G42"); Callback (click alice "cf_helper_cancel:7");
            Callback (click alice "cf_helper_cancel:7")]).
  - apply registry_ok_empty. reflexivity.
  - reflexivity.
  - reflexivity.
Defined.

(** C1 as stated fails.  A timeout and a click race on session 7: the
    timeout handler writes the bot's win, and the click, already past the
    registry check, goes on to write the player's win.  Two clicks race the
    same way.  And a session can end with no terminal status at all: the
    timer fires, the presenter's edit is rejected, and the handler is over
    before finalize, with the session registered and no timer left. *)
Lemma C1_counterexample :
  let raced := V4Loop.sys_world (V4Loop.interleaved race_timeout_and_click (playing [])) in
  let clicked := V4Loop.sys_world (V4Loop.interleaved race_two_clicks (playing [])) in
  let silent := V4Loop.serial [TimerFires 1] (playing [Bad]) in
  (activeHelperGames (playing []) !! 7%Z = Some 0 /\
   timers (playing []) !! 1 = Some (TimeoutCb 7 player_turn) /\
   persisted (playing []) = []) /\
  persisted_statuses 7 raced = [completed_bot_win; completed_p1_win] /\
  persisted_statuses 7 clicked = [completed_p1_win; completed_bot_win] /\
  (persisted_statuses 7 silent = [] /\
   activeHelperGames silent !! 7%Z = Some 0 /\ timers silent = ∅).
Proof. vm_compute. repeat split; reflexivity. Qed.

(** * A second delivery of the same pickup *)

Lemma nothing_pending_game_state (g : gid) (gs : game_state) (sid : Z) (t : list row) :
  nothing_pending g t -> nothing_pending g (sql_game_state gs sid t).
Proof.
  unfold nothing_pending, sql_game_state. intros H. apply Forall_forall.
  intros r Hr. apply list_elem_of_In, in_map_iff in Hr as (r0 & <- & Hr0).
  apply list_elem_of_In in Hr0. rewrite Forall_forall in H. specialize (H r0 Hr0).
  destruct (Z.eqb (r_session_id r0) sid); [|exact H].
  unfold claim_matches in *. simpl. exact H.
Qed.

Lemma nothing_pending_finalize (g : gid) (st : status) (gs : game_state) (sid : Z)
    (t : list row) :
  st <> pending_pickup -> nothing_pending g t -> nothing_pending g (sql_finalize st gs sid t).
Proof.
  unfold nothing_pending, sql_finalize. intros Hst H. apply Forall_forall.
  intros r Hr. apply list_elem_of_In, in_map_iff in Hr as (r0 & <- & Hr0).
  apply list_elem_of_In in Hr0. rewrite Forall_forall in H. specialize (H r0 Hr0).
  destruct (Z.eqb (r_session_id r0) sid); [|exact H].
  unfold claim_matches. simpl. apply andb_false_iff. right.
  apply bool_decide_eq_false_2. exact Hst.
Qed.

Lemma nothing_pending_claim (g g' : gid) (bot : string) (t : list row) :
  nothing_pending g t -> nothing_pending g (fst (sql_claim bot g' t)).
Proof.
  unfold nothing_pending, sql_claim. simpl. intros H. apply Forall_forall.
  intros r Hr. apply list_elem_of_In, in_map_iff in Hr as (r0 & <- & Hr0).
  apply list_elem_of_In in Hr0. rewrite Forall_forall in H. specialize (H r0 Hr0).
  destruct (claim_matches g' r0); [|exact H].
  unfold claim_matches, claim_row. cbn [r_status r_main_bot_game_id].
  apply andb_false_iff. right. apply bool_decide_eq_false_2. discriminate.
Qed.

Lemma settled_preserves (g : gid) (X : Type) (e : eff X) :
  settled e -> preserves (claimed g) e.
Proof.
  intros He w [Hn Hp]. unfold claimed.
  destruct e; simpl in *; auto.
  - destruct k; simpl; auto.
  - destruct (heap w !! l); simpl; auto.
  - destruct r; simpl in He |- *; unfold presenter, statement, rollback; simpl;
      rewrite ?Hn; simpl.
    + destruct (hd Good (fates w)); simpl; auto.
    + destruct (hd Good (fates w)); simpl; auto.
    + destruct (hd Good (fates w)); simpl; auto.
    + destruct (hd Good (fates w)); simpl; auto.
    + auto.
    + destruct (hd Good (fates w)); simpl; auto.
    + contradiction.
    + pose proof (nothing_pending_claim g0 (BOT_ID w) Hp) as Hc.
      unfold sql_claim in Hc. simpl in Hc.
      destruct (hd Good (fates w)); simpl; auto.
    + destruct (hd Good (fates w)); simpl; rewrite ?Hn; simpl; auto.
    + destruct (hd Good (fates w)); simpl; auto.
    + destruct sid as [z|]; [|simpl; auto].
      unfold statement. destruct (hd Good (fates w)); simpl; auto.
      split; [exact Hn | apply nothing_pending_finalize; assumption].
    + destruct (hd Good (fates w)); simpl; auto.
      split; [exact Hn | apply nothing_pending_game_state; assumption].
Qed.

Lemma settled_run {A : Type} (g : gid) (p : prog A) (w : world) :
  always settled p -> claimed g w -> claimed g (snd (run p w)).
Proof.
  intros Hp. apply always_run. revert Hp. apply always_mono.
  intros X e. apply settled_preserves.
Qed.

Ltac settled_leaf := simpl; intros; auto; discriminate.

Lemma set_up_settled (r : row) : always settled (set_up r).
Proof. unfold set_up. always_all settled_leaf. Qed.

Lemma catch_settled (g : gid) (client : bool) (e : exn) :
  always settled (V4.handleNewGameSession_catch g client e).
Proof. always_all settled_leaf. Qed.

Lemma filter_nil_nothing_pending (g : gid) (t : list row) :
  List.filter (claim_matches g) t = [] -> nothing_pending g t.
Proof.
  unfold nothing_pending. induction t as [|r t IH]; simpl; [constructor|].
  destruct (claim_matches g r) eqn:E; [discriminate|].
  intros H. constructor; [exact E | apply IH, H].
Qed.

Lemma first_delivery_claims (w : world) (g : gid) :
  txn w = None ->
  all_good (firstn 4 (fates w)) ->
  claimed g (snd (run (V4.handleNewGameSession g) w)).
Proof.
  intros Ht Hg.
  destruct (List.filter (claim_matches g) (store w)) as [|r0 rows0] eqn:Ef.
  { rewrite (noclaim_good Ht (filter_nil_nothing_pending Ef) Hg). simpl.
    split; [exact Ht | apply filter_nil_nothing_pending, Ef]. }
  destruct w as [hp reg tm nt sto tx per ob nm con fts cns bid].
  simpl in Ht, Hg, Ef. subst tx.
  set (w4 := World hp reg tm nt (fst (sql_claim bid g sto)) None per ob nm con
                   (skipn 4 fts) cns bid).
  assert (Hc4 : claimed g w4).
  { split; [reflexivity | apply sql_claim_leaves_nothing_pending]. }
  assert (Hq : sql_claim bid g sto
               = (fst (sql_claim bid g sto),
                  claim_row bid r0 :: map (claim_row bid) rows0)).
  { unfold sql_claim. simpl. rewrite Ef. reflexivity. }
  assert (Hrun : run (V4.handleNewGameSession g)
                   (World hp reg tm nt sto None per ob nm con fts cns bid) =
                 run (finally (try_catch (set_up (claim_row bid r0))
                                 (V4.handleNewGameSession_catch g true))
                        (do_ ClientRelease)) w4).
  { subst w4.
    destruct (all_good_firstn4 Hg) as [-> | [-> | [-> | [-> | [rest ->]]]]];
      unfold V4.handleNewGameSession, V4.handleNewGameSession_try;
      cbn [run bind finally try_catch await do_ perform perform_io statement hd tl fates
           set_fates set_txn set_store store BOT_ID txn fst snd];
      rewrite Hq; reflexivity. }
  rewrite Hrun. clear Hrun.
  rewrite run_finally, run_try_catch.
  pose proof (settled_run (set_up_settled (claim_row bid r0)) Hc4) as H1.
  destruct (run (set_up (claim_row bid r0)) w4) as [[[] | e] w5]; simpl in H1.
  - simpl. exact H1.
  - pose proof (settled_run (catch_settled g true e) H1) as H2.
    destruct (run (V4.handleNewGameSession_catch g true e) w5) as [[[] | e'] w6];
      simpl in *; exact H2.
Qed.

Lemma noop_pickup (w : world) (g : gid) :
  txn w = None ->
  nothing_pending g (store w) ->
  all_good (firstn 4 (fates w)) \/ map_get (gid_key g) w = None ->
  noop w (snd (run (V4.handleNewGameSession g) w)).
Proof.
  intros Ht Hn Hcase. set (w' := snd (run (V4.handleNewGameSession g) w)).
  assert (H : same_state w w' /\ outbox w' = outbox w).
  { subst w'. destruct Hcase as [Hg | Hk].
    - rewrite (noclaim_good Ht Hn Hg). simpl. repeat split.
    - destruct (@noclaim_handler w g Hn Hk w) as [(H1 & H2 & H3 & H4 & H5 & H6 & H7 & H8) H9].
      { split; [repeat split; auto|exact Ht]. }
      repeat split; auto. congruence. }
  destruct H as [[(H1 & H2 & H3 & H4 & H5) H6] H7].
  unfold noop. split_and!; auto.
  - repeat split; tauto.
  - rewrite H1. reflexivity.
  - rewrite H3. clear. induction (store w); constructor; auto.
Qed.

(** X31: a pickup notification whose external game id matches no row with
    status [pending_pickup] (the id is unknown, or the row was claimed
    before) changes nothing: no row is written (a row in progress stays in
    progress), no session object and no registry entry is made, no timer is
    armed, nothing is sent and no final update is written.  This holds when
    the calls of the claim go through, and also when any of them fails as
    long as the id is not, as a number, the key of a registered session.
    In particular, once a delivery has gone through its claim, no row is
    pending under the id, and a second delivery of the notification changes
    nothing under the same condition. *)
Theorem pickup_without_pending_row_changes_nothing (w : world) (g : gid) :
  txn w = None ->
  (nothing_pending g (store w) ->
   all_good (firstn 4 (fates w)) \/ map_get (gid_key g) w = None ->
   noop w (snd (run (V4.handleNewGameSession g) w))) /\
  (all_good (firstn 4 (fates w)) ->
   let w1 := snd (run (V4.handleNewGameSession g) w) in
   nothing_pending g (store w1) /\
   (all_good (firstn 4 (fates w1)) \/ map_get (gid_key g) w1 = None ->
    noop w1 (snd (run (V4.handleNewGameSession g) w1)))).
Proof.
  intros Ht. split.
  - intros Hn Hcase. apply noop_pickup; assumption.
  - intros Hg w1. destruct (first_delivery_claims g Ht Hg) as [Ht1 Hn1].
    fold w1 in Ht1, Hn1. split; [exact Hn1|].
    intros Hcase. apply noop_pickup; assumption.
Qed.

Lemma pickup_without_pending_row_changes_nothing_witness :
  let g := GStr "G42" in
  (let w := offered [] in
   nothing_pending g (store w) /\
   noop w (snd (run (V4.handleNewGameSession g) w))) /\
  (let w := pickup_world [] in
   let w1 := snd (run (V4.handleNewGameSession g) w) in
   activeHelperGames w1 !! 7%Z = Some 0 /\
   nothing_pending g (store w1) /\
   noop w1 (snd (run (V4.handleNewGameSession g) w1))).
Proof.
  split.
  - assert (Hn : nothing_pending (GStr "G42") (store (offered [])))
      by (vm_compute; repeat constructor).
    split; [exact Hn|].
    apply (proj1 (@pickup_without_pending_row_changes_nothing (offered [])
                    (GStr "G42") eq_refl) Hn).
    right. reflexivity.
  - assert (Hg : all_good (firstn 4 (fates (pickup_world [])))) by constructor.
    destruct (proj2 (@pickup_without_pending_row_changes_nothing (pickup_world [])
                       (GStr "G42") eq_refl) Hg) as [H1 H2].
    split; [reflexivity | split; [exact H1|]].
    apply H2. right. reflexivity.
Defined.

(** C6 on the code.  The table holds the row of session 99, a game in
    play, and a pending row, session 7, whose external game id is the
    number 99.  The notification for game 99 is picked up: row 7 is
    claimed, no row is pending any more, nothing is finalized.  The
    notification is delivered again and [pool.connect()] is rejected: the
    [catch] looks a session up under the external game id, finds the
    session with session id 99 and finalizes it.  The second delivery,
    which matches no pending row, has written [completed_error] to the row
    of another game and removed that game from the registry. *)
Theorem C6_failed_redelivery_finalizes_another_session :
  let g := GNum 99 in
  let w1 := V4Loop.handle (Pickup g) (pickup_world_99 (repeat Good 6 ++ [Bad])) in
  let w2 := V4Loop.handle (Pickup g) w1 in
  (nothing_pending g (store w1) /\
   persisted w1 = [] /\
   activeHelperGames w1 !! 99%Z = Some 0 /\
   map (fun r => (r_session_id r, r_status r)) (store w1)
   = [(99%Z, in_progress); (7%Z, in_progress)]) /\
  (map (fun e => fst e) (persisted w2) = [(99%Z, completed_error)] /\
   activeHelperGames w2 !! 99%Z = None /\
   map (fun r => (r_session_id r, r_status r)) (store w2)
   = [(99%Z, completed_error); (7%Z, in_progress)]) /\
  ~ noop w1 w2.
Proof.
  cbv zeta. split; [|split].
  - vm_compute. split; [repeat constructor | repeat split].
  - vm_compute. repeat split.
  - intros (_ & _ & _ & H). vm_compute in H.
    inversion H as [|? ? ? ? H1 _]. discriminate H1.
Qed.

(** * Text utilities *)

#[local] Arguments String.append !s1 s2 : simpl nomatch.

Lemma string_append_nil_r (s : string) : String.append s EmptyString = s.
Proof. induction s; simpl; congruence. Qed.

Lemma string_append_assoc (a b c : string) :
  String.append (String.append a b) c = String.append a (String.append b c).
Proof. induction a; simpl; congruence. Qed.

Lemma string_length_append (a b : string) :
  String.length (String.append a b) = String.length a + String.length b.
Proof. induction a; simpl; congruence. Qed.

Lemma replace_all_append (c : ascii) (r a b : string) :
  replace_all c r (String.append a b)
  = String.append (replace_all c r a) (replace_all c r b).
Proof.
  induction a as [|x a IH]; simpl; [reflexivity|].
  destruct (Ascii.eqb x c); rewrite IH; [symmetry; apply string_append_assoc | reflexivity].
Qed.

(** The five passes treat the first character on its own. *)
Lemma escapeHTML_cons (a : ascii) (s : string) :
  escapeHTML (Some (String a s))
  = String.append (escapeHTML (Some (String a EmptyString))) (escapeHTML (Some s)).
Proof.
  unfold escapeHTML.
  repeat (simpl;
          match goal with
          | |- context [Ascii.eqb a ?c] => destruct (Ascii.eqb a c) eqn:?
          end);
    simpl; reflexivity.
Qed.

Lemma escapeHTML_char (a : ascii) :
  (a = "&"%char /\ escapeHTML (Some (String a EmptyString)) = "&amp;"%string) \/
  (a = "<"%char /\ escapeHTML (Some (String a EmptyString)) = "&lt;"%string) \/
  (a = ">"%char /\ escapeHTML (Some (String a EmptyString)) = "&gt;"%string) \/
  (a = dquote /\ escapeHTML (Some (String a EmptyString)) = "&quot;"%string) \/
  (a = "'"%char /\ escapeHTML (Some (String a EmptyString)) = "&#039;"%string) \/
  (markup a = false /\ escapeHTML (Some (String a EmptyString)) = String a EmptyString).
Proof.
  destruct (Ascii.eqb_spec a "&") as [->|N1]; [left; split; reflexivity | right].
  destruct (Ascii.eqb_spec a "<") as [->|N2]; [left; split; reflexivity | right].
  destruct (Ascii.eqb_spec a ">") as [->|N3]; [left; split; reflexivity | right].
  destruct (Ascii.eqb_spec a dquote) as [->|N4]; [left; split; reflexivity | right].
  destruct (Ascii.eqb_spec a "'") as [->|N5]; [left; split; reflexivity | right].
  apply Ascii.eqb_neq in N1, N2, N3, N4, N5.
  unfold markup, escapeHTML. simpl. rewrite N1. simpl. rewrite N2. simpl.
  rewrite N3. simpl. rewrite N4. simpl. rewrite N5. split; reflexivity.
Qed.

#[local] Arguments escapeHTML : simpl never.

Lemma escapeHTML_nil : escapeHTML (Some EmptyString) = EmptyString.
Proof. reflexivity. Qed.

Lemma escapeHTML_append (a b : string) :
  escapeHTML (Some (String.append a b))
  = String.append (escapeHTML (Some a)) (escapeHTML (Some b)).
Proof.
  induction a as [|x a IH]; [reflexivity|].
  change (String.append (String x a) b) with (String x (String.append a b)).
  rewrite (escapeHTML_cons x (String.append a b)), IH, (escapeHTML_cons x a).
  symmetry. apply string_append_assoc.
Qed.

Ltac escape_cases a E :=
  let M := fresh "M" in
  destruct (escapeHTML_char a)
    as [[-> E]|[[-> E]|[[-> E]|[[-> E]|[[-> E]|[M E]]]]]].

(** X1: escaping works character by character.  The text of a
    concatenation is the concatenation of the escaped texts, and one
    character gives its entity, or itself when it is none of the five; the
    ampersands the first pass writes are not escaped again by the later
    ones. *)
Theorem escapeHTML_character_wise (a b : string) (c : ascii) :
  escapeHTML (Some (String.append a b))
  = String.append (escapeHTML (Some a)) (escapeHTML (Some b)) /\
  escapeHTML (Some (String c EmptyString))
  = (if Ascii.eqb c "&" then "&amp;"
     else if Ascii.eqb c "<" then "&lt;"
     else if Ascii.eqb c ">" then "&gt;"
     else if Ascii.eqb c dquote then "&quot;"
     else if Ascii.eqb c "'" then "&#039;"
     else String c EmptyString)%string.
Proof.
  split; [apply escapeHTML_append|].
  escape_cases c E; rewrite E; try reflexivity.
  unfold markup in M.
  repeat (apply orb_false_elim in M; destruct M as [M ?]).
  repeat match goal with H : Ascii.eqb c _ = false |- _ => rewrite H; clear H end.
  reflexivity.
Qed.

Lemma prefix_nil (s : string) : String.prefix EmptyString s = true.
Proof. destruct s; reflexivity. Qed.

(** X2: the escaped text holds no [<], [>], double quote or apostrophe,
    and every [&] in it begins one of the five entities; [null] and
    [undefined] give the empty text. *)
Theorem escapeHTML_well_escaped (text : option string) :
  well_escaped (escapeHTML text) = true /\
  occurs (fun a => Ascii.eqb a "<" || Ascii.eqb a ">" || Ascii.eqb a dquote
                   || Ascii.eqb a "'") (escapeHTML text) = false /\
  escapeHTML None = EmptyString.
Proof.
  split; [|split; [|reflexivity]].
  - destruct text as [s|]; [|reflexivity].
    induction s as [|a s IH]; [reflexivity|].
    rewrite escapeHTML_cons.
    escape_cases a E; rewrite E; simpl; rewrite ?prefix_nil, ?IH; try reflexivity.
    assert (Ha : Ascii.eqb a "&" = false).
    { unfold markup in M. destruct (Ascii.eqb a "&"); [discriminate M | reflexivity]. }
    rewrite Ha, M. reflexivity.
  - destruct text as [s|]; [|reflexivity].
    induction s as [|a s IH]; [reflexivity|].
    rewrite escapeHTML_cons.
    escape_cases a E; rewrite E; simpl; rewrite ?IH; try reflexivity.
    unfold markup in M. destruct (Ascii.eqb a "&"); [discriminate M|].
    simpl in M. rewrite M. reflexivity.
Qed.

Lemma escapeHTML_head (a b : ascii) (x y : string) :
  String.append (escapeHTML (Some (String a EmptyString))) x
  = String.append (escapeHTML (Some (String b EmptyString))) y ->
  a = b /\ x = y.
Proof.
  intros H.
  escape_cases a Ea; escape_cases b Eb; rewrite ?Ea, ?Eb in H; simpl in H;
    try discriminate H;
    injection H; intros; subst;
    first [discriminate | split; reflexivity].
Qed.

(** X3: escaping loses nothing: two texts with the same escaped text are
    the same text. *)
Theorem escapeHTML_injective (a b : string) :
  escapeHTML (Some a) = escapeHTML (Some b) -> a = b.
Proof.
  revert b. induction a as [|x a IH]; intros [|y b] H.
  - reflexivity.
  - rewrite (escapeHTML_cons y b), escapeHTML_nil in H.
    escape_cases y E; rewrite E in H; discriminate H.
  - rewrite (escapeHTML_cons x a), escapeHTML_nil in H.
    escape_cases x E; rewrite E in H; discriminate H.
  - rewrite (escapeHTML_cons x a), (escapeHTML_cons y b) in H.
    apply escapeHTML_head in H. destruct H as [-> H].
    f_equal. apply IH, H.
Qed.

Lemma escapeHTML_injective_witness :
  escapeHTML (Some "<b>"%string) = "&lt;b&gt;"%string /\
  escapeHTML (Some "<b>"%string) = escapeHTML (Some "<b>"%string) /\
  "<b>"%string = "<b>"%string.
Proof.
  split; [reflexivity | split; [reflexivity|]].
  exact (@escapeHTML_injective "<b>" "<b>" eq_refl).
Defined.

Lemma escapeHTML_length (s : string) :
  String.length s <= String.length (escapeHTML (Some s)) /\
  (occurs markup s = true -> String.length s < String.length (escapeHTML (Some s))).
Proof.
  induction s as [|a s [IH1 IH2]]; [split; [reflexivity | discriminate]|].
  rewrite escapeHTML_cons, string_length_append.
  escape_cases a E; rewrite E; simpl; split; intros; try lia.
  rewrite M in *. simpl in *. apply IH2 in H. lia.
Qed.

(** X4: the texts escaping leaves as they are are those that hold none of
    the five characters. *)
Theorem escapeHTML_fixed_points (s : string) :
  escapeHTML (Some s) = s <-> occurs markup s = false.
Proof.
  split.
  - intros H. destruct (occurs markup s) eqn:O; [|reflexivity].
    apply escapeHTML_length in O. rewrite H in O. lia.
  - induction s as [|a s IH]; [reflexivity|].
    simpl. intros H. apply orb_false_elim in H. destruct H as [Ha Hs].
    rewrite escapeHTML_cons, (IH Hs).
    escape_cases a E; try discriminate Ha.
    rewrite E. reflexivity.
Qed.

(** * Fields of a text *)

Lemma split_eq (c : ascii) (s : string) :
  split c s = fst (split_on c s) :: snd (split_on c s).
Proof. unfold split. destruct (split_on c s). reflexivity. Qed.

Lemma split_cons (c a : ascii) (s : string) :
  split c (String a s)
  = if Ascii.eqb a c then EmptyString :: split c s
    else String a (fst (split_on c s)) :: snd (split_on c s).
Proof.
  rewrite !split_eq. simpl. destruct (split_on c s) as [f rest].
  destruct (Ascii.eqb a c); reflexivity.
Qed.

Lemma concat_cons (sep x : string) (y : string) (l : list string) :
  String.concat sep (x :: y :: l)
  = String.append x (String.append sep (String.concat sep (y :: l))).
Proof. reflexivity. Qed.

Lemma split_fields (c : ascii) (s : string) :
  String.concat (String c EmptyString) (split c s) = s /\
  Forall (fun f => occurs (fun a => Ascii.eqb a c) f = false) (split c s).
Proof.
  induction s as [|a s [IH1 IH2]]; [split; [reflexivity | repeat constructor]|].
  rewrite split_cons. rewrite split_eq in IH1, IH2.
  destruct (Ascii.eqb_spec a c) as [->|N].
  - rewrite split_eq. split.
    + rewrite concat_cons, IH1. reflexivity.
    + constructor; [reflexivity | exact IH2].
  - apply Ascii.eqb_neq in N. inversion IH2 as [|f l Hf Hl]; subst. split.
    + destruct (snd (split_on c s)) as [|y l].
      * simpl in IH1 |- *. congruence.
      * rewrite concat_cons in IH1 |- *. simpl in IH1 |- *. congruence.
    + constructor; [simpl; rewrite N; exact Hf | exact Hl].
Qed.

(** X5: splitting loses nothing and no field holds the separator:
    joining the fields of [s.split(c)] with [c] gives [s] back. *)
Theorem split_concat (c : ascii) (s : string) :
  String.concat (String c EmptyString) (split c s) = s /\
  Forall (fun f => occurs (fun a => Ascii.eqb a c) f = false) (split c s).
Proof.
  destruct (split_fields c s) as [Hjoin Hclean].
  split; [exact Hjoin | exact Hclean].
Qed.

Lemma split_no_separator (c : ascii) (f : string) :
  occurs (fun a => Ascii.eqb a c) f = false -> split_on c f = (f, []).
Proof.
  induction f as [|a f IH]; [reflexivity|].
  simpl. intros H. apply orb_false_elim in H. destruct H as [Ha Hf].
  rewrite (IH Hf), Ha. reflexivity.
Qed.

Lemma split_field (c : ascii) (f rest : string) :
  occurs (fun a => Ascii.eqb a c) f = false ->
  split c (String.append f (String c rest)) = f :: split c rest.
Proof.
  induction f as [|a f IH]; intros H.
  - simpl. rewrite split_cons, Ascii.eqb_refl. reflexivity.
  - simpl in H. apply orb_false_elim in H. destruct H as [Ha Hf].
    simpl. rewrite split_cons, Ha. specialize (IH Hf).
    rewrite split_eq in IH. injection IH as -> ->. reflexivity.
Qed.

(** X6: and joining is undone by splitting: a list of fields that is not empty,
    with no field holding the separator, is what [split] gives for the
    joined text. *)
Theorem concat_split (c : ascii) (fields : list string) :
  fields <> [] ->
  Forall (fun f => occurs (fun a => Ascii.eqb a c) f = false) fields ->
  split c (String.concat (String c EmptyString) fields) = fields.
Proof.
  intros Hne H. induction H as [|f l Hf Hl IH]; [congruence|].
  destruct l as [|y l].
  - simpl. rewrite split_eq, (split_no_separator Hf). reflexivity.
  - rewrite concat_cons.
    change (String.append (String c EmptyString)
              (String.concat (String c EmptyString) (y :: l)))
      with (String c (String.concat (String c EmptyString) (y :: l))).
    rewrite (split_field _ Hf), IH; [reflexivity | discriminate].
Qed.

Lemma concat_split_witness :
  split ":" (String.concat ":" ["cf_helper_pvb_choice"; "7"; "heads"]%string)
  = ["cf_helper_pvb_choice"; "7"; "heads"]%string.
Proof.
  apply (@concat_split ":" ["cf_helper_pvb_choice"; "7"; "heads"]%string).
  - discriminate.
  - repeat constructor.
Defined.

(** * Numbers in callback data *)

Lemma digits_prefix_done (rest : string) (acc : option Z) :
  no_digit_ahead rest -> digits_prefix rest acc = acc.
Proof.
  destruct rest as [|a r]; [reflexivity|].
  unfold no_digit_ahead, is_digit. cbn [digits_prefix].
  destruct (digit_of a); [discriminate | reflexivity].
Qed.

Lemma digits_prefix_digit (a : ascii) (k : Z) (s : string) (acc : option Z) :
  digit_of a = Some k ->
  digits_prefix (String a s) acc = digits_prefix s (Some (10 * default 0%Z acc + k)%Z).
Proof. intros H. cbn [digits_prefix]. rewrite H. reflexivity. Qed.

Ltac digit_value :=
  match goal with
  | |- context [Z.of_nat ?n] =>
      let v := eval vm_compute in (Z.of_nat n) in change (Z.of_nat n) with v
  end.

Ltac digit_step :=
  cbn [DecimalString.NilEmpty.string_of_uint String.append Pos.of_uint_acc Pos.of_uint];
  erewrite digits_prefix_digit by reflexivity.

Lemma digits_prefix_acc (d : Decimal.uint) (rest : string) (acc : positive) :
  no_digit_ahead rest ->
  digits_prefix (String.append (DecimalString.NilEmpty.string_of_uint d) rest)
                (Some (Z.pos acc))
  = Some (Z.pos (Pos.of_uint_acc d acc)).
Proof.
  intros H. revert acc.
  induction d as [|d IH|d IH|d IH|d IH|d IH|d IH|d IH|d IH|d IH|d IH]; intros acc;
    [apply digits_prefix_done, H | ..];
    digit_step;
    match goal with
    | |- digits_prefix _ (Some ?z) = Some (Z.pos (Pos.of_uint_acc _ ?p)) =>
        replace z with (Z.pos p) by (cbv [from_option id]; digit_value; lia)
    end; apply IH.
Qed.

Lemma digits_prefix_zero (d : Decimal.uint) (rest : string) (acc : option Z) :
  no_digit_ahead rest ->
  default 0%Z acc = 0%Z ->
  d <> Decimal.Nil \/ acc = Some 0%Z ->
  digits_prefix (String.append (DecimalString.NilEmpty.string_of_uint d) rest) acc
  = Some (Z.of_N (Pos.of_uint d)).
Proof.
  intros H. revert acc.
  induction d as [|d IH|d IH|d IH|d IH|d IH|d IH|d IH|d IH|d IH|d IH]; intros acc Ha Hd.
  - destruct Hd as [Hd | ->]; [congruence|]. apply digits_prefix_done, H.
  - digit_step. rewrite Ha. digit_value. apply IH; [reflexivity | right; reflexivity].
  - digit_step. rewrite Ha. digit_value. apply (digits_prefix_acc d 1 H).
  - digit_step. rewrite Ha. digit_value. apply (digits_prefix_acc d 2 H).
  - digit_step. rewrite Ha. digit_value. apply (digits_prefix_acc d 3 H).
  - digit_step. rewrite Ha. digit_value. apply (digits_prefix_acc d 4 H).
  - digit_step. rewrite Ha. digit_value. apply (digits_prefix_acc d 5 H).
  - digit_step. rewrite Ha. digit_value. apply (digits_prefix_acc d 6 H).
  - digit_step. rewrite Ha. digit_value. apply (digits_prefix_acc d 7 H).
  - digit_step. rewrite Ha. digit_value. apply (digits_prefix_acc d 8 H).
  - digit_step. rewrite Ha. digit_value. apply (digits_prefix_acc d 9 H).
Qed.

Lemma skip_white_space_blanks (ws s : string) :
  blanks ws = true ->
  skip_white_space (String.append ws s) = skip_white_space s.
Proof.
  induction ws as [|a ws IH]; [reflexivity|].
  cbn [blanks]. intros H. apply andb_true_iff in H. destruct H as [Ha Hws].
  cbn [String.append skip_white_space]. rewrite Ha. apply IH, Hws.
Qed.

Lemma skip_white_space_ascii (a : ascii) (s : string) :
  nat_of_ascii a < 128 ->
  ascii_blank (nat_of_ascii a) = false ->
  skip_white_space (String a s) = String a s.
Proof.
  intros Hn Hb. cbn [skip_white_space]. rewrite Hb.
  destruct s as [|b [|c s]]; try reflexivity.
  - replace (Nat.eqb (nat_of_ascii a) 194) with false
      by (symmetry; apply Nat.eqb_neq; lia).
    reflexivity.
  - replace (Nat.eqb (nat_of_ascii a) 194) with false
      by (symmetry; apply Nat.eqb_neq; lia).
    replace (Nat.eqb (nat_of_ascii a) 225) with false
      by (symmetry; apply Nat.eqb_neq; lia).
    replace (Nat.eqb (nat_of_ascii a) 226) with false
      by (symmetry; apply Nat.eqb_neq; lia).
    replace (Nat.eqb (nat_of_ascii a) 227) with false
      by (symmetry; apply Nat.eqb_neq; lia).
    replace (Nat.eqb (nat_of_ascii a) 239) with false
      by (symmetry; apply Nat.eqb_neq; lia).
    reflexivity.
Qed.

Lemma parseInt_blanks (ws s : string) :
  blanks ws = true ->
  parseInt (Some (String.append ws s)) = parseInt (Some s).
Proof. intros H. unfold parseInt. rewrite (skip_white_space_blanks s H). reflexivity. Qed.

Lemma parseInt_unsigned (d : Decimal.uint) (rest : string) :
  d <> Decimal.Nil -> no_digit_ahead rest ->
  parseInt (Some (String.append (DecimalString.NilEmpty.string_of_uint d) rest))
  = Num (Z.of_N (Pos.of_uint d)).
Proof.
  intros Hd H.
  pose proof (@digits_prefix_zero d rest None H eq_refl (or_introl Hd)) as E.
  destruct d; [congruence | ..];
    unfold parseInt;
    cbn [DecimalString.NilEmpty.string_of_uint String.append] in E |- *;
    (rewrite skip_white_space_ascii by (vm_compute; first [lia | reflexivity]));
    cbv beta iota; rewrite E; reflexivity.
Qed.

Lemma parseInt_negative (d : Decimal.uint) (rest : string) :
  d <> Decimal.Nil -> no_digit_ahead rest ->
  parseInt (Some (String "-" (String.append (DecimalString.NilEmpty.string_of_uint d)
                                            rest)))
  = Num (- Z.of_N (Pos.of_uint d)).
Proof.
  intros Hd H.
  pose proof (@digits_prefix_zero d rest None H eq_refl (or_introl Hd)) as E.
  unfold parseInt.
  rewrite skip_white_space_ascii by (vm_compute; first [lia | reflexivity]).
  cbv beta iota. rewrite E. reflexivity.
Qed.

Lemma Number_toString_pos (p : positive) :
  Number_toString (Z.pos p) = DecimalString.NilEmpty.string_of_uint (Pos.to_uint p) /\
  Number_toString (Z.neg p)
  = String "-" (DecimalString.NilEmpty.string_of_uint (Pos.to_uint p)).
Proof.
  unfold Number_toString. cbn [Z.to_int DecimalString.NilZero.string_of_int].
  pose proof (DecimalPos.Unsigned.to_uint_nonnil p) as Hn.
  destruct (Pos.to_uint p); [congruence | ..]; split; reflexivity.
Qed.

(** In the model the decimal text of every integer is read back. *)
Lemma parseInt_decimal_text (ws rest : string) (n : Z) :
  blanks ws = true ->
  no_digit_ahead rest ->
  parseInt (Some (String.append ws (String.append (Number_toString n) rest))) = Num n.
Proof.
  intros Hws Hrest. rewrite (parseInt_blanks _ Hws).
  destruct n as [|p|p].
  - apply (@parseInt_unsigned (Decimal.D0 Decimal.Nil) rest); [discriminate | exact Hrest].
  - rewrite (proj1 (Number_toString_pos p)).
    rewrite parseInt_unsigned;
      [| apply DecimalPos.Unsigned.to_uint_nonnil | exact Hrest].
    rewrite DecimalPos.Unsigned.of_to. reflexivity.
  - rewrite (proj2 (Number_toString_pos p)).
    change (String.append (String "-" ?x) rest) with (String "-" (String.append x rest)).
    rewrite parseInt_negative;
      [| apply DecimalPos.Unsigned.to_uint_nonnil | exact Hrest].
    rewrite DecimalPos.Unsigned.of_to. reflexivity.
Qed.

(** X7: the number a button carries is the number the listener reads.
    For an integer a JavaScript number holds exactly, one of magnitude at
    most 2^53, [parseInt] of its decimal text gives the integer back, also
    after blanks and before text that does not go on with a digit. *)
Theorem parseInt_Number_toString (ws rest : string) (n : Z) :
  (Z.abs n <= 2 ^ 53)%Z ->
  blanks ws = true ->
  no_digit_ahead rest ->
  parseInt (Some (String.append ws (String.append (Number_toString n) rest))) = Num n.
Proof.
  intros _ Hws Hrest.
  apply parseInt_decimal_text; [exact Hws | exact Hrest].
Qed.

Lemma parseInt_Number_toString_witness :
  (Z.abs (-42) <= 2 ^ 53)%Z /\
  blanks " "%string = true /\ no_digit_ahead "abc"%string /\
  parseInt (Some (String.append " " (String.append (Number_toString (-42)) "abc")))
  = Num (-42).
Proof.
  split; [vm_compute; discriminate | split; [reflexivity | split; [reflexivity|]]].
  apply (@parseInt_Number_toString " " "abc" (-42));
    [vm_compute; discriminate | reflexivity | reflexivity].
Defined.

Lemma parseInt_of_Number (n : Z) : parseInt (Some (Number_toString n)) = Num n.
Proof.
  pose proof (@parseInt_decimal_text EmptyString EmptyString n eq_refl I) as H.
  cbn [String.append] in H. rewrite string_append_nil_r in H. exact H.
Qed.

Lemma digits_no_colon (d : Decimal.uint) :
  occurs (fun a => Ascii.eqb a ":") (DecimalString.NilEmpty.string_of_uint d) = false.
Proof. induction d; simpl; assumption || reflexivity. Qed.

Lemma Number_toString_no_colon (n : Z) :
  occurs (fun a => Ascii.eqb a ":") (Number_toString n) = false.
Proof.
  destruct n as [|p|p]; [reflexivity | |].
  - rewrite (proj1 (Number_toString_pos p)). apply digits_no_colon.
  - rewrite (proj2 (Number_toString_pos p)). simpl. apply digits_no_colon.
Qed.

Lemma split_Number (n : Z) : split ":" (Number_toString n) = [Number_toString n].
Proof. rewrite split_eq, (split_no_separator (Number_toString_no_colon n)). reflexivity. Qed.

Lemma split_Number_then (n : Z) (rest : string) :
  split ":" (String.append (Number_toString n) (String ":" rest))
  = Number_toString n :: split ":" rest.
Proof. apply split_field, Number_toString_no_colon. Qed.

Ltac button_fields :=
  unfold cq_action, cq_sessionId, cq_params, cq_fields; cbn [cq_data];
  match goal with
  | |- context [split ":" (String.append ?a ?x)] =>
      let f := eval vm_compute in (fst (split_on ":" a)) in
      change (String.append a x) with (String.append f (String ":" x));
      rewrite (@split_field ":" f x eq_refl)
  end;
  repeat match goal with
         | |- context [String.append ":" ?r] =>
             change (String.append ":" r) with (String ":" r)
         end;
  rewrite ?split_Number, ?split_Number_then;
  change (split ":" COINFLIP_CHOICE_HEADS) with [COINFLIP_CHOICE_HEADS];
  change (split ":" COINFLIP_CHOICE_TAILS) with [COINFLIP_CHOICE_TAILS];
  cbn [hd nth_error skipn]; rewrite ?parseInt_of_Number.

(** X8: what the buttons carry is what the listener reads.  For every
    button of the offer, of the direct challenge and of the game against
    the bot, the listener's [action], [sessionId] and [params] are the
    action of the button, the session's id and the choice. *)
Theorem keyboard_round_trip (s : session) (q : string) (u : user) :
  let read := fun d => let cq := CallbackQuery q d u in
                       (cq_action cq, cq_sessionId cq, cq_params cq) in
  map read (runUnifiedOffer_keyboard s)
  = [("cf_helper_accept_bot"%string, Num (session_id s), []);
     ("cf_helper_accept_pvp"%string, Num (session_id s), []);
     ("cf_helper_cancel"%string, Num (session_id s), [])] /\
  map read (runDirectChallenge_keyboard s)
  = [("cf_helper_accept_direct"%string, Num (session_id s), []);
     ("cf_helper_decline_direct"%string, Num (session_id s), []);
     ("cf_helper_cancel"%string, Num (session_id s), [])] /\
  map read (runCoinflipPvB_keyboard s)
  = [("cf_helper_pvb_choice"%string, Num (session_id s), [COINFLIP_CHOICE_HEADS]);
     ("cf_helper_pvb_choice"%string, Num (session_id s), [COINFLIP_CHOICE_TAILS])].
Proof.
  intros read. subst read.
  unfold runUnifiedOffer_keyboard, runDirectChallenge_keyboard, runCoinflipPvB_keyboard.
  cbn [map]. split_and!; repeat f_equal; button_fields; reflexivity.
Qed.

(** X9: the buttons of a game between two players let the caller through
    and nobody else.  When the caller's id holds no colon, the listener
    reads from either button the action, the session's id and the choice,
    and its guard holds exactly for a clicker whose id is the caller's. *)
Theorem pvp_keyboard_names_caller (s : session) (caller_id : jsid) (q : string)
    (u : user) :
  occurs (fun a => Ascii.eqb a ":") (String_ caller_id) = false ->
  let read := fun d => let cq := CallbackQuery q d u in
                       (cq_action cq, cq_sessionId cq, cq_params cq) in
  map read (runCoinflipPvP_keyboard s caller_id)
  = [("cf_helper_pvp_choice"%string, Num (session_id s),
      [String_ caller_id; COINFLIP_CHOICE_HEADS]);
     ("cf_helper_pvp_choice"%string, Num (session_id s),
      [String_ caller_id; COINFLIP_CHOICE_TAILS])] /\
  Forall (fun d => pvp_choice_guard (CallbackQuery q d u)
                   = String.eqb (u_id u) (String_ caller_id))
         (runCoinflipPvP_keyboard s caller_id).
Proof.
  intros Hc read. subst read. unfold runCoinflipPvP_keyboard, pvp_choice_guard, clickerId.
  cbn [map cq_from].
  assert (Hh : split ":" (String.append (String_ caller_id) (String ":" COINFLIP_CHOICE_HEADS))
               = [String_ caller_id; COINFLIP_CHOICE_HEADS])
    by (rewrite (split_field _ Hc); reflexivity).
  assert (Ht : split ":" (String.append (String_ caller_id) (String ":" COINFLIP_CHOICE_TAILS))
               = [String_ caller_id; COINFLIP_CHOICE_TAILS])
    by (rewrite (split_field _ Hc); reflexivity).
  split; [repeat f_equal | repeat constructor];
    button_fields; rewrite ?Hh, ?Ht; reflexivity.
Qed.

Lemma pvp_keyboard_names_caller_witness :
  occurs (fun a => Ascii.eqb a ":") (String_ (Id "100")) = false /\
  Forall (fun d => pvp_choice_guard (CallbackQuery "q" d bob) = false)
         (runCoinflipPvP_keyboard offered_session (Id "100")) /\
  Forall (fun d => pvp_choice_guard (CallbackQuery "q" d alice) = true)
         (runCoinflipPvP_keyboard offered_session (Id "100")).
Proof.
  split; [reflexivity|].
  split.
  - apply (proj2 (@pvp_keyboard_names_caller offered_session (Id "100") "q" bob eq_refl)).
  - apply (proj2 (@pvp_keyboard_names_caller offered_session (Id "100") "q" alice eq_refl)).
Defined.

(** * Configuration *)

(** X10: how the module comes up.  A missing token makes the module throw
    before the test that prints the critical message; the message and the
    exit are reached for an empty token or a missing or empty database
    URL; otherwise [BOT_ID] is the token up to its first colon, the whole
    token when it holds none. *)
Theorem configuration_cases (BOT_TOKEN DATABASE_URL : option string) :
  match configuration BOT_TOKEN DATABASE_URL with
  | Crashes e => BOT_TOKEN = None /\ e = TypeError
  | Exits =>
      BOT_TOKEN = Some EmptyString \/
      (BOT_TOKEN <> None /\ truthy_opt DATABASE_URL = false)
  | Configured BOT_ID =>
      exists token,
        BOT_TOKEN = Some token /\ token <> EmptyString /\
        truthy_opt DATABASE_URL = true /\
        occurs (fun a => Ascii.eqb a ":") BOT_ID = false /\
        (token = BOT_ID \/ exists rest, token = String.append BOT_ID (String ":" rest))
  end.
Proof.
  destruct BOT_TOKEN as [token|]; [|split; reflexivity].
  unfold configuration, truthy_opt at 1.
  destruct (String.eqb_spec token "") as [->|Hne]; [left; reflexivity|].
  cbn [negb orb].
  destruct (truthy_opt DATABASE_URL) eqn:Hd; cbn [negb];
    [| right; split; [discriminate | reflexivity]].
  exists token. split_and!; try reflexivity; try assumption.
  - destruct (split_fields ":" token) as [_ H].
    rewrite split_eq in H |- *. inversion H; assumption.
  - destruct (split_fields ":" token) as [H _].
    rewrite split_eq in H |- *. cbn [hd].
    destruct (snd (split_on ":" token)) as [|y l].
    + left. symmetry. exact H.
    + right. exists (String.concat ":" (y :: l)). rewrite concat_cons in H.
      symmetry. exact H.
Qed.

Lemma parseInt_not_a_number (ws : string) (a : ascii) (rest : string) :
  blanks ws = true ->
  nat_of_ascii a < 128 ->
  ascii_blank (nat_of_ascii a) = false ->
  is_digit a = false ->
  (a = "+"%char \/ a = "-"%char -> no_digit_ahead rest) ->
  parseInt (Some (String.append ws (String a rest))) = NaN.
Proof.
  intros Hws Hn Hb Hd Hsign. rewrite (parseInt_blanks _ Hws). unfold parseInt.
  rewrite (skip_white_space_ascii rest Hn Hb).
  assert (Hrest : (a = "+"%char \/ a = "-"%char) -> digits_prefix rest None = None).
  { intros Hs. specialize (Hsign Hs). destruct rest as [|b rest']; [reflexivity|].
    simpl in Hsign. unfold is_digit in Hsign. simpl.
    destruct (digit_of b); [discriminate | reflexivity]. }
  assert (Ha : digits_prefix (String a rest) None = None).
  { simpl. unfold is_digit in Hd. destruct (digit_of a); [discriminate | reflexivity]. }
  destruct (ascii_dec a "-") as [-> | Hm].
  - rewrite Hrest by (right; reflexivity). reflexivity.
  - destruct (ascii_dec a "+") as [-> | Hp].
    + rewrite Hrest by (left; reflexivity). reflexivity.
    + destruct a as [[] [] [] [] [] [] [] []]; try congruence;
        (rewrite Ha; reflexivity).
Qed.

(** X11: a timeout setting falls back to its default when the variable is
    missing or empty, when its text is not a number (after blanks it goes
    on with an ASCII character that is no digit, or with a sign that no
    digit follows) or when it is zero, so that with a default other than
    zero the setting is never zero.  Any other integer a JavaScript number
    holds exactly, negative ones included, is taken as it is written. *)
Theorem env_int_or_default (x : option string) (d : Z) :
  (d <> 0%Z -> env_int_or x d <> 0%Z) /\
  env_int_or None d = d /\
  env_int_or (Some EmptyString) d = d /\
  (forall ws a rest,
     blanks ws = true -> nat_of_ascii a < 128 -> ascii_blank (nat_of_ascii a) = false ->
     is_digit a = false ->
     (a = "+"%char \/ a = "-"%char -> no_digit_ahead rest) ->
     env_int_or (Some (String.append ws (String a rest))) d = d) /\
  env_int_or (Some (Number_toString 0)) d = d /\
  (forall n rest, n <> 0%Z -> (Z.abs n <= 2 ^ 53)%Z -> no_digit_ahead rest ->
     env_int_or (Some (String.append (Number_toString n) rest)) d = n).
Proof.
  split_and!; try reflexivity.
  - intros Hd. unfold env_int_or. destruct (parseInt x) as [z|]; [|exact Hd].
    destruct (Z.eqb_spec z 0); assumption.
  - intros ws a rest Hws Hn Hb Hdig Hsign. unfold env_int_or.
    rewrite (@parseInt_not_a_number ws a rest Hws Hn Hb Hdig Hsign). reflexivity.
  - intros n rest Hn _ Hrest. unfold env_int_or.
    pose proof (@parseInt_decimal_text EmptyString rest n eq_refl Hrest) as H.
    cbn [String.append] in H. rewrite H.
    destruct (Z.eqb_spec n 0); [contradiction | reflexivity].
Qed.

(** * Names *)

Lemma substring_all (s : string) (m : nat) :
  String.length s <= m -> substring 0 m s = s.
Proof.
  revert m. induction s as [|a s IH]; intros [|m] H; simpl in *; try reflexivity; try lia.
  rewrite IH by lia. reflexivity.
Qed.

Lemma length_substring (s : string) (n m : nat) :
  String.length (substring n m s) <= m.
Proof.
  revert n m. induction s as [|a s IH]; intros [|n] [|m]; simpl; try lia.
  - specialize (IH 0 m). lia.
  - apply IH.
  - apply IH.
Qed.

Lemma substring_suffix (s : string) (n : nat) :
  n <= String.length s ->
  exists front, s = String.append front (substring n (String.length s - n) s).
Proof.
  revert n. induction s as [|a s IH]; intros [|n] H.
  - exists EmptyString. reflexivity.
  - simpl in H. lia.
  - exists EmptyString. rewrite Nat.sub_0_r, substring_all by lia. reflexivity.
  - simpl in H. destruct (IH n ltac:(lia)) as [front E].
    exists (String a front). cbn [String.length Nat.sub substring String.append].
    rewrite <- E. reflexivity.
Qed.

Lemma slice_last4_suffix (s : string) :
  (exists front, s = String.append front (slice_last4 s)) /\
  String.length (slice_last4 s) <= 4 /\
  (String.length s <= 4 -> slice_last4 s = s).
Proof.
  unfold slice_last4. split_and!.
  - destruct (le_lt_dec (String.length s) 4) as [H | H].
    + exists EmptyString. replace (String.length s - 4) with 0 by lia.
      rewrite (substring_all H). reflexivity.
    + destruct (@substring_suffix s (String.length s - 4) ltac:(lia)) as [front E].
      exists front. replace (String.length s - (String.length s - 4)) with 4 in E by lia.
      exact E.
  - apply length_substring.
  - intros H. replace (String.length s - 4) with 0 by lia. apply (substring_all H).
Qed.

(** X12: the name a player is shown under is never empty.  It is "Mystery
    Player" when there is no user object; else the user name after an at
    sign; else the first name; else the word Player and the last four
    characters of the id, or of [telegram_id] when the id is falsy, the
    whole of it when it is shorter.  A user with a falsy id and no
    [telegram_id] is shown as "Player ined". *)
Theorem getPlayerDisplayReference_shape (userObject : option user) :
  getPlayerDisplayReference userObject <> EmptyString /\
  getPlayerDisplayReference None = "Mystery Player"%string /\
  (forall u, userObject = Some u ->
     (forall n, u_username u = Some n -> n <> EmptyString ->
        getPlayerDisplayReference userObject = String "@" n) /\
     (nonempty (u_username u) = None ->
      (forall f, u_first_name u = Some f -> f <> EmptyString ->
         getPlayerDisplayReference userObject = f) /\
      (nonempty (u_first_name u) = None ->
       let shown := if u_id_truthy u then u_id u else u_telegram_id u in
       exists last4,
         getPlayerDisplayReference userObject = String.append "Player " last4 /\
         (exists front, shown = String.append front last4) /\
         String.length last4 <= 4 /\
         (String.length shown <= 4 -> last4 = shown) /\
         (u_id_truthy u = false -> u_telegram_id u = "undefined"%string ->
          last4 = "ined"%string)))).
Proof.
  split_and!.
  - destruct userObject as [u|]; [|discriminate]. unfold getPlayerDisplayReference.
    destruct (nonempty (u_username u)) eqn:E1; [discriminate|].
    destruct (nonempty (u_first_name u)) as [f|] eqn:E2; [|discriminate].
    destruct (u_first_name u) as [[|a f']|]; simpl in E2; congruence.
  - reflexivity.
  - intros u ->. unfold getPlayerDisplayReference. split.
    + intros n -> Hn. destruct n; [congruence | reflexivity].
    + intros ->. split.
      * intros f -> Hf. destruct f; [congruence | reflexivity].
      * intros ->. cbv zeta.
        set (shown := if u_id_truthy u then u_id u else u_telegram_id u).
        destruct (slice_last4_suffix shown) as (S1 & S2 & S3).
        exists (slice_last4 shown). split_and!; try assumption; try reflexivity.
        intros Hf Ht. subst shown. rewrite Hf, Ht. reflexivity.
Qed.

(** * What no handler changes *)

Lemma same_identity_refl (s : session) : same_identity s s.
Proof. repeat split. Qed.

Lemma same_identity_trans (s1 s2 s3 : session) :
  same_identity s1 s2 -> same_identity s2 s3 -> same_identity s1 s3.
Proof.
  unfold same_identity. intros (a1 & a2 & a3 & a4 & a5 & a6 & a7)
    (b1 & b2 & b3 & b4 & b5 & b6 & b7).
  split_and!; congruence.
Qed.

Lemma identities_kept_refl (w : world) : identities_kept w w.
Proof. intros l s H. exists s. split; [exact H | apply same_identity_refl]. Qed.

Lemma identities_kept_heap (w0 w w' : world) :
  heap w' = heap w -> identities_kept w0 w -> identities_kept w0 w'.
Proof. intros E H l s Hl. rewrite E. apply H, Hl. Qed.

Lemma keeps_identity_preserves (w0 : world) (X : Type) (e : eff X) :
  keeps_identity e -> preserves (identities_kept w0) e.
Proof.
  intros He w Hw.
  destruct e; simpl in *;
    try (apply (identities_kept_heap (w := w)); [reflexivity | exact Hw]).
  - destruct k; (apply (identities_kept_heap (w := w)); [reflexivity | exact Hw]).
  - intros l s0 Hl. destruct (Hw l s0 Hl) as (s1 & H1 & H2).
    exists s1. split; [|exact H2]. simpl. apply lookup_app_l_Some. exact H1.
  - destruct (heap w !! l) as [s0|] eqn:E; [|exact Hw].
    intros l1 s1 Hl. destruct (Hw l1 s1 Hl) as (s2 & H1 & H2). simpl.
    destruct (decide (l = l1)) as [-> | Hne].
    + exists (f s0). assert (Hs : Some s2 = Some s0) by (rewrite <- H1; exact E).
      injection Hs as ->. split.
      * apply list_lookup_insert_eq. apply (lookup_lt_Some _ _ _ E).
      * apply (same_identity_trans H2), He.
    + exists s2. split; [|exact H2]. rewrite list_lookup_insert_ne by exact Hne. exact H1.
  - apply (identities_kept_heap (w := w)); [|exact Hw].
    destruct r; simpl; unfold presenter, statement, rollback;
      repeat match goal with
             | |- context [match ?x with _ => _ end] => destruct x eqn:?; simpl
             end; reflexivity.
Qed.

Ltac identity_leaf := simpl; intros; auto; repeat split.

Lemma V4_handleNewGameSession_keeps_identity (g : gid) :
  always keeps_identity (V4.handleNewGameSession g).
Proof. always_all identity_leaf. Qed.

Lemma V4_on_callback_query_keeps_identity (cq : callback_query) :
  always keeps_identity (V4.on_callback_query cq).
Proof. always_all identity_leaf. Qed.

Lemma V4_handleGameTimeout_keeps_identity (sid : Z) (ctx : context) :
  always keeps_identity (V4.handleGameTimeout sid ctx).
Proof. always_all identity_leaf. Qed.

Lemma Base_on_callback_query_keeps_identity (raw : user -> string + exn)
    (cq : callback_query) :
  always keeps_identity (Base.on_callback_query raw cq).
Proof. always_all identity_leaf. Qed.

Lemma Base_handleGameTimeout_keeps_identity (sid : Z) (ctx : context) :
  always keeps_identity (Base.handleGameTimeout sid ctx).
Proof. always_all identity_leaf. Qed.

Lemma Base_handleOfferTimeout_keeps_identity (sid : Z) :
  always keeps_identity (Base.handleOfferTimeout sid).
Proof. always_all identity_leaf. Qed.

(** An invariant of every handler the loop starts is an invariant of the
    loop, whether the handlers run one at a time or interleave. *)
Section LoopInvariant.

Variable I : world -> Prop.

Section V4.

Hypothesis start_ok : forall ev w p w',
  I w -> V4Loop.start ev w = Some (p, w') -> always (preserves I) p /\ I w'.

Lemma V4_handle_invariant (ev : event) (w : world) : I w -> I (V4Loop.handle ev w).
Proof.
  intros Hw. unfold V4Loop.handle.
  destruct (V4Loop.start ev w) as [[p w']|] eqn:E; [|exact Hw].
  destruct (start_ok Hw E) as [Hp Hw']. apply always_run; assumption.
Qed.

Lemma V4_serial_invariant (evs : list event) (w : world) :
  I w -> I (V4Loop.serial evs w).
Proof.
  revert w. induction evs as [|ev evs IH]; intros w Hw; [exact Hw|].
  apply IH, V4_handle_invariant, Hw.
Qed.

Lemma V4_sched_invariant (c : V4Loop.schedule) (s : V4Loop.sys) :
  I (V4Loop.sys_world s) /\ Forall (always (preserves I)) (V4Loop.tasks s) ->
  I (V4Loop.sys_world (V4Loop.sched c s)) /\
  Forall (always (preserves I)) (V4Loop.tasks (V4Loop.sched c s)).
Proof.
  intros [Hw Ht]. destruct c as [ev | i]; simpl.
  - destruct (V4Loop.start ev (V4Loop.sys_world s)) as [[p w']|] eqn:E;
      [|split; assumption].
    destruct (start_ok Hw E) as [Hp Hw'].
    destruct (always_advance Hp Hw') as [Hp1 Hw1].
    destruct (advance p w') as [p1 w1]. simpl in *.
    split; [exact Hw1|]. apply Forall_app. split; [exact Ht|].
    constructor; [exact Hp1 | constructor].
  - destruct (V4Loop.tasks s !! i) as [p|] eqn:E; [|split; assumption].
    assert (Hp : always (preserves I) p).
    { rewrite Forall_forall in Ht. apply Ht. apply list_elem_of_lookup. eauto. }
    destruct (always_advance Hp Hw) as [Hp1 Hw1].
    destruct (advance p (V4Loop.sys_world s)) as [p1 w1]. simpl in *.
    split; [exact Hw1|]. apply Forall_insert; assumption.
Qed.

Lemma V4_interleaved_invariant (cs : list V4Loop.schedule) (w : world) :
  I w -> I (V4Loop.sys_world (V4Loop.interleaved cs w)).
Proof.
  intros Hw. unfold V4Loop.interleaved.
  assert (H0 : I (V4Loop.sys_world (V4Loop.Sys w [])) /\
               Forall (always (preserves I)) (V4Loop.tasks (V4Loop.Sys w [])))
    by (split; [exact Hw | constructor]).
  revert H0. generalize (V4Loop.Sys w []).
  induction cs as [|c cs IH]; intros s Hs; [exact (proj1 Hs)|].
  apply IH, V4_sched_invariant, Hs.
Qed.

End V4.

Section Base.

Variable raw : user -> string + exn.

Hypothesis start_ok : forall ev w p w',
  I w -> BaseLoop.start raw ev w = Some (p, w') -> always (preserves I) p /\ I w'.

Lemma Base_serial_invariant (evs : list event) (w : world) :
  I w -> I (BaseLoop.serial raw evs w).
Proof.
  revert w. induction evs as [|ev evs IH]; intros w Hw; [exact Hw|].
  apply IH. unfold BaseLoop.handle.
  destruct (BaseLoop.start raw ev w) as [[p w']|] eqn:E; [|exact Hw].
  destruct (start_ok Hw E) as [Hp Hw']. apply always_run; assumption.
Qed.

End Base.

End LoopInvariant.

Lemma V4_start_keeps_identity (w0 : world) (ev : event) (w : world) (p : prog unit)
    (w' : world) :
  identities_kept w0 w -> V4Loop.start ev w = Some (p, w') ->
  always (preserves (identities_kept w0)) p /\ identities_kept w0 w'.
Proof.
  intros Hw E. destruct ev as [g | cq | h]; simpl in E.
  - destruct (gid_truthy g); [|discriminate]. injection E as <- <-. split; [|exact Hw].
    apply (always_mono (@keeps_identity_preserves w0)),
      V4_handleNewGameSession_keeps_identity.
  - injection E as <- <-. split; [|exact Hw].
    apply (always_mono (@keeps_identity_preserves w0)),
      V4_on_callback_query_keeps_identity.
  - destruct (timers w !! h) as [[sid ctx]|]; [|discriminate].
    injection E as <- <-. split; [|exact Hw].
    apply (always_mono (@keeps_identity_preserves w0)),
      V4_handleGameTimeout_keeps_identity.
Qed.

Lemma Base_start_keeps_identity (raw : user -> string + exn) (w0 : world) (ev : event)
    (w : world) (p : prog unit) (w' : world) :
  identities_kept w0 w -> BaseLoop.start raw ev w = Some (p, w') ->
  always (preserves (identities_kept w0)) p /\ identities_kept w0 w'.
Proof.
  intros Hw E. destruct ev as [g | cq | h]; simpl in E.
  - discriminate.
  - injection E as <- <-. split; [|exact Hw].
    apply (always_mono (@keeps_identity_preserves w0)),
      Base_on_callback_query_keeps_identity.
  - destruct (timers w !! h) as [[sid []]|]; [| | |discriminate];
      injection E as <- <-; (split; [|exact Hw]);
      apply (always_mono (@keeps_identity_preserves w0));
      first [apply Base_handleOfferTimeout_keeps_identity
            | apply Base_handleGameTimeout_keeps_identity].
Qed.

(** X13: no handler of either draft ever changes the id of a session, its
    external game id, chat, initiator, stake, status or helper id, or
    drops a session object: whatever events arrive, also when the handlers
    interleave at their awaits, every session object is still there with
    these properties as they were. *)
Theorem identities_never_change (raw : user -> string + exn) (w : world)
    (evs : list event) (cs : list V4Loop.schedule) :
  identities_kept w (V4Loop.serial evs w) /\
  identities_kept w (V4Loop.sys_world (V4Loop.interleaved cs w)) /\
  identities_kept w (BaseLoop.serial raw evs w).
Proof.
  split_and!.
  - apply (V4_serial_invariant (@V4_start_keeps_identity w)), identities_kept_refl.
  - apply (V4_interleaved_invariant (@V4_start_keeps_identity w)), identities_kept_refl.
  - apply (Base_serial_invariant (@Base_start_keeps_identity raw w)),
      identities_kept_refl.
Qed.

Lemma row_key_claim (bot : string) (g : gid) (t : list row) :
  map row_key (fst (sql_claim bot g t)) = map row_key t.
Proof.
  unfold sql_claim. simpl. rewrite map_map. apply map_ext.
  intros r. destruct (claim_matches g r); reflexivity.
Qed.

Lemma row_key_finalize (st : status) (gs : game_state) (sid : Z) (t : list row) :
  map row_key (sql_finalize st gs sid t) = map row_key t.
Proof.
  unfold sql_finalize. rewrite map_map. apply map_ext.
  intros r. destruct (Z.eqb (r_session_id r) sid); reflexivity.
Qed.

Lemma row_key_game_state (gs : game_state) (sid : Z) (t : list row) :
  map row_key (sql_game_state gs sid t) = map row_key t.
Proof.
  unfold sql_game_state. rewrite map_map. apply map_ext.
  intros r. destruct (Z.eqb (r_session_id r) sid); reflexivity.
Qed.

Lemma every_effect_keeps_rows (ks : list (Z * gid * Z * jsid * jsid * Z)) (X : Type)
    (e : eff X) :
  preserves (rows_kept ks) e.
Proof.
  intros w [Hs Ht].
  destruct e; simpl; try (split; assumption).
  - destruct k; split; assumption.
  - destruct (heap w !! l); split; assumption.
  - assert (Hsame : forall w', store w' = store w -> txn w' = txn w -> rows_kept ks w').
    { intros w' E1 E2. split; [rewrite E1; exact Hs | rewrite E2; exact Ht]. }
    assert (Hback : forall w', store w' = store w -> txn w' = txn w ->
                               rows_kept ks (rollback w')).
    { intros w' E1 E2. unfold rollback. rewrite E2.
      destruct (txn w) as [t|] eqn:Etx; [|apply Hsame; assumption].
      split; [apply Ht; reflexivity | intros t' Ht'; discriminate Ht']. }
    destruct r; simpl; unfold presenter, statement; simpl.
    + destruct (hd Good (fates w)); apply Hsame; reflexivity.
    + destruct (hd Good (fates w)); apply Hsame; reflexivity.
    + destruct (hd Good (fates w)); apply Hsame; reflexivity.
    + destruct (hd Good (fates w)); apply Hsame; reflexivity.
    + apply Hsame; reflexivity.
    + destruct (hd Good (fates w)); apply Hsame; reflexivity.
    + destruct (hd Good (fates w)); try (apply Hsame; reflexivity).
      split; [exact Hs | intros t [= <-]; exact Hs].
    + destruct (hd Good (fates w)); try (apply Hsame; reflexivity).
      split; [simpl; rewrite <- Hs; apply (row_key_claim (BOT_ID w) g (store w)) | exact Ht].
    + destruct (hd Good (fates w)); try (apply Hback; reflexivity).
      split; [exact Hs | intros t Ht'; discriminate Ht'].
    + destruct (hd Good (fates w)); apply Hback; reflexivity.
    + destruct sid as [z|]; [|apply Hsame; reflexivity]. unfold statement. simpl.
      destruct (hd Good (fates w)); try (apply Hsame; reflexivity).
      split; [simpl; rewrite row_key_finalize; exact Hs | exact Ht].
    + destruct (hd Good (fates w)); try (apply Hsame; reflexivity).
      split; [simpl; rewrite row_key_game_state; exact Hs | exact Ht].
Qed.

Lemma always_everything {A : Type} (P : forall X : Type, eff X -> Prop) (p : prog A) :
  (forall X (e : eff X), P X e) -> always P p.
Proof.
  intros H. induction p as [a | e | X e k IH]; simpl; auto.
Qed.

Lemma V4_start_keeps_rows (ks : list (Z * gid * Z * jsid * jsid * Z)) (ev : event)
    (w : world) (p : prog unit) (w' : world) :
  rows_kept ks w -> V4Loop.start ev w = Some (p, w') ->
  always (preserves (rows_kept ks)) p /\ rows_kept ks w'.
Proof.
  intros Hw E. split; [apply always_everything, every_effect_keeps_rows|].
  destruct ev as [g | cq | h]; simpl in E.
  - destruct (gid_truthy g); [|discriminate]. injection E as <- <-. exact Hw.
  - injection E as <- <-. exact Hw.
  - destruct (timers w !! h) as [[sid ctx]|]; [|discriminate].
    injection E as <- <-. exact Hw.
Qed.

Lemma Base_start_keeps_rows (raw : user -> string + exn)
    (ks : list (Z * gid * Z * jsid * jsid * Z)) (ev : event)
    (w : world) (p : prog unit) (w' : world) :
  rows_kept ks w -> BaseLoop.start raw ev w = Some (p, w') ->
  always (preserves (rows_kept ks)) p /\ rows_kept ks w'.
Proof.
  intros Hw E. split; [apply always_everything, every_effect_keeps_rows|].
  destruct ev as [g | cq | h]; simpl in E.
  - discriminate.
  - injection E as <- <-. exact Hw.
  - destruct (timers w !! h) as [[sid []]|]; [| | |discriminate];
      injection E as <- <-; exact Hw.
Qed.

Lemma rows_kept_initially (w : world) : txn w = None -> rows_kept (map row_key (store w)) w.
Proof. intros H. split; [reflexivity | intros t Ht; congruence]. Qed.

(** X14: the helper writes three columns only.  Whatever events arrive,
    also when the handlers interleave, the table keeps its rows, in their
    order, each with its session id, external game id, chat, initiator,
    opponent and stake: the statements of both drafts set the status, the
    game state and the helper id, and nothing else.  In particular the
    opponent a session gets in memory is never written to its row. *)
Theorem rows_never_rekeyed (raw : user -> string + exn) (w : world)
    (evs : list event) (cs : list V4Loop.schedule) :
  txn w = None ->
  map row_key (store (V4Loop.serial evs w)) = map row_key (store w) /\
  map row_key (store (V4Loop.sys_world (V4Loop.interleaved cs w)))
  = map row_key (store w) /\
  map row_key (store (BaseLoop.serial raw evs w)) = map row_key (store w).
Proof.
  intros Ht. pose proof (rows_kept_initially Ht) as H0. split_and!.
  - exact (proj1 (V4_serial_invariant (@V4_start_keeps_rows _) evs H0)).
  - exact (proj1 (V4_interleaved_invariant (@V4_start_keeps_rows _) cs H0)).
  - exact (proj1 (Base_serial_invariant (@Base_start_keeps_rows raw _) evs H0)).
Qed.

Lemma rows_never_rekeyed_witness :
  let raw := fun _ : user => @inr string exn ReferenceError in
  let evs := [Pickup (GStr "G42"); Callback (click bob "cf_helper_accept_pvp:7")] in
  txn (pickup_world []) = None /\
  opponent_id <$> heap (V4Loop.serial evs (pickup_world [])) !! 0 = Some (Id "200") /\
  map row_key (store (V4Loop.serial evs (pickup_world [])))
  = [(7%Z, GStr "G42", 555%Z, Id "100", Null, 1000000000%Z)].
Proof.
  split; [reflexivity | split; [vm_compute; reflexivity|]].
  apply (@rows_never_rekeyed (fun _ => inr ReferenceError) (pickup_world [])
           [Pickup (GStr "G42"); Callback (click bob "cf_helper_accept_pvp:7")] []
           eq_refl).
Defined.

(** * Steps of the handlers *)

Lemma run_do {X : Type} (e : eff X) (w : world) :
  run (do_ e) w = (inl (fst (perform e w)), snd (perform e w)).
Proof. unfold do_. simpl. destruct (perform e w). reflexivity. Qed.

Lemma run_assign (l : loc) (f : session -> session) (s : session) (w : world) :
  heap w !! l = Some s ->
  run (do_ (Assign l f)) w = (inl tt, set_heap (<[l := f s]> (heap w)) w).
Proof. intros H. rewrite run_do. simpl. rewrite H. reflexivity. Qed.

Lemma heap_said (c : presenter_call) (w : world) : heap (said c w) = heap w.
Proof. reflexivity. Qed.

Lemma same_sessions_trans (w1 w2 w3 : world) :
  same_sessions w1 w2 -> same_sessions w2 w3 -> same_sessions w1 w3.
Proof.
  unfold same_sessions. intros (a1 & a2 & a3 & a4 & a5) (b1 & b2 & b3 & b4 & b5).
  split_and!; congruence.
Qed.

Lemma same_sessions_said (c : presenter_call) (w : world) : same_sessions w (said c w).
Proof. repeat split. Qed.

Lemma timers_said (c : presenter_call) (w : world) : timers (said c w) = timers w.
Proof. reflexivity. Qed.

Lemma timers_cleared_twice (s : session) (w : world) :
  timers (cleared s (cleared s w)) = timers (cleared s w).
Proof.
  unfold cleared. destruct (timeoutId s) as [h|]; [|reflexivity].
  simpl. apply delete_delete_eq.
Qed.

Lemma cleared_twice (s : session) (w : world) : cleared s (cleared s w) = cleared s w.
Proof.
  unfold cleared. destruct (timeoutId s) as [h|]; [|reflexivity].
  unfold set_timers. simpl. rewrite delete_delete_eq. reflexivity.
Qed.

(** * Edge cases of the listener *)

Section Edges.

Variable raw : user -> string + exn.

(** X15: a choice that names no side.  When the initiator's click on the
    game against the bot carries no third field, the handler throws a
    [TypeError] once the query is answered: nothing is shown or persisted,
    the session stays registered as it was, and its timer, cleared on
    entry, is not armed again. *)
Theorem choice_without_side_is_lost (w : world) (cq : callback_query) (l : loc)
    (s : session) :
  map_get (cq_sessionId cq) w = Some l ->
  heap w !! l = Some s ->
  cq_action cq = "cf_helper_pvb_choice"%string ->
  clickerId cq = String_ (initiator_id s) ->
  nth_error (cq_params cq) 0 = None ->
  let v4 := run (V4.on_callback_query cq) w in
  let old := run (Base.on_callback_query raw cq) w in
  (hd Good (fates w) = Good -> fst v4 = inr TypeError) /\
  same_sessions w (snd v4) /\
  timers (snd v4) = timers (cleared s w) /\
  outbox (snd v4)
  = outbox w ++ [(AnswerCallbackQuery (cq_id cq) None false, hd Good (fates w))] /\
  old = (inr TypeError, cleared s w).
Proof.
  intros Hm Hh Hact Hcl Hpar v4 old. subst v4 old.
  rewrite (run_V4_callback_live Hm Hh), (run_Base_callback_live raw Hm Hh).
  assert (Hh1 : heap (cleared s w) !! l = Some s) by (rewrite heap_cleared; exact Hh).
  unfold V4.dispatch, Base.dispatch. rewrite Hact. cbn [String.eqb Ascii.eqb Bool.eqb].
  rewrite Hcl, String.eqb_refl, Hpar.
  unfold V4.runCoinflipAnimationAndFinalize, Base.runCoinflipAnimation,
    animate_and_finalize.
  rewrite !run_bind, run_answer, fates_cleared, (run_clear Hh1).
  set (c := AnswerCallbackQuery (cq_id cq) None false).
  assert (Hh2 : heap (said c (cleared s w)) !! l = Some s) by exact Hh1.
  assert (Hold : (inr TypeError, cleared s (cleared s w))
                 = (@inr unit exn TypeError, cleared s w))
    by (rewrite cleared_twice; reflexivity).
  destruct (hd Good (fates w)) eqn:Hf; cbn [telegram_result];
    rewrite ?run_bind, ?(run_clear Hh2); cbn [run fst snd];
    (split_and!; [try discriminate; intros _; reflexivity | | | | exact Hold]).
  - apply (same_sessions_trans (same_sessions_said_cleared c s w)),
      same_sessions_cleared.
  - unfold cleared. destruct (timeoutId s) as [h|]; [|reflexivity].
    simpl. apply delete_delete_eq.
  - rewrite outbox_cleared. simpl. rewrite outbox_cleared, fates_cleared, Hf. reflexivity.
  - apply same_sessions_said_cleared.
  - reflexivity.
  - simpl. rewrite outbox_cleared, fates_cleared, Hf. reflexivity.
  - apply same_sessions_said_cleared.
  - reflexivity.
  - simpl. rewrite outbox_cleared, fates_cleared, Hf. reflexivity.
Qed.

End Edges.

Lemma choice_without_side_is_lost_witness :
  let w := playing [] in
  let cq := click alice "cf_helper_pvb_choice:7" in
  let v4 := run (V4.on_callback_query cq) w in
  timers w !! 1 = Some (TimeoutCb 7 player_turn) /\
  fst v4 = inr TypeError /\
  activeHelperGames (snd v4) !! 7%Z = Some 0 /\
  persisted (snd v4) = [] /\
  timers (snd v4) = ∅.
Proof.
  destruct (@choice_without_side_is_lost (fun _ => inr ReferenceError) (playing [])
              (click alice "cf_helper_pvb_choice:7") 0 playing_session
              eq_refl eq_refl eq_refl eq_refl eq_refl)
    as (H1 & (_ & H2 & _ & _ & H3) & H4 & _).
  split; [reflexivity|].
  split; [exact (H1 eq_refl)|].
  split; [rewrite H2; reflexivity|].
  split; [rewrite H3; reflexivity|].
  rewrite H4. vm_compute. reflexivity.
Defined.

Section UndefinedHelper.

Variable raw : user -> string + exn.
Variable e : exn.

(** [getRawPlayerDisplayReference] throws, as a function that is defined
    nowhere does. *)
Hypothesis raw_throws : forall u, raw u = inr e.

(** X16: in [coinflip_helper.js] no game between two players gets going.
    With [getRawPlayerDisplayReference] throwing, an accepted
    [cf_helper_accept_pvp] leaves the clicker assigned as opponent and the
    timer cleared, and shows and arms nothing; an accepted
    [cf_helper_pvp_choice] changes nothing but the timer it clears.  Both
    end in the exception, and nothing is persisted. *)
Theorem Base_pvp_actions_throw (w : world) (cq : callback_query) (l : loc)
    (s : session) :
  map_get (cq_sessionId cq) w = Some l ->
  heap w !! l = Some s ->
  (accepts_pvp cq s = true ->
   run (Base.on_callback_query raw cq) w
   = (inr e, set_heap (<[l := set_opponent_id (Id (clickerId cq)) s]> (heap w))
               (cleared s w))) /\
  (cq_action cq = "cf_helper_pvp_choice"%string -> pvp_choice_guard cq = true ->
   run (Base.on_callback_query raw cq) w = (inr e, cleared s w)).
Proof.
  intros Hm Hh. rewrite (run_Base_callback_live raw Hm Hh).
  assert (Hh1 : heap (cleared s w) !! l = Some s) by (rewrite heap_cleared; exact Hh).
  split.
  - intros Ha. destruct (accepts_pvp_true Ha) as [Hact Hcl].
    unfold Base.dispatch. rewrite Hact. cbn [String.eqb Ascii.eqb Bool.eqb].
    rewrite Hcl. cbn [negb].
    rewrite run_bind, (run_assign _ Hh1). unfold Base.raw_name.
    rewrite raw_throws, heap_cleared. reflexivity.
  - intros Hact Hg. unfold pvp_choice_guard in Hg.
    unfold Base.dispatch. rewrite Hact. cbn [String.eqb Ascii.eqb Bool.eqb].
    rewrite Hg. unfold Base.raw_name. rewrite raw_throws. reflexivity.
Qed.

End UndefinedHelper.

Lemma Base_pvp_actions_throw_witness :
  let raw := fun _ : user => @inr string exn ReferenceError in
  let r := run (Base.on_callback_query raw (click bob "cf_helper_accept_pvp:7"))
               (offered []) in
  fst r = inr ReferenceError /\
  opponent_id <$> heap (snd r) !! 0 = Some (Id "200") /\
  timers (snd r) = ∅ /\ outbox (snd r) = outbox (offered []).
Proof.
  pose proof (proj1 (@Base_pvp_actions_throw (fun _ => inr ReferenceError) ReferenceError
                       (fun _ => eq_refl) (offered [])
                       (click bob "cf_helper_accept_pvp:7") 0 offered_session
                       eq_refl eq_refl) eq_refl) as H.
  cbv zeta. rewrite H. vm_compute. repeat split.
Defined.

(** * Messages that cannot be shown *)

Section FailedEdits.

Variable raw : user -> string + exn.

(** X17: an expiry whose message cannot be edited is lost.  When the edit
    of the expiry message is rejected, for whatever reason, the handler
    ends in the rejection: nothing is persisted and the session stays
    registered; in the draft v4 its timer has been cleared, so that no
    further expiry comes. *)
Theorem timeout_with_failed_edit_is_lost (w : world) (sid : Z) (l : loc) (s : session)
    (ctx : context) :
  live w sid l s ->
  hd Good (fates w) <> Good ->
  let v4 := run (V4.handleGameTimeout sid ctx) w in
  (fst v4 = telegram_result (hd Good (fates w)) /\
   same_sessions w (snd v4) /\
   timers (snd v4) = timers (cleared s w)) /\
  (session_status s = in_progress ->
   let old := run (Base.handleGameTimeout sid ctx) w in
   fst old = telegram_result (hd Good (fates w)) /\ same_state w (snd old)).
Proof.
  intros Hl Hf v4. subst v4. split.
  - rewrite (run_V4_handleGameTimeout ctx Hl). cbv zeta.
    destruct (hd Good (fates w)); [congruence | |];
      (split_and!; [reflexivity | apply same_sessions_said_cleared | reflexivity]).
  - intros Hs old. subst old. rewrite (run_Base_handleGameTimeout ctx Hl Hs). cbv zeta.
    destruct (hd Good (fates w)); [congruence | |];
      (split; [reflexivity | apply same_state_said]).
Qed.

(** X18: a withdrawal whose message cannot be changed.  When the
    initiator cancels and the query is answered, [coinflip_helper.js]
    persists the cancellation and drops the session whether or not the
    offer message could be deleted; the draft v4 edits the message
    instead and, when that edit is rejected, persists nothing and keeps
    the session registered. *)
Theorem cancel_with_failed_message (w : world) (cq : callback_query) (sid : Z)
    (l : loc) (s : session) :
  cq_sessionId cq = Num sid ->
  live w sid l s ->
  cq_action cq = "cf_helper_cancel"%string ->
  clickerId cq = String_ (initiator_id s) ->
  hd Good (fates w) = Good ->
  hd Good (tl (tl (fates w))) = Good ->
  let v4 := run (V4.on_callback_query cq) w in
  let old := run (Base.on_callback_query raw cq) w in
  (persisted (snd old) = persisted w ++ [(sid, completed_cancelled, game_state_json s)] /\
   activeHelperGames (snd old) !! sid = None) /\
  (hd Good (tl (fates w)) <> Good ->
   fst v4 = telegram_result (hd Good (tl (fates w))) /\
   persisted (snd v4) = persisted w /\
   activeHelperGames (snd v4) !! sid = Some l).
Proof.
  intros Hsid [Hr Hh] Hact Hcl Hf1 Hf3 v4 old. subst v4 old.
  assert (Hm : map_get (cq_sessionId cq) w = Some l) by (rewrite Hsid; exact Hr).
  rewrite (run_V4_callback_live Hm Hh), (run_Base_callback_live raw Hm Hh).
  assert (Hh1 : heap (cleared s w) !! l = Some s) by (rewrite heap_cleared; exact Hh).
  unfold V4.dispatch, Base.dispatch. rewrite Hact, Hsid. cbn [String.eqb Ascii.eqb Bool.eqb].
  rewrite Hcl, String.eqb_refl.
  split.
  - rewrite run_bind, run_answer, fates_cleared, Hf1. cbn [telegram_result].
    set (w1 := said _ (cleared s w)).
    assert (Hh2 : heap w1 !! l = Some s) by exact Hh1.
    assert (F1 : fates w1 = tl (fates w))
      by (subst w1; simpl; rewrite fates_cleared; reflexivity).
    rewrite run_bind, (run_deref Hh2), run_bind, run_try_catch.
    assert (Hdel : exists w2,
      (let (r, w') := run (await (bot_deleteMessage (chat_id s)
                                    (helperMessageId (game_state_json s)))) w1 in
       match r with inl a => (inl a, w') | inr e0 => run (Ret tt) w' end)
      = (inl tt, w2) /\
      heap w2 = heap w1 /\ fates w2 = tl (fates w1) /\ persisted w2 = persisted w1 /\
      activeHelperGames w2 = activeHelperGames w1).
    { unfold await. simpl. rewrite run_presenter.
      exists (said (DeleteMessage (chat_id s) (helperMessageId (game_state_json s))) w1).
      destruct (hd Good (fates w1)); simpl; repeat split. }
    destruct Hdel as (w2 & -> & G1 & G2 & G3 & G4).
    assert (Hh3 : heap w2 !! l = Some s) by (rewrite G1; exact Hh2).
    rewrite run_bind, (run_deref Hh3), run_finalize, G2, F1, Hf3.
    simpl. rewrite G3, G4. subst w1. simpl.
    rewrite persisted_cleared, registry_cleared. split; [reflexivity|].
    apply lookup_delete_eq.
  - intros Hf2.
    rewrite run_bind, run_answer, fates_cleared, Hf1. cbn [telegram_result].
    set (w1 := said _ (cleared s w)).
    assert (Hh2 : heap w1 !! l = Some s) by exact Hh1.
    assert (F1 : fates w1 = tl (fates w))
      by (subst w1; simpl; rewrite fates_cleared; reflexivity).
    rewrite run_bind, (run_deref Hh2), run_bind, run_edit, F1.
    destruct (hd Good (tl (fates w))); [congruence | |]; cbn [telegram_result fst snd];
      subst w1; simpl; rewrite persisted_cleared, registry_cleared; repeat split; exact Hr.
Qed.

End FailedEdits.

Lemma timeout_with_failed_edit_is_lost_witness :
  let w := playing [Bad] in
  let v4 := run (V4.handleGameTimeout 7 player_turn) w in
  live w 7 0 playing_session /\ hd Good (fates w) <> Good /\
  fst v4 = inr (TelegramError false) /\
  persisted (snd v4) = [] /\
  activeHelperGames (snd v4) !! 7%Z = Some 0 /\
  timers (snd v4) = ∅.
Proof.
  assert (Hl : live (playing [Bad]) 7 0 playing_session) by (split; reflexivity).
  assert (Hf : hd Good (fates (playing [Bad])) <> Good) by (vm_compute; discriminate).
  destruct (@timeout_with_failed_edit_is_lost (playing [Bad]) 7 0 playing_session
              player_turn Hl Hf) as [(H1 & (_ & H2 & _ & _ & H3) & H4) _].
  split; [exact Hl | split; [exact Hf|]].
  split; [rewrite H1; reflexivity|].
  split; [rewrite H3; reflexivity|].
  split; [rewrite H2; reflexivity|].
  rewrite H4. vm_compute. reflexivity.
Defined.

Lemma cancel_with_failed_message_witness :
  let raw := fun _ : user => @inr string exn ReferenceError in
  let w := offered [Good; Bad; Good] in
  let cq := click alice "cf_helper_cancel:7" in
  live w 7 0 offered_session /\
  persisted (snd (run (Base.on_callback_query raw cq) w))
  = [(7%Z, completed_cancelled, offered_gs)] /\
  persisted (snd (run (V4.on_callback_query cq) w)) = [] /\
  activeHelperGames (snd (run (V4.on_callback_query cq) w)) !! 7%Z = Some 0.
Proof.
  assert (Hl : live (offered [Good; Bad; Good]) 7 0 offered_session)
    by (split; reflexivity).
  destruct (@cancel_with_failed_message (fun _ => inr ReferenceError)
              (offered [Good; Bad; Good]) (click alice "cf_helper_cancel:7") 7 0
              offered_session eq_refl Hl eq_refl eq_refl eq_refl eq_refl)
    as [[H1 _] H2].
  assert (Hf : hd Good (tl (fates (offered [Good; Bad; Good]))) <> Good)
    by (vm_compute; discriminate).
  destruct (H2 Hf) as (_ & H3 & H4).
  split; [exact Hl | split; [exact H1 | split; [exact H3 | exact H4]]].
Defined.

(** * The pickup *)

Lemma run_send_good (chat : Z) (t : ui_text) (w : world) :
  hd Good (fates w) = Good ->
  run (safeSendMessage chat t) w = (inl (Some (next_message_id w)), sent chat t w).
Proof.
  intros H. unfold safeSendMessage, await, sent.
  cbn [run bind try_catch perform perform_io]. rewrite H. reflexivity.
Qed.

Lemma run_send_failed (chat : Z) (t : ui_text) (w : world) :
  hd Good (fates w) <> Good ->
  run (safeSendMessage chat t) w = (inl None, send_failed chat t w).
Proof.
  intros H. unfold safeSendMessage, await, send_failed, said.
  cbn [run bind try_catch perform perform_io].
  destruct (hd Good (fates w)); [congruence | reflexivity | reflexivity].
Qed.

Lemma run_setTimeout (cb : timer_cb) (ms : Z) (w : world) :
  run (do_ (SetTimeout cb ms)) w = (inl (next_timer w), armed cb w).
Proof. reflexivity. Qed.

Lemma run_mapSet (k : Z) (l : loc) (w : world) :
  run (do_ (MapSet k l)) w = (inl tt, registered k l w).
Proof. reflexivity. Qed.

Lemma run_assigned (l : loc) (f : session -> session) (s : session) (w : world) :
  heap w !! l = Some s ->
  run (do_ (Assign l f)) w = (inl tt, assigned l (f s) w).
Proof. intros H. unfold assigned. apply run_assign, H. Qed.

Lemma run_game_state_good (gs : game_state) (sid : Z) (w : world) :
  hd Good (fates w) = Good ->
  run (await (pool_query_game_state gs sid)) w = (inl tt, game_state_written gs sid w).
Proof.
  intros H. unfold await, game_state_written.
  cbn [run perform perform_io]. unfold statement. rewrite H. reflexivity.
Qed.

Lemma lookup_assigned (l : loc) (x s : session) (w : world) :
  heap w !! l = Some s -> heap (assigned l x w) !! l = Some x.
Proof.
  intros H. unfold assigned. simpl. apply list_lookup_insert_eq.
  apply (lookup_lt_Some _ _ _ H).
Qed.

(** The offer of a session, with the message to send: the success path of
    [runUnifiedOffer] and of [runDirectChallenge]. *)
Lemma run_V4_runUnifiedOffer (l : loc) (s : session) (w : world) :
  heap w !! l = Some s ->
  hd Good (fates w) = Good ->
  hd Good (tl (fates w)) = Good ->
  let s1 := set_game_state (gs_set_helperMessageId (next_message_id w)) s in
  let s2 := set_timeoutId (next_timer w) s1 in
  run (V4.runUnifiedOffer l) w
  = (inl tt,
     game_state_written (game_state_json s2) (session_id s)
       (registered (session_id s) l
          (assigned l s2
             (armed (TimeoutCb (session_id s) offer)
                (assigned l s1 (sent (chat_id s) TxtUnifiedOffer w)))))).
Proof.
  intros Hh H1 H2 s1 s2. unfold V4.runUnifiedOffer.
  rewrite run_bind, (run_deref Hh).
  rewrite run_bind, (run_send_good _ _ H1).
  assert (Ha : heap (sent (chat_id s) TxtUnifiedOffer w) !! l = Some s) by exact Hh.
  rewrite run_bind, (run_assigned _ Ha).
  pose proof (lookup_assigned s1 Ha) as Hb. fold s1.
  rewrite run_bind, run_setTimeout.
  assert (Hc : heap (armed (TimeoutCb (session_id s) offer)
                       (assigned l s1 (sent (chat_id s) TxtUnifiedOffer w))) !! l
               = Some s1) by exact Hb.
  rewrite run_bind, (run_assigned _ Hc).
  pose proof (lookup_assigned (set_timeoutId (next_timer w) s1) Hc) as Hd.
  rewrite run_bind, run_mapSet.
  rewrite run_bind, (run_deref (s := s2)) by exact Hd.
  apply run_game_state_good. exact H2.
Qed.

Lemma run_V4_runDirectChallenge (l : loc) (s : session) (w : world) :
  heap w !! l = Some s ->
  hd Good (fates w) = Good ->
  hd Good (tl (fates w)) = Good ->
  let s1 := set_game_state (gs_set_helperMessageId (next_message_id w)) s in
  let s2 := set_timeoutId (next_timer w) s1 in
  run (V4.runDirectChallenge l) w
  = (inl tt,
     game_state_written (game_state_json s2) (session_id s)
       (registered (session_id s) l
          (assigned l s2
             (armed (TimeoutCb (session_id s) offer)
                (assigned l s1 (sent (chat_id s) TxtDirectChallenge w)))))).
Proof.
  intros Hh H1 H2 s1 s2. unfold V4.runDirectChallenge.
  rewrite run_bind, (run_deref Hh).
  rewrite run_bind, (run_send_good _ _ H1).
  assert (Ha : heap (sent (chat_id s) TxtDirectChallenge w) !! l = Some s) by exact Hh.
  rewrite run_bind, (run_assigned _ Ha).
  pose proof (lookup_assigned s1 Ha) as Hb. fold s1.
  rewrite run_bind, run_setTimeout.
  assert (Hc : heap (armed (TimeoutCb (session_id s) offer)
                       (assigned l s1 (sent (chat_id s) TxtDirectChallenge w))) !! l
               = Some s1) by exact Hb.
  rewrite run_bind, (run_assigned _ Hc).
  pose proof (lookup_assigned (set_timeoutId (next_timer w) s1) Hc) as Hd.
  rewrite run_bind, run_mapSet.
  rewrite run_bind, (run_deref (s := s2)) by exact Hd.
  apply run_game_state_good. exact H2.
Qed.

Lemma all_good_firstn_S (n : nat) (fs : list fate) :
  all_good (firstn (S n) fs) -> hd Good fs = Good /\ all_good (firstn n (tl fs)).
Proof.
  destruct fs as [|f fs]; simpl.
  - intros _. split; [reflexivity|]. destruct n; constructor.
  - intros H. inversion H; subst. split; [reflexivity | assumption].
Qed.

Lemma all_good_firstn_le (n m : nat) (fs : list fate) :
  n <= m -> all_good (firstn m fs) -> all_good (firstn n fs).
Proof.
  revert m fs. induction n as [|n IH]; intros m fs Hle H; [constructor|].
  destruct m as [|m]; [lia|]. destruct fs as [|f fs]; [constructor|].
  simpl in *. inversion H; subst. constructor; [reflexivity|].
  apply (IH m); [lia | assumption].
Qed.

Lemma all_good_skipn (n k : nat) (fs : list fate) :
  all_good (firstn (n + k) fs) -> all_good (firstn k (skipn n fs)).
Proof.
  revert fs. induction n as [|n IH]; intros fs H; [exact H|].
  destruct fs as [|f fs]; [destruct k; constructor|].
  simpl in *. inversion H; subst. apply IH. assumption.
Qed.

Lemma insert_last (hp : list session) (x y : session) :
  <[length hp := x]> (hp ++ [y]) = hp ++ [x].
Proof. induction hp as [|a hp IH]; simpl; [reflexivity|]. f_equal. exact IH. Qed.

(** The pickup up to its [COMMIT]: the claim has marked the rows and the
    first of them is set up. *)
Lemma pickup_reaches_set_up (w : world) (g : gid) (r0 : row) (rows0 : list row) :
  txn w = None ->
  List.filter (claim_matches g) (store w) = r0 :: rows0 ->
  all_good (firstn 4 (fates w)) ->
  run (V4.handleNewGameSession g) w
  = run (finally (try_catch (set_up (claim_row (BOT_ID w) r0))
                    (V4.handleNewGameSession_catch g true))
           (do_ ClientRelease))
        (claim_committed g w).
Proof.
  intros Ht Ef Hg. unfold claim_committed.
  destruct w as [hp reg tm nt sto tx per ob nm con fts cns bid].
  simpl in Ht, Hg, Ef. subst tx.
  assert (Hq : sql_claim bid g sto
               = (fst (sql_claim bid g sto),
                  claim_row bid r0 :: map (claim_row bid) rows0)).
  { unfold sql_claim. simpl. rewrite Ef. reflexivity. }
  destruct (all_good_firstn4 Hg) as [-> | [-> | [-> | [-> | [rest ->]]]]];
    unfold V4.handleNewGameSession, V4.handleNewGameSession_try;
    cbn [run bind finally try_catch await do_ perform perform_io statement hd tl fates
         set_fates set_txn set_store store BOT_ID txn fst snd];
    rewrite Hq; reflexivity.
Qed.

Lemma run_newObject (s : session) (w : world) :
  run (do_ (NewObject s)) w = (inl (length (heap w)), allocated s w).
Proof. reflexivity. Qed.

Lemma run_set_up (r : row) (w : world) :
  hd Good (fates w) = Good ->
  hd Good (tl (fates w)) = Good ->
  let l := length (heap w) in
  let s0 := session_of_row r in
  let s1 := set_game_state (gs_set_helperMessageId (next_message_id w)) s0 in
  let s2 := set_timeoutId (next_timer w) s1 in
  let t := if truthy (r_opponent_id r) then TxtDirectChallenge else TxtUnifiedOffer in
  run (set_up r) w
  = (inl tt,
     game_state_written (game_state_json s2) (r_session_id r)
       (registered (r_session_id r) l
          (assigned l s2
             (armed (TimeoutCb (r_session_id r) offer)
                (assigned l s1
                   (sent (r_chat_id r) t
                      (registered (r_session_id r) l (allocated s0 w)))))))).
Proof.
  intros H1 H2 l s0 s1 s2 t. subst l s0 s1 s2 t. unfold set_up.
  rewrite run_bind, run_newObject, run_bind, run_mapSet.
  set (w1 := registered _ _ _).
  assert (Hh : heap w1 !! length (heap w) = Some (session_of_row r)).
  { subst w1. simpl. apply list_lookup_middle. reflexivity. }
  destruct (truthy (r_opponent_id r)).
  - apply (run_V4_runDirectChallenge Hh H1 H2).
  - apply (run_V4_runUnifiedOffer Hh H1 H2).
Qed.

Lemma run_release {A : Type} (p : prog A) (w : world) :
  run (finally p (do_ ClientRelease)) w = run p w.
Proof.
  rewrite run_finally. destruct (run p w) as [r w']. reflexivity.
Qed.

Lemma run_set_up_failed_send (r : row) (w : world) :
  hd Good (fates w) <> Good ->
  hd Good (tl (fates w)) = Good ->
  let t := if truthy (r_opponent_id r) then TxtDirectChallenge else TxtUnifiedOffer in
  let gs := gs_error_only (if truthy (r_opponent_id r)
                           then "Failed to send direct challenge message"
                           else "Failed to send offer message") in
  run (set_up r) w
  = (inl tt,
     finalized (r_session_id r) completed_error_ui gs
       (send_failed (r_chat_id r) t
          (registered (r_session_id r) (length (heap w))
             (allocated (session_of_row r) w)))).
Proof.
  intros H1 H2 t gs. subst t gs. unfold set_up.
  rewrite run_bind, run_newObject, run_bind, run_mapSet.
  set (w1 := registered _ _ _).
  assert (Hh : heap w1 !! length (heap w) = Some (session_of_row r)).
  { subst w1. simpl. apply list_lookup_middle. reflexivity. }
  assert (F1 : hd Good (fates w1) <> Good) by exact H1.
  destruct (truthy (r_opponent_id r)).
  - unfold V4.runDirectChallenge.
    rewrite run_bind, (run_deref Hh), run_bind, (run_send_failed _ _ F1).
    cbv beta iota. change (session_id (session_of_row r)) with (r_session_id r).
    rewrite run_finalize.
    change (hd Good (fates (send_failed (chat_id (session_of_row r)) TxtDirectChallenge w1)))
      with (hd Good (tl (fates w))).
    rewrite H2. reflexivity.
  - unfold V4.runUnifiedOffer.
    rewrite run_bind, (run_deref Hh), run_bind, (run_send_failed _ _ F1).
    cbv beta iota. change (session_id (session_of_row r)) with (r_session_id r).
    rewrite run_finalize.
    change (hd Good (fates (send_failed (chat_id (session_of_row r)) TxtUnifiedOffer w1)))
      with (hd Good (tl (fates w))).
    rewrite H2. reflexivity.
Qed.

(** X20: a pickup whose message cannot be sent.  When the claim is
    committed, the send is rejected and the final update goes through, the
    session is finalized as [completed_error_ui] with the error in its
    game state and is out of the registry; no timer is armed.  The failure
    is logged before the finalization. *)
Theorem pickup_with_failed_send (w : world) (g : gid) (r0 : row) (rows0 : list row) :
  txn w = None ->
  List.filter (claim_matches g) (store w) = r0 :: rows0 ->
  all_good (firstn 4 (fates w)) ->
  hd Good (skipn 4 (fates w)) <> Good ->
  hd Good (skipn 5 (fates w)) = Good ->
  let sid := r_session_id r0 in
  let gs := gs_error_only (if truthy (r_opponent_id r0)
                           then "Failed to send direct challenge message"
                           else "Failed to send offer message") in
  let w' := snd (run (V4.handleNewGameSession g) w) in
  fst (run (V4.handleNewGameSession g) w) = inl tt /\
  activeHelperGames w' !! sid = None /\
  timers w' = timers w /\
  persisted w' = persisted w ++ [(sid, completed_error_ui, gs)] /\
  store w' = sql_finalize completed_error_ui gs sid
               (fst (sql_claim (BOT_ID w) g (store w))) /\
  console w' = console w ++ [LogSendFailed (r_chat_id r0);
                             LogFinalizing (Num sid) completed_error_ui] /\
  txn w' = None.
Proof.
  intros Ht Ef Hg H5 H6 sid gs w'. subst sid gs w'.
  rewrite (pickup_reaches_set_up Ht Ef Hg).
  rewrite run_release, run_try_catch.
  assert (F5 : hd Good (fates (claim_committed g w)) <> Good) by exact H5.
  assert (F6 : hd Good (tl (fates (claim_committed g w))) = Good).
  { unfold claim_committed. simpl.
    destruct (fates w) as [|? [|? [|? [|? [|? ?]]]]]; exact H6. }
  rewrite (@run_set_up_failed_send (claim_row (BOT_ID w) r0) (claim_committed g w) F5 F6).
  cbn [fst snd]. split_and!; try reflexivity.
  - simpl. apply lookup_delete_eq.
  - simpl. rewrite <- app_assoc. reflexivity.
  - exact Ht.
Qed.

Lemma pickup_with_failed_send_witness :
  let w := pickup_world [Good; Good; Good; Good; Bad] in
  let w' := snd (run (V4.handleNewGameSession (GStr "G42")) w) in
  hd Good (skipn 4 (fates w)) <> Good /\
  activeHelperGames w' !! 7%Z = None /\
  timers w' = ∅ /\
  map (fun e => fst e) (persisted w') = [(7%Z, completed_error_ui)] /\
  map r_status (store w') = [completed_error_ui].
Proof.
  assert (H5 : hd Good (skipn 4 (fates (pickup_world [Good; Good; Good; Good; Bad])))
               <> Good) by (simpl; discriminate).
  assert (Hg : all_good (firstn 4 (fates (pickup_world [Good; Good; Good; Good; Bad]))))
    by (repeat constructor).
  destruct (@pickup_with_failed_send (pickup_world [Good; Good; Good; Good; Bad])
              (GStr "G42") fresh_row [] eq_refl eq_refl Hg H5 eq_refl)
    as (_ & H1 & H2 & H3 & H4 & _).
  split; [exact H5|].
  split; [exact H1|].
  split; [rewrite H2; reflexivity|].
  split; [rewrite H3; reflexivity|].
  rewrite H4. reflexivity.
Defined.

(** * A pickup that fails *)

Lemma not_all_good_S (n : nat) (fs : list fate) :
  ~ all_good (firstn (S n) fs) ->
  hd Good fs <> Good \/ (hd Good fs = Good /\ ~ all_good (firstn n (tl fs))).
Proof.
  destruct fs as [|f fs]; simpl; intros H.
  - exfalso. apply H. constructor.
  - destruct f; [right | left; discriminate | left; discriminate].
    split; [reflexivity|]. intros H'. apply H. constructor; [reflexivity | exact H'].
Qed.

Lemma map_get_frame (k : jsnum) (w w' : world) :
  activeHelperGames w' = activeHelperGames w -> map_get k w' = map_get k w.
Proof. intros E. destruct k; simpl; rewrite ?E; reflexivity. Qed.

Lemma rolled_back_rollback (w0 w : world) :
  in_transaction w0 w \/ rolled_back w0 w -> rolled_back w0 (rollback (call_over w)).
Proof.
  unfold rollback, call_over. simpl.
  intros [(Ht & H1 & H2 & H3 & H4 & H5) | (Hs & Ht & H1 & H2 & H3 & H4 & H5)];
    rewrite Ht; simpl; repeat split; assumption.
Qed.

Lemma catch_rolls_back (g : gid) (client : bool) (e : exn) (w0 w : world) :
  map_get (gid_key g) w0 = None ->
  (if client then in_transaction w0 w \/ rolled_back w0 w else rolled_back w0 w) ->
  rolled_back w0 (snd (run (V4.handleNewGameSession_catch g client e) w)).
Proof.
  intros Hm H. unfold V4.handleNewGameSession_catch.
  assert (Hlog : forall w1, rolled_back w0 w1 ->
            rolled_back w0
              (snd (run (do_ (ConsoleLog (LogHandleNewError g)) ;;
                         sessionFromMap <- do_ (MapGet (gid_key g)) ;;
                         match sessionFromMap with
                         | Some l =>
                             s <- deref l ;;
                             finalizeAndRecordOutcome (Num (session_id s)) completed_error
                               (gs_error_only (exn_message e))
                         | None => Ret tt
                         end) w1))).
  { intros w1 H1. cbn [run bind do_ perform].
    rewrite (@map_get_frame (gid_key g) w0); [rewrite Hm; exact H1|].
    simpl. apply H1. }
  destruct client.
  - rewrite run_bind, run_await. cbn [perform_io].
    pose proof (rolled_back_rollback H) as Hr. unfold call_over in Hr.
    destruct (hd Good (fates w)); [apply Hlog, Hr | exact Hr | exact Hr].
  - rewrite run_bind. cbn [run]. apply Hlog, H.
Qed.

Lemma try_fails (g : gid) (w : world) :
  txn w = None ->
  ~ all_good (firstn 3 (fates w)) ->
  (exists e, fst (run (V4.handleNewGameSession_try g) w) = inr e) /\
  (in_transaction w (snd (run (V4.handleNewGameSession_try g) w)) \/
   rolled_back w (snd (run (V4.handleNewGameSession_try g) w))).
Proof.
  intros Ht Hng. unfold V4.handleNewGameSession_try.
  rewrite run_bind, run_await. cbn [perform_io]. unfold statement.
  destruct (not_all_good_S Hng) as [H1 | [H1 Hng2]].
  { destruct (hd Good (fates w)); [congruence | |];
      (split; [eexists; reflexivity | right; repeat split; exact Ht]). }
  rewrite H1. cbn [fst snd].
  rewrite run_bind, run_await. cbn [perform_io].
  change (fates (set_txn (Some (store (set_fates (tl (fates w)) w)))
                   (set_fates (tl (fates w)) w)))
    with (tl (fates w)).
  destruct (not_all_good_S Hng2) as [H2 | [H2 Hng3]].
  { destruct (hd Good (tl (fates w))); [congruence | |];
      (split; [eexists; reflexivity | left; repeat split]). }
  rewrite H2.
  destruct (not_all_good_S (n := 0) Hng3) as [H3 | [_ Hng4]];
    [|exfalso; apply Hng4; constructor].
  match goal with
  | |- context [sql_claim ?b ?g0 ?t] => destruct (sql_claim b g0 t) as [t' rows]
  end.
  cbn [fst snd].
  destruct rows as [|r rows].
  - rewrite run_await. cbn [perform_io]. simpl fates.
    destruct (hd Good (tl (tl (fates w)))); [congruence | |];
      (split; [eexists; reflexivity | right; repeat split]).
  - rewrite run_bind, run_await. cbn [perform_io]. simpl fates.
    destruct (hd Good (tl (tl (fates w)))); [congruence | |];
      (split; [eexists; reflexivity | right; repeat split]).
Qed.

(** X21: a pickup that does not get to commit leaves no trace.  When the
    connection, [BEGIN], the claiming update or the [COMMIT] (or the
    [ROLLBACK] of a claim that matched nothing) is rejected, the table is
    as it was before, no session object is created or registered, no timer
    is armed, nothing is sent and no transaction stays open.  (The
    external game id is taken not to be, as a number, the key of a
    registered session.) *)
Theorem pickup_rejected_before_commit (w : world) (g : gid) :
  txn w = None ->
  map_get (gid_key g) w = None ->
  ~ all_good (firstn 4 (fates w)) ->
  rolled_back w (snd (run (V4.handleNewGameSession g) w)).
Proof.
  intros Ht Hm Hng. unfold V4.handleNewGameSession.
  cbn [run bind perform perform_io]. unfold statement.
  assert (Hm1 : map_get (gid_key g) (call_over w) = None).
  { rewrite (@map_get_frame (gid_key g) w); [exact Hm | reflexivity]. }
  destruct (not_all_good_S Hng) as [H1 | [H1 Hng2]].
  - assert (Hc : rolled_back w
                   (snd (run (finally (V4.handleNewGameSession_catch g false DatabaseError)
                                (Ret tt)) (call_over w)))).
    { rewrite run_finally.
      pose proof (@catch_rolls_back g false DatabaseError (call_over w) (call_over w) Hm1)
        as Hc.
      destruct (run (V4.handleNewGameSession_catch g false DatabaseError) (call_over w))
        as [r w1]. simpl in *. apply Hc. repeat split. exact Ht. }
    destruct (hd Good (fates w)); [congruence | exact Hc | exact Hc].
  - rewrite H1. cbn [fst snd bind run]. fold (call_over w).
    change (run (bind (Ret tt) ?f) ?w0) with (run (f tt) w0).
    cbv beta iota. rewrite run_release, run_try_catch.
    destruct (@try_fails g (call_over w) Ht Hng2) as [[e He] Hw].
    destruct (run (V4.handleNewGameSession_try g) (call_over w)) as [r w1].
    simpl in He, Hw. subst r.
    apply (@catch_rolls_back g true e (call_over w) w1 Hm1 Hw).
Qed.

Lemma pickup_rejected_before_commit_witness :
  let w := pickup_world [Good; Good; Good; Bad] in
  let w' := snd (run (V4.handleNewGameSession (GStr "G42")) w) in
  ~ all_good (firstn 4 (fates w)) /\
  map r_status (store w') = [pending_pickup] /\
  heap w' = [] /\ activeHelperGames w' = ∅ /\ txn w' = None.
Proof.
  assert (Hng : ~ all_good (firstn 4 (fates (pickup_world [Good; Good; Good; Bad])))).
  { intros H. simpl in H.
    do 3 (apply Forall_cons_1 in H; destruct H as [_ H]).
    apply Forall_cons_1 in H. destruct H as [H _]. discriminate H. }
  destruct (@pickup_rejected_before_commit (pickup_world [Good; Good; Good; Bad])
              (GStr "G42") eq_refl eq_refl Hng) as (H1 & H2 & H3 & H4 & _).
  split; [exact Hng|].
  split; [rewrite H1; reflexivity|].
  split; [rewrite H3; reflexivity|].
  split; [rewrite H4; reflexivity | exact H2].
Defined.

(** * Invariants of the loops *)

(** X22: between two handlers the registry is consistent.  When the
    handlers run one at a time from a consistent registry, with nothing
    finalized and no transaction open, then after any events every key of
    the registry leads to a session object with that session id, no
    transaction is open, and no row of a finalized session is pending, so
    that it cannot be picked up again. *)
Theorem serial_keeps_registry_consistent (raw : user -> string + exn) (w0 : world)
    (evs : list event) :
  registry_ok w0 ->
  persisted w0 = [] ->
  txn w0 = None ->
  let v4 := V4Loop.serial evs w0 in
  let old := BaseLoop.serial raw evs w0 in
  (registry_ok v4 /\ txn v4 = None /\ clean (persisted_ids v4) (store v4)) /\
  (registry_ok old /\ txn old = None /\ clean (persisted_ids old) (store old)).
Proof.
  intros Hr Hp Ht v4 old. subst v4 old.
  pose proof (idle_initially Hr Hp Ht) as Hi.
  destruct (V4_serial_idle evs Hi) as [I1 T1].
  destruct (Base_serial_idle raw evs Hi) as [I2 T2].
  split; (split; [|split]); try assumption.
  - exact (inv_reg I1).
  - exact (inv_store I1).
  - exact (inv_reg I2).
  - exact (inv_store I2).
Qed.

Lemma serial_keeps_registry_consistent_witness :
  let raw := fun _ : user => @inr string exn ReferenceError in
  let evs := [Pickup (GStr "G42"); Callback (click alice "cf_helper_accept_bot:7");
              TimerFires 1; Pickup (GStr "G42")] in
  let v4 := V4Loop.serial evs (pickup_world []) in
  registry_ok (pickup_world []) /\
  persisted_statuses 7 v4 = [completed_bot_win] /\
  registry_ok v4 /\ txn v4 = None /\ clean (persisted_ids v4) (store v4).
Proof.
  assert (Hr : registry_ok (pickup_world [])) by (apply registry_ok_empty; reflexivity).
  split; [exact Hr|].
  split; [vm_compute; reflexivity|].
  exact (proj1 (@serial_keeps_registry_consistent (fun _ => inr ReferenceError)
                  (pickup_world [])
                  [Pickup (GStr "G42"); Callback (click alice "cf_helper_accept_bot:7");
                   TimerFires 1; Pickup (GStr "G42")]
                  Hr eq_refl eq_refl)).
Defined.

Lemma writes_terminal_preserves (X : Type) (e : eff X) :
  writes_terminal e -> preserves all_terminal e.
Proof.
  intros He w Hw. unfold all_terminal in *.
  destruct e; simpl in *; try exact Hw.
  - destruct k; exact Hw.
  - destruct (heap w !! l); exact Hw.
  - destruct r; simpl; unfold presenter, statement, rollback; simpl;
      repeat match goal with
             | |- context [match ?x with _ => _ end] => destruct x eqn:?; simpl
             end; try exact Hw.
    apply Forall_app. split; [exact Hw|]. constructor; [exact He | constructor].
Qed.

Ltac terminal_leaf :=
  intros;
  first [exact I | reflexivity | apply terminal_timeout_status | apply terminal_outcome
        | apply terminal_Base_timeout_status].

Lemma V4_handleNewGameSession_writes_terminal (g : gid) :
  always writes_terminal (V4.handleNewGameSession g).
Proof. always_all terminal_leaf. Qed.

Lemma V4_on_callback_query_writes_terminal (cq : callback_query) :
  always writes_terminal (V4.on_callback_query cq).
Proof. always_all terminal_leaf. Qed.

Lemma V4_handleGameTimeout_writes_terminal (sid : Z) (ctx : context) :
  always writes_terminal (V4.handleGameTimeout sid ctx).
Proof. always_all terminal_leaf. Qed.

Lemma V4_start_writes_terminal (ev : event) (w : world) (p : prog unit) (w' : world) :
  all_terminal w -> V4Loop.start ev w = Some (p, w') ->
  always (preserves all_terminal) p /\ all_terminal w'.
Proof.
  intros Hw E. destruct ev as [g | cq | h]; simpl in E.
  - destruct (gid_truthy g); [|discriminate]. injection E as <- <-. split; [|exact Hw].
    apply (always_mono writes_terminal_preserves),
      V4_handleNewGameSession_writes_terminal.
  - injection E as <- <-. split; [|exact Hw].
    apply (always_mono writes_terminal_preserves),
      V4_on_callback_query_writes_terminal.
  - destruct (timers w !! h) as [[sid ctx]|]; [|discriminate].
    injection E as <- <-. split; [|exact Hw].
    apply (always_mono writes_terminal_preserves),
      V4_handleGameTimeout_writes_terminal.
Qed.

(** X23: also when the handlers race, every status the helper persists is
    a terminal one: whatever the events and however the handlers
    interleave at their awaits, no final update writes [pending_pickup] or
    [in_progress], so that the helper never reopens a game. *)
Theorem interleaved_writes_terminal (w : world) (cs : list V4Loop.schedule) :
  all_terminal w ->
  all_terminal (V4Loop.sys_world (V4Loop.interleaved cs w)).
Proof. intros Hw. apply (V4_interleaved_invariant V4_start_writes_terminal), Hw. Qed.

Lemma interleaved_writes_terminal_witness :
  persisted_statuses 7
    (V4Loop.sys_world (V4Loop.interleaved race_timeout_and_click (playing [])))
  = [completed_bot_win; completed_p1_win] /\
  all_terminal (V4Loop.sys_world (V4Loop.interleaved race_timeout_and_click (playing []))).
Proof.
  split; [vm_compute; reflexivity|].
  apply (@interleaved_writes_terminal (playing []) race_timeout_and_click).
  constructor.
Defined.

(** * The two wrappers *)

(** X24: [safeSendMessage] never throws.  It gives the id of the message
    when the send resolves and [null] when it is rejected, whatever the
    reason; a rejection is logged, and nothing else of the helper's state
    changes. *)
Theorem safeSendMessage_never_throws (chat : Z) (t : ui_text) (w : world) :
  let r := run (safeSendMessage chat t) w in
  fst r = inl (match hd Good (fates w) with
               | Good => Some (next_message_id w)
               | _ => None
               end) /\
  outbox (snd r) = outbox w ++ [(SendMessage chat t, hd Good (fates w))] /\
  console (snd r) = console w ++ match hd Good (fates w) with
                                 | Good => []
                                 | _ => [LogSendFailed chat]
                                 end /\
  same_state w (snd r).
Proof.
  intros r. subst r.
  destruct (hd Good (fates w)) eqn:Hf.
  - rewrite (run_send_good chat t Hf). simpl. rewrite app_nil_r. repeat split.
  - rewrite run_send_failed by congruence. simpl. rewrite Hf. repeat split.
  - rewrite run_send_failed by congruence. simpl. rewrite Hf. repeat split.
Qed.

Lemma sql_finalize_rows (st : status) (gs : game_state) (sid : Z) (t : list row) :
  Forall2 (fun r r' =>
             if Z.eqb (r_session_id r) sid
             then r_status r' = st /\ r_game_state_json r' = gs /\
                  row_key r' = row_key r /\ r_helper_bot_id r' = r_helper_bot_id r
             else r' = r)
          t (sql_finalize st gs sid t).
Proof.
  induction t as [|r t IH]; [constructor|].
  simpl. constructor; [|exact IH].
  destruct (Z.eqb (r_session_id r) sid); [repeat split | reflexivity].
Qed.

(** X25: [finalizeAndRecordOutcome] never throws, whatever the key and
    however the update ends.  When the update goes through, the rows with
    that session id, and no others, get the status and the game state, the
    session is out of the registry, and neither a session object nor a
    timer is touched. *)
Theorem finalize_never_throws (k : jsnum) (sid : Z) (st : status) (gs : game_state)
    (w : world) :
  fst (run (finalizeAndRecordOutcome k st gs) w) = inl tt /\
  (hd Good (fates w) = Good ->
   let w' := snd (run (finalizeAndRecordOutcome (Num sid) st gs) w) in
   activeHelperGames w' = delete sid (activeHelperGames w) /\
   persisted w' = persisted w ++ [(sid, st, gs)] /\
   Forall2 (fun r r' =>
              if Z.eqb (r_session_id r) sid
              then r_status r' = st /\ r_game_state_json r' = gs /\
                   row_key r' = row_key r /\ r_helper_bot_id r' = r_helper_bot_id r
              else r' = r)
           (store w) (store w') /\
   heap w' = heap w /\ timers w' = timers w /\ txn w' = txn w).
Proof.
  split.
  - destruct k as [z|].
    + rewrite run_finalize. reflexivity.
    + unfold finalizeAndRecordOutcome, await.
      cbn [run bind try_catch do_ perform perform_io]. reflexivity.
  - intros Hf w'. subst w'. rewrite run_finalize, Hf. simpl.
    split_and!; try reflexivity. apply sql_finalize_rows.
Qed.

(** * Accepting an offer *)

Lemma run_V4_runCoinflipPvB (l : loc) (s : session) (w : world) :
  heap w !! l = Some s ->
  let s1 := set_game_state (gs_set_status "pvb_awaiting_player_choice") s in
  let w1 := said (EditMessageText (chat_id s) (helperMessageId (game_state_json s))
                    TxtPvBPrompt)
              (registered (session_id s) l (assigned l s1 w)) in
  run (V4.runCoinflipPvB l) w
  = match hd Good (fates w) with
    | Good => (inl tt,
               assigned l (set_timeoutId (next_timer w) s1)
                 (armed (TimeoutCb (session_id s) player_turn) w1))
    | f => (telegram_result f, w1)
    end.
Proof.
  intros Hh s1 w1. unfold V4.runCoinflipPvB.
  rewrite run_bind, (run_assigned _ Hh). fold s1.
  pose proof (lookup_assigned s1 Hh) as Ha.
  rewrite run_bind, (run_deref Ha), run_bind, run_mapSet, run_bind, run_edit.
  change (hd Good (fates (registered (session_id s1) l (assigned l s1 w))))
    with (hd Good (fates w)).
  destruct (hd Good (fates w)); try reflexivity.
  cbn [telegram_result]. rewrite run_bind, run_setTimeout.
  apply run_assigned. exact Ha.
Qed.

Lemma run_Base_runCoinflipPvB (l : loc) (s : session) (w : world) :
  heap w !! l = Some s ->
  let w1 := said (EditMessageText (chat_id s) (helperMessageId (game_state_json s))
                    TxtPvBPrompt) w in
  run (Base.runCoinflipPvB l) w
  = match hd Good (fates w) with
    | Good => (inl tt,
               registered (session_id s) l
                 (assigned l (set_timeoutId (next_timer w) s)
                    (armed (TimeoutCb (session_id s) player_turn) w1)))
    | f => (telegram_result f, w1)
    end.
Proof.
  intros Hh w1. unfold Base.runCoinflipPvB.
  rewrite run_bind, (run_deref Hh), run_bind, run_edit.
  destruct (hd Good (fates w)); try reflexivity.
  cbn [telegram_result]. rewrite run_bind, run_setTimeout.
  assert (Ha : heap (armed (TimeoutCb (session_id s) player_turn) w1) !! l = Some s)
    by exact Hh.
  rewrite run_bind, (run_assigned _ Ha).
  apply run_mapSet.
Qed.

Section Accepting.

Variable raw : user -> string + exn.

(** X26: the initiator takes on the bot.  When the query is answered and
    the prompt can be shown, the draft v4 notes the phase in the game
    state, shows the prompt, and arms one timer for the player's turn in
    place of the one it cleared; nothing is persisted.
    [coinflip_helper.js] does the same without answering the query and
    without noting the phase. *)
Theorem accept_bot_starts_the_game (w : world) (cq : callback_query) (l : loc)
    (s : session) :
  map_get (cq_sessionId cq) w = Some l ->
  heap w !! l = Some s ->
  cq_action cq = "cf_helper_accept_bot"%string ->
  clickerId cq = String_ (initiator_id s) ->
  hd Good (fates w) = Good ->
  let prompt := EditMessageText (chat_id s) (helperMessageId (game_state_json s))
                  TxtPvBPrompt in
  let timer := <[next_timer w := TimeoutCb (session_id s) player_turn]>
                 (timers (cleared s w)) in
  (hd Good (tl (fates w)) = Good ->
   let r := run (V4.on_callback_query cq) w in
   fst r = inl tt /\
   heap (snd r) !! l
   = Some (set_timeoutId (next_timer w)
             (set_game_state (gs_set_status "pvb_awaiting_player_choice") s)) /\
   timers (snd r) = timer /\
   activeHelperGames (snd r) = <[session_id s := l]> (activeHelperGames w) /\
   outbox (snd r) = outbox w ++ [(AnswerCallbackQuery (cq_id cq) None false, Good);
                                 (prompt, Good)] /\
   persisted (snd r) = persisted w /\ store (snd r) = store w) /\
  (let r := run (Base.on_callback_query raw cq) w in
   fst r = inl tt /\
   heap (snd r) !! l = Some (set_timeoutId (next_timer w) s) /\
   timers (snd r) = timer /\
   activeHelperGames (snd r) = <[session_id s := l]> (activeHelperGames w) /\
   outbox (snd r) = outbox w ++ [(prompt, Good)] /\
   persisted (snd r) = persisted w /\ store (snd r) = store w).
Proof.
  intros Hm Hh Hact Hcl H1 prompt timer. subst prompt timer.
  rewrite (run_V4_callback_live Hm Hh), (run_Base_callback_live raw Hm Hh).
  assert (Hh1 : heap (cleared s w) !! l = Some s) by (rewrite heap_cleared; exact Hh).
  unfold V4.dispatch, Base.dispatch. rewrite Hact. cbn [String.eqb Ascii.eqb Bool.eqb].
  rewrite Hcl, String.eqb_refl.
  split.
  - intros H2.
    rewrite run_bind, run_answer, fates_cleared, H1. cbn [telegram_result].
    set (w1 := said _ (cleared s w)).
    assert (Hh2 : heap w1 !! l = Some s) by exact Hh1.
    assert (F2 : hd Good (fates w1) = Good)
      by (subst w1; simpl; rewrite fates_cleared; exact H2).
    rewrite (run_V4_runCoinflipPvB Hh2), F2. cbn [fst snd].
    change (next_timer w1) with (next_timer (cleared s w)).
    rewrite next_timer_cleared.
    split_and!; try reflexivity.
    + eapply lookup_assigned. exact (lookup_assigned _ Hh2).
    + subst w1. simpl. rewrite next_timer_cleared. reflexivity.
    + subst w1. simpl. rewrite registry_cleared. reflexivity.
    + subst w1. simpl. rewrite outbox_cleared, !fates_cleared, H1, H2, <- app_assoc.
      reflexivity.
    + subst w1. simpl. apply persisted_cleared.
    + subst w1. simpl. apply store_cleared.
  - rewrite (run_Base_runCoinflipPvB Hh1), fates_cleared, H1. cbn [fst snd].
    split_and!; try reflexivity.
    + simpl. rewrite next_timer_cleared, heap_cleared.
      apply list_lookup_insert_eq. apply (lookup_lt_Some _ _ _ Hh).
    + simpl. rewrite next_timer_cleared. reflexivity.
    + simpl. rewrite registry_cleared. reflexivity.
    + simpl. rewrite outbox_cleared, fates_cleared, H1. reflexivity.
    + simpl. apply persisted_cleared.
    + simpl. apply store_cleared.
Qed.

End Accepting.

Lemma accept_bot_starts_the_game_witness :
  let raw := fun _ : user => @inr string exn ReferenceError in
  let w := offered [] in
  let cq := click alice "cf_helper_accept_bot:7" in
  hd Good (fates w) = Good /\
  snd (run (V4.on_callback_query cq) w) = playing [] /\
  heap (playing []) !! 0 = Some playing_session /\
  timers (playing []) = {[ 1 := TimeoutCb 7 player_turn ]} /\
  length (outbox (playing [])) = 3 /\
  length (outbox (snd (run (Base.on_callback_query raw cq) w))) = 2.
Proof.
  destruct (@accept_bot_starts_the_game (fun _ => inr ReferenceError) (offered [])
              (click alice "cf_helper_accept_bot:7") 0 offered_session
              eq_refl eq_refl eq_refl eq_refl eq_refl) as [H1 H2].
  destruct (H1 eq_refl) as (_ & A2 & A3 & _ & A5 & _).
  destruct H2 as (_ & _ & _ & _ & B5 & _).
  split; [reflexivity|].
  split; [vm_compute; reflexivity|].
  split; [reflexivity|].
  split; [vm_compute; reflexivity|].
  split; [reflexivity|].
  rewrite B5. reflexivity.
Defined.

Lemma run_random (w : world) :
  run (do_ MathRandomBelowHalf) w = (inl (hd true (coins w)), coin_read w).
Proof. reflexivity. Qed.

Lemma run_V4_runCoinflipPvP (l : loc) (s : session) (w : world) :
  heap w !! l = Some s ->
  let caller := if hd true (coins w) then initiator_id s else opponent_id s in
  let s1 := set_game_state (gs_set_callerId caller) s in
  let w1 := said (EditMessageText (chat_id s) (helperMessageId (game_state_json s))
                    (TxtPvPPrompt caller))
              (assigned l s1 (coin_read w)) in
  run (V4.runCoinflipPvP l) w
  = match hd Good (fates w) with
    | Good => (inl tt,
               assigned l (set_timeoutId (next_timer w) s1)
                 (armed (TimeoutCb (session_id s) caller_turn) w1))
    | f => (telegram_result f, w1)
    end.
Proof.
  intros Hh caller s1 w1. unfold V4.runCoinflipPvP.
  rewrite run_bind, run_random.
  assert (Ha : heap (coin_read w) !! l = Some s) by exact Hh.
  rewrite run_bind, (run_deref Ha). cbv zeta. fold caller.
  rewrite run_bind, (run_assigned _ Ha). fold s1.
  rewrite run_bind, run_edit.
  change (hd Good (fates (assigned l s1 (coin_read w)))) with (hd Good (fates w)).
  destruct (hd Good (fates w)); try reflexivity.
  cbn [telegram_result]. rewrite run_bind, run_setTimeout.
  apply run_assigned. exact (lookup_assigned s1 Ha).
Qed.

(** X27: a game between two players gets going, in the draft v4.  When
    somebody other than the initiator accepts, the clicker becomes the
    opponent under the name shown for them; when the opponent of a direct
    challenge accepts, the session keeps its opponent.  Either way one
    coin decides who calls, the initiator or the opponent, the caller is
    noted in the game state and named in the prompt, and one timer for the
    caller's turn replaces the one cleared.  Nothing is persisted. *)
Theorem pvp_accept_picks_the_caller (w : world) (cq : callback_query) (l : loc)
    (s : session) :
  map_get (cq_sessionId cq) w = Some l ->
  heap w !! l = Some s ->
  hd Good (fates w) = Good ->
  hd Good (tl (fates w)) = Good ->
  accepts_pvp cq s = true \/
  (cq_action cq = "cf_helper_accept_direct"%string /\
   clickerId cq = String_ (opponent_id s)) ->
  let s0 := if accepts_pvp cq s
            then set_game_state (gs_set_opponentName
                                   (getPlayerDisplayReference (Some (cq_from cq))))
                   (set_opponent_id (Id (clickerId cq)) s)
            else s in
  let caller := if hd true (coins w) then initiator_id s else opponent_id s0 in
  let r := run (V4.on_callback_query cq) w in
  fst r = inl tt /\
  heap (snd r) !! l
  = Some (set_timeoutId (next_timer w) (set_game_state (gs_set_callerId caller) s0)) /\
  timers (snd r)
  = <[next_timer w := TimeoutCb (session_id s) caller_turn]> (timers (cleared s w)) /\
  coins (snd r) = tl (coins w) /\
  outbox (snd r)
  = outbox w ++ [(AnswerCallbackQuery (cq_id cq) None false, Good);
                 (EditMessageText (chat_id s) (helperMessageId (game_state_json s))
                    (TxtPvPPrompt caller), Good)] /\
  persisted (snd r) = persisted w /\ store (snd r) = store w.
Proof.
  intros Hm Hh H1 H2 Hc s0 caller r. subst r.
  rewrite (run_V4_callback_live Hm Hh).
  assert (Hh1 : heap (cleared s w) !! l = Some s) by (rewrite heap_cleared; exact Hh).
  assert (Hend : forall (s' : session) (w0 : world),
            heap w0 !! l = Some s' ->
            fates w0 = fates w -> next_timer w0 = next_timer w ->
            timers w0 = timers (cleared s w) -> coins w0 = coins w ->
            outbox w0 = outbox w -> persisted w0 = persisted w -> store w0 = store w ->
            chat_id s' = chat_id s ->
            helperMessageId (game_state_json s') = helperMessageId (game_state_json s) ->
            session_id s' = session_id s -> initiator_id s' = initiator_id s ->
            let c := if hd true (coins w) then initiator_id s else opponent_id s' in
            let r := run (await (bot_answerCallbackQuery (cq_id cq) None false) ;;
                          V4.runCoinflipPvP l) w0 in
            fst r = inl tt /\
            heap (snd r) !! l
            = Some (set_timeoutId (next_timer w) (set_game_state (gs_set_callerId c) s')) /\
            timers (snd r)
            = <[next_timer w := TimeoutCb (session_id s) caller_turn]>
                (timers (cleared s w)) /\
            coins (snd r) = tl (coins w) /\
            outbox (snd r)
            = outbox w ++ [(AnswerCallbackQuery (cq_id cq) None false, Good);
                           (EditMessageText (chat_id s)
                              (helperMessageId (game_state_json s))
                              (TxtPvPPrompt c), Good)] /\
            persisted (snd r) = persisted w /\ store (snd r) = store w).
  { intros s' w0 Hs' Ef En Et Ec Eo Ep Est E1 E2 E3 E4 c r. subst c r.
    rewrite run_bind, run_answer, Ef, H1. cbn [telegram_result].
    set (w1 := said _ w0).
    assert (Hh2 : heap w1 !! l = Some s') by exact Hs'.
    assert (F2 : hd Good (fates w1) = Good) by (subst w1; simpl; rewrite Ef; exact H2).
    rewrite (run_V4_runCoinflipPvP Hh2), F2. cbn [fst snd].
    change (next_timer w1) with (next_timer w0). change (coins w1) with (coins w0).
    rewrite En, Ec, E1, E2, E3, E4.
    split_and!; try reflexivity.
    - eapply lookup_assigned. exact (lookup_assigned _ Hh2).
    - subst w1. simpl. rewrite En, Et. reflexivity.
    - subst w1. simpl. rewrite Ec. reflexivity.
    - subst w1. simpl. rewrite Eo, Ef, H1, H2, <- app_assoc. reflexivity.
    - subst w1. simpl. exact Ep.
    - subst w1. simpl. exact Est. }
  destruct (accepts_pvp cq s) eqn:Ha.
  - destruct (accepts_pvp_true Ha) as [Hact Hcl].
    unfold V4.dispatch. rewrite Hact. cbn [String.eqb Ascii.eqb Bool.eqb].
    rewrite Hcl. cbn [negb].
    rewrite run_bind, (run_assigned _ Hh1).
    pose proof (lookup_assigned (set_opponent_id (Id (clickerId cq)) s) Hh1) as Hh2.
    rewrite run_bind, (run_assigned _ Hh2).
    pose proof (lookup_assigned
                  (set_game_state (gs_set_opponentName
                                     (getPlayerDisplayReference (Some (cq_from cq))))
                     (set_opponent_id (Id (clickerId cq)) s)) Hh2) as Hh3.
    subst s0 caller.
    apply (Hend _ _ Hh3); try reflexivity.
    + simpl. apply fates_cleared.
    + simpl. apply next_timer_cleared.
    + simpl. apply coins_cleared.
    + simpl. apply outbox_cleared.
    + simpl. apply persisted_cleared.
    + simpl. apply store_cleared.
  - destruct Hc as [Hc | [Hact Hcl]]; [discriminate|].
    unfold V4.dispatch. rewrite Hact. cbn [String.eqb Ascii.eqb Bool.eqb].
    rewrite Hcl, String.eqb_refl.
    subst s0 caller.
    apply (Hend _ _ Hh1); try reflexivity.
    + apply fates_cleared.
    + apply next_timer_cleared.
    + apply coins_cleared.
    + apply outbox_cleared.
    + apply persisted_cleared.
    + apply store_cleared.
Qed.

Lemma pvp_accept_picks_the_caller_witness :
  let w := offered [] in
  let cq := click bob "cf_helper_accept_pvp:7" in
  let r := run (V4.on_callback_query cq) w in
  accepts_pvp cq offered_session = true /\
  fst r = inl tt /\
  (exists s, heap (snd r) !! 0 = Some s /\ opponent_id s = Id "200" /\
             callerId (game_state_json s) = Id "100") /\
  timers (snd r) = {[ 1 := TimeoutCb 7 caller_turn ]} /\
  length (outbox (snd r)) = 3 /\
  store (snd r) = store w.
Proof.
  cbv zeta.
  destruct (@pvp_accept_picks_the_caller (offered [])
              (click bob "cf_helper_accept_pvp:7") 0 offered_session
              eq_refl eq_refl eq_refl eq_refl (or_introl eq_refl))
    as (A1 & A2 & A3 & _ & A5 & _ & A7).
  split; [reflexivity|].
  split; [exact A1|].
  split; [eexists; split; [exact A2 | split; reflexivity]|].
  split; [rewrite A3; vm_compute; reflexivity|].
  split; [rewrite A5; reflexivity|].
  exact A7.
Defined.

(** * The animation *)

Lemma nth_tl (j : nat) (fs : list fate) : nth j (tl fs) Good = nth (S j) fs Good.
Proof. destruct fs as [|f fs]; [destruct j|]; reflexivity. Qed.

Lemma hd_nth (fs : list fate) : hd Good fs = nth 0 fs Good.
Proof. destruct fs; reflexivity. Qed.

Lemma skipn_tl (k : nat) (fs : list fate) : skipn k (tl fs) = skipn (S k) fs.
Proof. destruct fs as [|f fs]; [destruct k|]; reflexivity. Qed.

(** The edit that shows frame [j] of the animation. *)
Lemma loop_world_frames (s : session) (choice : string) (n i : nat) (w : world) :
  exists k, k <= n /\
    outbox (loop_world s choice i n w)
    = outbox w ++ map (fun j => (EditMessageText (chat_id s)
                                   (helperMessageId (game_state_json s))
                                   (TxtFlipping ((i + j) mod COIN_FLIP_ANIMATION_FRAMES_length)
                                      choice),
                                 nth j (fates w) Good)) (seq 0 k) /\
    fates (loop_world s choice i n w) = skipn k (fates w) /\
    (forall j, S j < k -> nth j (fates w) Good <> Bad) /\
    (k < n -> exists j, k = S j /\ nth j (fates w) Good = Bad).
Proof.
  revert i w; induction n as [|n IH]; intros i w; cbn [loop_world].
  - exists 0. split_and!; [lia | simpl; rewrite app_nil_r; reflexivity | reflexivity
                          | intros; lia | intros; lia].
  - set (w1 := said _ w).
    assert (Hstop : hd Good (fates w) = Bad ->
              exists k, k <= S n /\
                outbox w1
                = outbox w ++ map (fun j => (EditMessageText (chat_id s)
                                   (helperMessageId (game_state_json s))
                                   (TxtFlipping ((i + j) mod COIN_FLIP_ANIMATION_FRAMES_length)
                                      choice),
                                 nth j (fates w) Good)) (seq 0 k) /\
                fates w1 = skipn k (fates w) /\
                (forall j, S j < k -> nth j (fates w) Good <> Bad) /\
                (k < S n -> exists j, k = S j /\ nth j (fates w) Good = Bad)).
    { intros Hb. exists 1. split_and!.
      - lia.
      - subst w1. simpl. rewrite Nat.add_0_r, hd_nth. reflexivity.
      - subst w1. simpl. destruct (fates w); reflexivity.
      - intros; lia.
      - intros _. exists 0. split; [reflexivity | rewrite <- hd_nth; exact Hb]. }
    assert (Hgo : hd Good (fates w) <> Bad ->
              exists k, k <= S n /\
                outbox (loop_world s choice (S i) n w1)
                = outbox w ++ map (fun j => (EditMessageText (chat_id s)
                                   (helperMessageId (game_state_json s))
                                   (TxtFlipping ((i + j) mod COIN_FLIP_ANIMATION_FRAMES_length)
                                      choice),
                                 nth j (fates w) Good)) (seq 0 k) /\
                fates (loop_world s choice (S i) n w1) = skipn k (fates w) /\
                (forall j, S j < k -> nth j (fates w) Good <> Bad) /\
                (k < S n -> exists j, k = S j /\ nth j (fates w) Good = Bad)).
    { intros Hb. destruct (IH (S i) w1) as (k & Hk & Ho & Hf & Hall & Hlast).
      exists (S k). split_and!.
      - lia.
      - rewrite Ho. subst w1. cbn [said outbox set_outbox set_fates fates].
        rewrite <- app_assoc. f_equal.
        cbn [seq map app]. rewrite Nat.add_0_r, hd_nth. f_equal.
        rewrite <- seq_shift, map_map. apply map_ext. intros j.
        rewrite nth_tl, Nat.add_succ_r. reflexivity.
      - rewrite Hf. subst w1. cbn [said fates set_outbox set_fates]. apply skipn_tl.
      - intros [|j] Hj.
        + rewrite <- hd_nth. exact Hb.
        + specialize (Hall j ltac:(lia)). subst w1.
          cbn [said fates set_outbox set_fates] in Hall. rewrite nth_tl in Hall. exact Hall.
      - intros Hlt. destruct (Hlast ltac:(lia)) as (j & -> & Hj).
        exists (S j). split; [reflexivity|]. subst w1.
        cbn [said fates set_outbox set_fates] in Hj. rewrite nth_tl in Hj. exact Hj. }
    destruct (hd Good (fates w)) eqn:E.
    + apply Hgo. discriminate.
    + apply Hgo. discriminate.
    + apply Hstop. reflexivity.
Qed.

(** X28: the frames of the animation.  The loop never throws and changes
    no session, no timer and no row.  It asks for the frames in their
    order, one edit each, the frame of step [j] being number [j] modulo the
    number of frames; it goes on after an edit that went through or left
    the message as it was, and stops after the first edit rejected
    otherwise, or when all steps are done.  Both drafts. *)
Theorem animation_frames_in_order (l : loc) (s : session) (choice : string)
    (steps : nat) (w : world) :
  heap w !! l = Some s ->
  let r := run (animation_loop l choice 0 steps) w in
  fst r = inl tt /\
  same_state w (snd r) /\ coins (snd r) = coins w /\
  exists k, k <= steps /\
    outbox (snd r)
    = outbox w ++ map (fun j => (EditMessageText (chat_id s)
                                   (helperMessageId (game_state_json s))
                                   (TxtFlipping (j mod COIN_FLIP_ANIMATION_FRAMES_length)
                                      choice),
                                 nth j (fates w) Good)) (seq 0 k) /\
    fates (snd r) = skipn k (fates w) /\
    (forall j, S j < k -> nth j (fates w) Good <> Bad) /\
    (k < steps -> exists j, k = S j /\ nth j (fates w) Good = Bad).
Proof.
  intros Hh r. subst r. rewrite (run_animation_loop choice steps 0 Hh). cbn [fst snd].
  destruct (loop_world_frame s choice steps 0 w)
    as (F1 & F2 & F3 & F4 & F5 & F6 & F7 & F8 & F9).
  split; [reflexivity|].
  split; [repeat split; assumption|].
  split; [exact F8|].
  exact (loop_world_frames s choice steps 0 w).
Qed.

Lemma animation_frames_in_order_witness :
  let w := playing [NotModified; Bad; Good] in
  let r := run (animation_loop 0 "heads" 0 COIN_FLIP_ANIMATION_STEPS) w in
  heap w !! 0 = Some playing_session /\
  fst r = inl tt /\
  same_state w (snd r) /\
  length (outbox (snd r)) = length (outbox w) + 2 /\
  fates (snd r) = [Good].
Proof.
  cbv zeta.
  destruct (@animation_frames_in_order 0 playing_session "heads"
              COIN_FLIP_ANIMATION_STEPS (playing [NotModified; Bad; Good]) eq_refl)
    as (A1 & A2 & _ & _).
  split; [reflexivity|].
  split; [exact A1|].
  split; [exact A2|].
  split; vm_compute; reflexivity.
Defined.

Lemma loop_world_all_shown (s : session) (choice : string) (n i : nat) (w : world) :
  all_good (firstn n (fates w)) ->
  fates (loop_world s choice i n w) = skipn n (fates w).
Proof.
  revert i w; induction n as [|n IH]; intros i w Hg; cbn [loop_world]; [reflexivity|].
  destruct (fates w) as [|f fs] eqn:E.
  - cbn [hd]. rewrite IH.
    + cbn [said fates set_outbox set_fates]. rewrite E. cbn [tl]. apply skipn_nil.
    + cbn [said fates set_outbox set_fates]. rewrite E. cbn [tl].
      rewrite firstn_nil. constructor.
  - cbn [firstn] in Hg. apply Forall_cons_1 in Hg. destruct Hg as [-> Hg].
    cbn [hd]. rewrite IH.
    + cbn [said fates set_outbox set_fates]. rewrite E. reflexivity.
    + cbn [said fates set_outbox set_fates]. rewrite E. exact Hg.
Qed.

Lemma hd_skipn (n : nat) (fs : list fate) : hd Good (skipn n fs) = nth n fs Good.
Proof.
  revert fs; induction n as [|n IH]; intros [|f fs]; try reflexivity.
  cbn [skipn nth]. apply IH.
Qed.

(** X29: a game that is decided and never reported.  When every frame of
    the animation goes through and the edit that shows the result is
    rejected, for whatever reason, the function ends in the rejection: the
    coin has been read and the winner is noted in the game state, but no
    final update is written, the session stays registered and its timer
    has been cleared.  Both drafts. *)
Theorem rejected_result_strands_the_game (steps : nat) (l : loc) (s : session)
    (choice : string) (isPvP : bool) (w : world) :
  heap w !! l = Some s ->
  all_good (firstn steps (fates w)) ->
  nth steps (fates w) Good <> Good ->
  let r := run (animate_and_finalize steps l (Some choice) isPvP) w in
  let winner := fst (outcome s choice isPvP (landed_side (hd true (coins w)))) in
  fst r = telegram_result (nth steps (fates w) Good) /\
  heap (snd r) = <[l := set_game_state (gs_set_winner winner) s]> (heap w) /\
  activeHelperGames (snd r) = activeHelperGames w /\
  timers (snd r) = timers (cleared s w) /\
  persisted (snd r) = persisted w /\ store (snd r) = store w /\
  coins (snd r) = tl (coins w).
Proof.
  intros Hh Hg Hbad r winner. subst r winner.
  rewrite (run_animate steps choice isPvP Hh). cbv zeta.
  destruct (loop_world_frame s choice steps 0 (cleared s w))
    as (F1 & F2 & F3 & F4 & F5 & F6 & F7 & F8 & F9).
  assert (Hf : hd Good (fates (loop_world s choice 0 steps (cleared s w)))
               = nth steps (fates w) Good).
  { rewrite loop_world_all_shown by (rewrite fates_cleared; exact Hg).
    rewrite fates_cleared. apply hd_skipn. }
  rewrite Hf.
  destruct (nth steps (fates w) Good); [congruence | |];
    (cbn [fst snd]; split_and!; try reflexivity; simpl;
     rewrite ?F2, ?F3, ?F5, ?F7, ?registry_cleared, ?persisted_cleared, ?store_cleared;
     reflexivity).
Qed.

Lemma rejected_result_strands_the_game_witness :
  let w := playing (repeat Good 8 ++ [Bad]) in
  let r := run (V4.runCoinflipAnimationAndFinalize 0 (Some "heads") false) w in
  heap w !! 0 = Some playing_session /\
  (exists e, fst r = inr e) /\
  activeHelperGames (snd r) !! 7%Z = Some 0 /\
  timers (snd r) = ∅ /\
  persisted (snd r) = [].
Proof.
  cbv zeta.
  assert (Hg : all_good (firstn 8 (fates (playing (repeat Good 8 ++ [Bad])))))
    by (vm_compute; repeat constructor).
  assert (Hb : nth 8 (fates (playing (repeat Good 8 ++ [Bad]))) Good <> Good)
    by (vm_compute; discriminate).
  destruct (@rejected_result_strands_the_game 8 0 playing_session "heads" false
              (playing (repeat Good 8 ++ [Bad])) eq_refl Hg Hb)
    as (A1 & _ & A3 & A4 & A5 & _).
  split; [reflexivity|].
  split; [eexists; exact A1|].
  split; [change (V4.runCoinflipAnimationAndFinalize 0) with (animate_and_finalize 8 0);
          rewrite A3; vm_compute; reflexivity|].
  split; [change (V4.runCoinflipAnimationAndFinalize 0) with (animate_and_finalize 8 0);
          rewrite A4; vm_compute; reflexivity|].
  change (V4.runCoinflipAnimationAndFinalize 0) with (animate_and_finalize 8 0).
  rewrite A5. vm_compute. reflexivity.
Defined.

(** * Calling a game off *)

Lemma run_call_off (qid : string) (ans : option string) (text : ui_text) (sid : Z)
    (l : loc) (s : session) (w : world) :
  heap w !! l = Some s ->
  hd Good (fates w) = Good ->
  hd Good (tl (fates w)) = Good ->
  hd Good (tl (tl (fates w))) = Good ->
  run (await (bot_answerCallbackQuery qid ans false) ;;
       s1 <- deref l ;;
       await (bot_editMessageText (chat_id s1) (helperMessageId (game_state_json s1))
                text) ;;
       s2 <- deref l ;;
       finalizeAndRecordOutcome (Num sid) completed_cancelled (game_state_json s2)) w
  = (inl tt,
     finalized sid completed_cancelled (game_state_json s)
       (said (EditMessageText (chat_id s) (helperMessageId (game_state_json s)) text)
          (said (AnswerCallbackQuery qid ans false) w))).
Proof.
  intros Hh H1 H2 H3.
  rewrite run_bind, run_answer, H1. cbn [telegram_result].
  set (w1 := said _ w).
  assert (Hh1 : heap w1 !! l = Some s) by exact Hh.
  rewrite run_bind, (run_deref Hh1), run_bind, run_edit.
  change (fates w1) with (tl (fates w)). rewrite H2. cbn [telegram_result].
  set (w2 := said _ w1).
  assert (Hh2 : heap w2 !! l = Some s) by exact Hh.
  rewrite run_bind, (run_deref Hh2), run_finalize.
  change (fates w2) with (tl (tl (fates w))). rewrite H3. reflexivity.
Qed.

(** X30: a game that is called off, in the draft v4.  When the initiator
    withdraws the offer, or the opponent of a direct challenge declines it,
    and the three calls go through, the clicker is answered, the message is
    replaced, the row of the number the button carries becomes
    [completed_cancelled] with the game state of the session, and the
    session leaves the registry with its timer cleared.  No coin is read
    and no session object changes. *)
Theorem called_off_game_is_cancelled (w : world) (cq : callback_query) (sid : Z)
    (l : loc) (s : session) :
  cq_sessionId cq = Num sid ->
  live w sid l s ->
  (cq_action cq = "cf_helper_cancel"%string /\ clickerId cq = String_ (initiator_id s)) \/
  (cq_action cq = "cf_helper_decline_direct"%string /\
   clickerId cq = String_ (opponent_id s)) ->
  hd Good (fates w) = Good ->
  hd Good (tl (fates w)) = Good ->
  hd Good (tl (tl (fates w))) = Good ->
  let r := run (V4.on_callback_query cq) w in
  fst r = inl tt /\
  persisted (snd r) = persisted w ++ [(sid, completed_cancelled, game_state_json s)] /\
  store (snd r) = sql_finalize completed_cancelled (game_state_json s) sid (store w) /\
  activeHelperGames (snd r) = delete sid (activeHelperGames w) /\
  timers (snd r) = timers (cleared s w) /\
  heap (snd r) = heap w /\ coins (snd r) = coins w /\
  exists ans text,
    outbox (snd r)
    = outbox w ++ [(AnswerCallbackQuery (cq_id cq) ans false, Good);
                   (EditMessageText (chat_id s) (helperMessageId (game_state_json s)) text,
                    Good)].
Proof.
  intros Hsid [Hr Hh] Hc H1 H2 H3 r. subst r.
  assert (Hm : map_get (cq_sessionId cq) w = Some l) by (rewrite Hsid; exact Hr).
  rewrite (run_V4_callback_live Hm Hh).
  assert (Hh1 : heap (cleared s w) !! l = Some s) by (rewrite heap_cleared; exact Hh).
  assert (Hend : forall ans text,
            let r := (inl tt : unit + exn,
                      finalized sid completed_cancelled (game_state_json s)
                        (said (EditMessageText (chat_id s)
                                 (helperMessageId (game_state_json s)) text)
                           (said (AnswerCallbackQuery (cq_id cq) ans false)
                              (cleared s w)))) in
            fst r = inl tt /\
            persisted (snd r)
            = persisted w ++ [(sid, completed_cancelled, game_state_json s)] /\
            store (snd r)
            = sql_finalize completed_cancelled (game_state_json s) sid (store w) /\
            activeHelperGames (snd r) = delete sid (activeHelperGames w) /\
            timers (snd r) = timers (cleared s w) /\
            heap (snd r) = heap w /\ coins (snd r) = coins w /\
            exists ans text,
              outbox (snd r)
              = outbox w ++ [(AnswerCallbackQuery (cq_id cq) ans false, Good);
                             (EditMessageText (chat_id s)
                                (helperMessageId (game_state_json s)) text, Good)]).
  { intros ans text r. subst r. cbn [fst snd].
    split_and!; try reflexivity.
    - simpl. rewrite persisted_cleared. reflexivity.
    - simpl. rewrite store_cleared. reflexivity.
    - simpl. rewrite registry_cleared. reflexivity.
    - simpl. apply heap_cleared.
    - simpl. apply coins_cleared.
    - exists ans, text. simpl.
      rewrite outbox_cleared, !fates_cleared, H1, H2, <- app_assoc. reflexivity. }
  unfold V4.dispatch. rewrite Hsid.
  destruct Hc as [[Hact Hcl] | [Hact Hcl]];
    rewrite Hact; cbn [String.eqb Ascii.eqb Bool.eqb]; rewrite Hcl, String.eqb_refl;
    (rewrite (run_call_off _ _ _ sid Hh1) by (rewrite ?fates_cleared; assumption));
    apply Hend.
Qed.

Lemma called_off_game_is_cancelled_witness :
  let w := offered [] in
  let cq := click alice "cf_helper_cancel:7" in
  let r := run (V4.on_callback_query cq) w in
  live w 7 0 offered_session /\
  fst r = inl tt /\
  persisted (snd r) = [(7%Z, completed_cancelled, offered_gs)] /\
  activeHelperGames (snd r) = ∅ /\
  timers (snd r) = ∅.
Proof.
  cbv zeta.
  assert (Hl : live (offered []) 7 0 offered_session) by (split; reflexivity).
  destruct (@called_off_game_is_cancelled (offered []) (click alice "cf_helper_cancel:7")
              7 0 offered_session eq_refl Hl (or_introl (conj eq_refl eq_refl))
              eq_refl eq_refl eq_refl)
    as (A1 & A2 & _ & A4 & A5 & _).
  split; [exact Hl|].
  split; [exact A1|].
  split; [rewrite A2; reflexivity|].
  split; [rewrite A4; vm_compute; reflexivity|].
  rewrite A5. vm_compute. reflexivity.
Defined.

(** * A session that has been removed *)

(** No effect takes a final update out of the log. *)
Lemma every_effect_keeps_finalized (sid : Z) (X : Type) (e : eff X) :
  preserves (fun w => sid ∈ persisted_ids w) e.
Proof.
  intros w H. unfold persisted_ids in *.
  assert (Hsame : forall w', persisted w' = persisted w ->
                             sid ∈ map (fun e0 => fst (fst e0)) (persisted w'))
    by (intros w' ->; exact H).
  assert (Hback : forall w', persisted w' = persisted w ->
                             sid ∈ map (fun e0 => fst (fst e0)) (persisted (rollback w'))).
  { intros w' E. apply Hsame. rewrite <- E. unfold rollback.
    destruct (txn w'); reflexivity. }
  destruct e; simpl; try (apply Hsame; reflexivity).
  - destruct k; apply Hsame; reflexivity.
  - destruct (heap w !! l); apply Hsame; reflexivity.
  - destruct r; simpl; unfold presenter, statement; simpl.
    + destruct (hd Good (fates w)); apply Hsame; reflexivity.
    + destruct (hd Good (fates w)); apply Hsame; reflexivity.
    + destruct (hd Good (fates w)); apply Hsame; reflexivity.
    + destruct (hd Good (fates w)); apply Hsame; reflexivity.
    + apply Hsame; reflexivity.
    + destruct (hd Good (fates w)); apply Hsame; reflexivity.
    + destruct (hd Good (fates w)); apply Hsame; reflexivity.
    + destruct (hd Good (fates w)); apply Hsame; reflexivity.
    + destruct (hd Good (fates w)); try (apply Hback; reflexivity).
      apply Hsame; reflexivity.
    + destruct (hd Good (fates w)); apply Hback; reflexivity.
    + destruct sid0 as [z|]; [|apply Hsame; reflexivity]. unfold statement. simpl.
      destruct (hd Good (fates w)); try (apply Hsame; reflexivity).
      simpl. rewrite map_app. apply elem_of_app. left. exact H.
    + destruct (hd Good (fates w)); apply Hsame; reflexivity.
Qed.

Lemma V4_start_keeps_finalized (sid : Z) (ev : event) (w : world) (p : prog unit)
    (w' : world) :
  sid ∈ persisted_ids w -> V4Loop.start ev w = Some (p, w') ->
  always (preserves (fun w => sid ∈ persisted_ids w)) p /\ sid ∈ persisted_ids w'.
Proof.
  intros Hw E. split; [apply always_everything, every_effect_keeps_finalized|].
  destruct ev as [g | cq | h]; simpl in E.
  - destruct (gid_truthy g); [|discriminate]. injection E as <- <-. exact Hw.
  - injection E as <- <-. exact Hw.
  - destruct (timers w !! h) as [[sid' ctx]|]; [|discriminate].
    injection E as <- <-. exact Hw.
Qed.

Lemma Base_start_keeps_finalized (raw : user -> string + exn) (sid : Z) (ev : event)
    (w : world) (p : prog unit) (w' : world) :
  sid ∈ persisted_ids w -> BaseLoop.start raw ev w = Some (p, w') ->
  always (preserves (fun w => sid ∈ persisted_ids w)) p /\ sid ∈ persisted_ids w'.
Proof.
  intros Hw E. split; [apply always_everything, every_effect_keeps_finalized|].
  destruct ev as [g | cq | h]; simpl in E.
  - discriminate.
  - injection E as <- <-. exact Hw.
  - destruct (timers w !! h) as [[sid' []]|]; [| | |discriminate];
      injection E as <- <-; exact Hw.
Qed.

Lemma idle_gone (w : world) (sid : Z) :
  idle w -> sid ∈ persisted_ids w -> activeHelperGames w !! sid = None.
Proof. intros [[I1 _ _ _ _ _] _]. apply I1. Qed.

(** C7, as the code has it.  The helper removes a session from the
    registry in one place, [finalizeAndRecordOutcome], once the final
    update has run: the removal and the entry in the log of final updates
    come together, and a rejected update removes nothing.  When the
    handlers run one at a time, from a consistent registry with nothing
    finalized, a session that has been removed stays out of the registry
    whatever events follow: every later callback for its id is answered
    "This game is no longer active." and changes nothing else (no session,
    no registry entry, no timer, no row, no final update), and every later
    timer callback for its id changes nothing at all.  Both drafts.  And
    whatever the history, a handler that does not find the id in the
    registry when it starts is inert in this way.  Nothing is said of a
    handler that found the session and was suspended at an await when the
    session was removed. *)
Theorem C7_removed_session_is_inert (raw : user -> string + exn) (w0 : world)
    (evs later : list event) (sid : Z) :
  registry_ok w0 ->
  persisted w0 = [] ->
  txn w0 = None ->
  (sid ∈ persisted_ids (V4Loop.serial evs w0) ->
   let w := V4Loop.serial later (V4Loop.serial evs w0) in
   activeHelperGames w !! sid = None /\
   (forall cq, cq_sessionId cq = Num sid ->
      let w' := V4Loop.handle (Callback cq) w in
      same_state w w' /\
      outbox w' = outbox w ++ [(no_longer_active_answer cq, hd Good (fates w))]) /\
   (forall ctx, run (V4.handleGameTimeout sid ctx) w = (inl tt, w))) /\
  (sid ∈ persisted_ids (BaseLoop.serial raw evs w0) ->
   let w := BaseLoop.serial raw later (BaseLoop.serial raw evs w0) in
   activeHelperGames w !! sid = None /\
   (forall cq, cq_sessionId cq = Num sid ->
      let w' := BaseLoop.handle raw (Callback cq) w in
      same_state w w' /\
      outbox w' = outbox w ++ [(no_longer_active_answer cq, hd Good (fates w))]) /\
   (forall ctx, run (Base.handleGameTimeout sid ctx) w = (inl tt, w)) /\
   run (Base.handleOfferTimeout sid) w = (inl tt, w)) /\
  (forall w, activeHelperGames w !! sid = None ->
     (forall cq, cq_sessionId cq = Num sid ->
        let v4 := snd (run (V4.on_callback_query cq) w) in
        let old := snd (run (Base.on_callback_query raw cq) w) in
        same_state w v4 /\ same_state w old /\
        outbox v4 = outbox w ++ [(no_longer_active_answer cq, hd Good (fates w))] /\
        outbox old = outbox w ++ [(no_longer_active_answer cq, hd Good (fates w))]) /\
     (forall ctx, run (V4.handleGameTimeout sid ctx) w = (inl tt, w)) /\
     (forall ctx, run (Base.handleGameTimeout sid ctx) w = (inl tt, w)) /\
     run (Base.handleOfferTimeout sid) w = (inl tt, w)) /\
  (forall st gs w,
     let w' := snd (run (finalizeAndRecordOutcome (Num sid) st gs) w) in
     (hd Good (fates w) = Good ->
      activeHelperGames w' !! sid = None /\ sid ∈ persisted_ids w') /\
     (hd Good (fates w) <> Good ->
      activeHelperGames w' = activeHelperGames w /\ persisted w' = persisted w)).
Proof.
  intros Hr Hp Ht.
  pose proof (idle_initially Hr Hp Ht) as Hidle.
  split; [|split; [|split]].
  - intros Hin w.
    assert (Hgone : activeHelperGames w !! sid = None).
    { apply idle_gone.
      - apply V4_serial_idle, V4_serial_idle, Hidle.
      - apply (V4_serial_invariant (@V4_start_keeps_finalized sid)), Hin. }
    destruct (@absent_session_is_inert raw w sid Hgone) as (A1 & A2 & _).
    split; [exact Hgone | split; [|exact A2]].
    intros cq Hk w'. destruct (A1 cq Hk) as (B1 & _ & B3 & _).
    split; [exact B1 | exact B3].
  - intros Hin w.
    assert (Hgone : activeHelperGames w !! sid = None).
    { apply idle_gone.
      - apply Base_serial_idle, Base_serial_idle, Hidle.
      - apply (Base_serial_invariant (@Base_start_keeps_finalized raw sid)), Hin. }
    destruct (@absent_session_is_inert raw w sid Hgone) as (A1 & _ & A3 & A4).
    split; [exact Hgone | split; [|split; [exact A3 | exact A4]]].
    intros cq Hk w'. destruct (A1 cq Hk) as (_ & B2 & _ & B4).
    split; [exact B2 | exact B4].
  - intros w Hgone. apply (@absent_session_is_inert raw w sid Hgone).
  - intros st gs w w'. subst w'. rewrite run_finalize. split.
    + intros ->. cbn [snd]. split.
      * unfold finalized. simpl. apply lookup_delete_eq.
      * unfold persisted_ids, finalized. simpl. rewrite map_app.
        apply elem_of_app. right. simpl. constructor.
    + intros Hf. destruct (hd Good (fates w)); [congruence | |]; split; reflexivity.
Qed.

Lemma C7_removed_session_is_inert_witness :
  let raw := fun _ : user => @inr string exn ReferenceError in
  let evs := [Pickup (GStr "G42"); Callback (click alice "cf_helper_cancel:7")] in
  let later := [Callback (click bob "cf_helper_accept_pvp:7"); Pickup (GStr "G42")] in
  let cq := click alice "cf_helper_cancel:7" in
  let w := V4Loop.serial later (V4Loop.serial evs (pickup_world [])) in
  persisted_statuses 7 (V4Loop.serial evs (pickup_world [])) = [completed_cancelled] /\
  activeHelperGames w !! 7%Z = None /\
  same_state w (V4Loop.handle (Callback cq) w) /\
  outbox (V4Loop.handle (Callback cq) w)
  = outbox w ++ [(no_longer_active_answer cq, Good)] /\
  run (V4.handleGameTimeout 7 offer) w = (inl tt, w) /\
  same_state withdrawn (snd (run (Base.on_callback_query raw cq) withdrawn)).
Proof.
  cbv zeta.
  destruct (@C7_removed_session_is_inert (fun _ => inr ReferenceError) (pickup_world [])
              [Pickup (GStr "G42"); Callback (click alice "cf_helper_cancel:7")]
              [Callback (click bob "cf_helper_accept_pvp:7"); Pickup (GStr "G42")] 7
              (@registry_ok_empty (pickup_world []) eq_refl) eq_refl eq_refl)
    as (H1 & _ & H3 & _).
  assert (Hin : 7%Z ∈ persisted_ids
                  (V4Loop.serial [Pickup (GStr "G42");
                                  Callback (click alice "cf_helper_cancel:7")]
                     (pickup_world [])))
    by (vm_compute; constructor).
  destruct (H1 Hin) as (A1 & A2 & A3).
  destruct (A2 (click alice "cf_helper_cancel:7") eq_refl) as [B1 B2].
  destruct (H3 withdrawn eq_refl) as (C1 & _).
  destruct (C1 (click alice "cf_helper_cancel:7") eq_refl) as (_ & D2 & _).
  split; [reflexivity | split; [exact A1 | split; [exact B1 | split]]].
  - rewrite B2. vm_compute. reflexivity.
  - split; [apply A3 | exact D2].
Defined.

(** C7 as stated fails when handlers interleave.  The timer of Alice's
    offer fires and its handler is suspended on the edit; her click on
    "Challenge Bot" finds the session and is suspended on its answer; the
    timeout handler ends, which finalizes session 7 and removes it from the
    registry.  The click then runs on: [runCoinflipPvB] registers the
    session again and arms a timer.  The next click for the id, on
    "Heads", is not answered "no longer active": it plays the game and
    writes a second final update to the row. *)
Lemma C7_counterexample :
  let removed := V4Loop.sys_world (V4Loop.interleaved expiry_overtakes_accept (offered [])) in
  let revived := V4Loop.sys_world (V4Loop.interleaved accept_after_expiry (offered [])) in
  let cq := click alice "cf_helper_pvb_choice:7:heads" in
  let after := V4Loop.handle (Callback cq) revived in
  activeHelperGames (offered []) !! 7%Z = Some 0 /\
  (activeHelperGames removed !! 7%Z = None /\
   persisted_statuses 7 removed = [completed_timeout]) /\
  (activeHelperGames revived !! 7%Z = Some 0 /\
   timers revived = {[ 1 := TimeoutCb 7 player_turn ]}) /\
  cq_sessionId cq = Num 7 /\
  persisted_statuses 7 after = [completed_timeout; completed_p1_win] /\
  map r_status (store revived) = [completed_timeout] /\
  map r_status (store after) = [completed_p1_win].
Proof. vm_compute. repeat split; reflexivity. Qed.
